(** * The bootstrapper (PlatformTools/Tools/bootstrapper/bootstrapper.py)

    A shallow embedding of the task runner, the repository and artifact
    provisioners and the orchestrator, over a model of the file system,
    of [os.path], [os] and [shutil], and with the version-control client,
    the HTTP transport and the archive readers as parameters. *)

From Stdlib Require Import Ascii String.
From stdpp Require Import gmap strings list fin_maps.

Set Warnings "-register-all".

Local Open Scope string_scope.
Local Open Scope Z_scope.
Local Open Scope list_scope.

(** ** Strings and [os.path] (posixpath) *)

Definition startswith (s pre : string) : bool := String.prefix pre s.

Definition endswith (s suf : string) : bool :=
  String.prefix (String.rev suf) (String.rev s).

(** Python truthiness of a string, and of an optional value ([None] stands
    for a key that is absent, or present with a null value). *)
Definition truthy (s : string) : bool := negb (bool_decide (s = "")).

Definition truthy_opt (o : option string) : bool :=
  match o with
  | Some s => truthy s
  | None => false
  end.

(** [str(x)] inside an f-string, for a value that may be [None]. *)
Definition fmt (o : option string) : string := default "None" o.

(** ["\n"] *)
Definition newline : string := String (ascii_of_nat 10) "".

(** [' '.join(command)] *)
Fixpoint join_words (ws : list string) : string :=
  match ws with
  | [] => ""
  | [w] => w
  | w :: ws' => w +:+ " " +:+ join_words ws'
  end.

(** [s.split('/')] *)
Fixpoint split_slash (s : string) : list string :=
  match s with
  | "" => [""]
  | String c s' =>
      if bool_decide (c = "/"%char) then "" :: split_slash s'
      else match split_slash s' with
           | x :: xs => String c x :: xs
           | [] => [String c ""]
           end
  end.

(** [(p[:i], p[i:])] for [i = p.rfind('/') + 1] *)
Fixpoint split_last (s : string) : string * string :=
  match s with
  | "" => ("", "")
  | String c s' =>
      let '(h, t) := split_last s' in
      if bool_decide (h = "") then
        if bool_decide (c = "/"%char) then ("/", t) else ("", String c t)
      else (String c h, t)
  end.

(** [s.rstrip('/')] *)
Fixpoint rstrip_slash (s : string) : string :=
  match s with
  | "" => ""
  | String c s' =>
      let r := rstrip_slash s' in
      if bool_decide (r = "") && bool_decide (c = "/"%char) then ""
      else String c r
  end.

(** [os.path.join(a, b)] *)
Definition os_path_join (a b : string) : string :=
  if startswith b "/" then b
  else if negb (truthy a) || endswith a "/" then a +:+ b
  else a +:+ "/" +:+ b.

(** [os.path.dirname(p)] *)
Definition os_path_dirname (p : string) : string :=
  let head := (split_last p).1 in
  if truthy (rstrip_slash head) then rstrip_slash head else head.

(** [os.path.basename(p)] *)
Definition os_path_basename (p : string) : string := (split_last p).2.


(** ** The file system

    A tree of directories and regular files (no symbolic links), as a
    process sees it on a POSIX system when it owns every entry and is not
    the superuser.  A file carries its content and modification time.  Of
    the mode of an entry the tree keeps the owner's write bit, as the flag
    [readonly]: a write-protected file cannot be opened for writing, and
    in a write-protected directory no entry can be made or removed
    ([PermissionError]).  To remove an entry asks nothing of the entry
    itself.  Every file can be read, every directory listed and
    searched. *)

Inductive node :=
| File (data : string) (mtime : Z) (readonly : bool)
| Dir (readonly : bool) (entries : gmap string node).

(** A resolved location: the names from the root down to an entry. *)
Abbreviation loc := (list string).

Fixpoint lookup_node (t : node) (p : loc) {struct p} : option node :=
  match p with
  | [] => Some t
  | c :: p' =>
      match t with
      | Dir _ es => es !! c ≫= λ t', lookup_node t' p'
      | File _ _ _ => None
      end
  end.

(** Replace ([Some]) or drop ([None]) the entry at [p]; nothing happens when
    the parent of [p] is not a directory.  The root can only be replaced. *)
Fixpoint put_node (t : node) (p : loc) (o : option node) {struct p} : node :=
  match p with
  | [] => default t o
  | c :: p' =>
      match t with
      | Dir ro es =>
          match p' with
          | [] => Dir ro (partial_alter (λ _, o) c es)
          | _ => Dir ro (alter (λ t', put_node t' p' o) c es)
          end
      | File _ _ _ => t
      end
  end.

(** The number of entries of a tree, itself included. *)
Fixpoint node_size (t : node) : nat :=
  match t with
  | File _ _ _ => 1%nat
  | Dir _ es => S (map_fold (λ _ c acc, (node_size c + acc)%nat) 0%nat es)
  end.

Definition is_dir (t : node) (p : loc) : bool :=
  match lookup_node t p with
  | Some (Dir _ _) => true
  | _ => false
  end.

Definition is_file (t : node) (p : loc) : bool :=
  match lookup_node t p with
  | Some (File _ _ _) => true
  | _ => false
  end.

Definition is_readonly (n : node) : bool :=
  match n with
  | File _ _ ro => ro
  | Dir ro _ => ro
  end.

Definition set_readonly (ro : bool) (n : node) : node :=
  match n with
  | File d m _ => File d m ro
  | Dir _ es => Dir ro es
  end.

(** The directory at [p] lets entries be made and removed. *)
Definition writable_dir (t : node) (p : loc) : bool :=
  match lookup_node t p with
  | Some (Dir ro _) => negb ro
  | _ => false
  end.

(** ** Path resolution *)

Inductive component := Here | Up | Name (n : string).

Definition component_of (s : string) : component :=
  if bool_decide (s = "") || bool_decide (s = ".") then Here
  else if bool_decide (s = "..") then Up
  else Name s.

Definition components (s : string) : list component :=
  component_of <$> split_slash s.

Definition step (cur : loc) (c : component) : loc :=
  match c with
  | Here => cur
  | Up => removelast cur
  | Name n => cur ++ [n]
  end.

(** Every component is looked up in a directory that exists; the entry the
    last component names may be of any kind, or absent. *)
Fixpoint walk (t : node) (cur : loc) (cs : list component) : option loc :=
  match cs with
  | [] => Some cur
  | c :: cs' => if is_dir t cur then walk t (step cur c) cs' else None
  end.

(** The process state: the file system, the working directory (the program
    never changes it) and a clock that stamps written files. *)
Record state := State { root : node; cwd : loc; clock : Z }.

Definition start (st : state) (s : string) : loc :=
  if startswith s "/" then [] else cwd st.

Definition locate (st : state) (s : string) : option loc :=
  if truthy s then walk (root st) (start st s) (components s) else None.

Definition show_loc (p : loc) : string :=
  foldr (λ n r, "/" +:+ n +:+ r) "" p.

(** ** Exceptions, events and the monad of the program *)

Inductive errno :=
  ENOENT | EEXIST | ENOTDIR | EISDIR | EACCES | ENOTEMPTY | EINVAL | EBUSY.

(** The subclasses of [Exception] that the program can meet.  [OSError]
    stands for its [errno]-specific subclasses too ([FileNotFoundError],
    [FileExistsError], [PermissionError], ...). *)
Inductive exception :=
| OSError (e : errno) (path : string)
| KeyError (key : string)
| TypeError (msg : string)
| AttributeError (msg : string)
| SameFileError (src dst : string)
| shutil_Error (errors : list (string * string * string))
| ArchiveError (msg : string)
| RequestException (msg : string)
| HTTPError (status : Z).

Definition strerror (e : errno) : string :=
  match e with
  | ENOENT => "[Errno 2] No such file or directory"
  | EEXIST => "[Errno 17] File exists"
  | ENOTDIR => "[Errno 20] Not a directory"
  | EISDIR => "[Errno 21] Is a directory"
  | EACCES => "[Errno 13] Permission denied"
  | ENOTEMPTY => "[Errno 39] Directory not empty"
  | EINVAL => "[Errno 22] Invalid argument"
  | EBUSY => "[Errno 16] Device or resource busy"
  end.

(** [str(e)]; the text of a library's own message is kept schematic. *)
Definition str_exception (e : exception) : string :=
  match e with
  | OSError n p => strerror n +:+ ": '" +:+ p +:+ "'"
  | KeyError k => "'" +:+ k +:+ "'"
  | TypeError m => m
  | AttributeError m => m
  | SameFileError s d => "'" +:+ s +:+ "' and '" +:+ d +:+ "' are the same file"
  | shutil_Error l =>
      foldr (λ x r, "('" +:+ x.1.1 +:+ "', '" +:+ x.1.2 +:+ "', " +:+ x.2 +:+ ")" +:+ r) "" l
  | ArchiveError m => m
  | RequestException m => m
  | HTTPError s => "HTTP error"
  end.

Definition is_OSError (e : exception) : bool :=
  match e with
  | OSError _ _ | SameFileError _ _ | shutil_Error _ => true
  | _ => false
  end.

Inductive level := DEBUG | INFO | WARNING | ERROR.

(** The result of [subprocess.run]: the process ran and exited, or it could
    not be started. *)
Inductive completed :=
| Completed (returncode : Z) (stdout stderr : string)
| NotStarted (e : exception).

(** The result of [requests.get]. *)
Inductive response :=
| Response (status_code : Z) (content : string)
| Failed (e : exception).

(** What code that cannot end the process does, the changes of the file
    system apart: it logs, and it downloads. *)
Inductive event :=
| Log (lv : level) (msg : string)
| HttpGet (url : string) (r : response).

(** Code that cannot end the process: it returns or raises an [Exception]. *)
Definition IO (A : Type) : Type :=
  state → (exception + A) * state * list event.

Definition io_ret {A} (a : A) : IO A := λ st, (inr a, st, []).

Definition io_bind {A B} (m : IO A) (k : A → IO B) : IO B :=
  λ st,
    match m st with
    | (inr a, st', evs) => let '(r, st'', evs') := k a st' in (r, st'', evs ++ evs')
    | (inl e, st', evs) => (inl e, st', evs)
    end.

Declare Scope io_scope.
Delimit Scope io_scope with io.
Notation "x <- m ;; k" := (io_bind m (λ x, k))
  (at level 100, m at next level, right associativity) : io_scope.
Notation "m ;; k" := (io_bind m (λ _, k))
  (at level 100, right associativity) : io_scope.
Local Open Scope io_scope.

Definition raise {A} (e : exception) : IO A := λ st, (inl e, st, []).

Definition emit (ev : event) : IO unit := λ st, (inr tt, st, [ev]).

Definition get_state : IO state := λ st, (inr st, st, []).

Definition set_root (t : node) : IO unit :=
  λ st, (inr tt, State t (cwd st) (clock st), []).

Definition tick : IO Z :=
  λ st, (inr (clock st), State (root st) (cwd st) (clock st + 1), []).

(** [try: m  except <class> as e: h e], where [catches] tells the class. *)
Definition try_except {A} (catches : exception → bool)
    (m : IO A) (h : exception → IO A) : IO A :=
  λ st,
    match m st with
    | (inl e, st', evs) =>
        if catches e then let '(r, st'', evs') := h e st' in (r, st'', evs ++ evs')
        else (inl e, st', evs)
    | r => r
    end.

Definition Exception (e : exception) : bool := true.

Definition logging_debug (msg : string) : IO unit := emit (Log DEBUG msg).
Definition logging_info (msg : string) : IO unit := emit (Log INFO msg).
Definition logging_warning (msg : string) : IO unit := emit (Log WARNING msg).
Definition logging_error (msg : string) : IO unit := emit (Log ERROR msg).

(** ** [os] and [shutil] on resolved locations

    An [OSError] carries the resolved location of the path it is about,
    where Python carries the path as it was written. *)

Definition S_IWRITE : Z := 128.

(** [os.unlink]: the directory that holds the entry decides, whatever the
    mode of the entry. *)
Definition os_unlink_at (p : loc) : IO unit :=
  st <- get_state ;;
  match lookup_node (root st) p with
  | Some n =>
      if bool_decide (p = []) then raise (OSError EISDIR (show_loc p))
      else if negb (writable_dir (root st) (removelast p))
      then raise (OSError EACCES (show_loc p))
      else match n with
           | File _ _ _ => set_root (put_node (root st) p None)
           | Dir _ _ => raise (OSError EISDIR (show_loc p))
           end
  | None => raise (OSError ENOENT (show_loc p))
  end.

(** [os.rmdir]: the same, for a directory that is empty. *)
Definition os_rmdir_at (p : loc) : IO unit :=
  st <- get_state ;;
  match lookup_node (root st) p with
  | Some n =>
      if bool_decide (p = []) then raise (OSError EBUSY (show_loc p))
      else if negb (writable_dir (root st) (removelast p))
      then raise (OSError EACCES (show_loc p))
      else match n with
           | File _ _ _ => raise (OSError ENOTDIR (show_loc p))
           | Dir _ es =>
               if negb (bool_decide (es = ∅)) then raise (OSError ENOTEMPTY (show_loc p))
               else set_root (put_node (root st) p None)
           end
  | None => raise (OSError ENOENT (show_loc p))
  end.

(** [os.chmod], which the owner of an entry may always call: of [mode] the
    write bit is kept, as the flag.  ([stat.S_IWRITE] alone also takes the
    read and search bits away, which the tree does not hold.) *)
Definition os_chmod_at (p : loc) (mode : Z) : IO unit :=
  st <- get_state ;;
  match lookup_node (root st) p with
  | Some n =>
      set_root (put_node (root st) p (Some (set_readonly (negb (Z.testbit mode 7)) n)))
  | None => raise (OSError ENOENT (show_loc p))
  end.

(** [os.mkdir] *)
Definition os_mkdir_at (p : loc) : IO unit :=
  st <- get_state ;;
  match lookup_node (root st) p with
  | Some _ => raise (OSError EEXIST (show_loc p))
  | None =>
      match lookup_node (root st) (removelast p) with
      | Some (Dir ro _) =>
          if ro then raise (OSError EACCES (show_loc p))
          else set_root (put_node (root st) p (Some (Dir false ∅)))
      | Some (File _ _ _) => raise (OSError ENOTDIR (show_loc p))
      | None => raise (OSError ENOENT (show_loc p))
      end
  end.

(** [with open(p, 'wb') as f: f.write(data)] *)
Definition write_file_at (p : loc) (data : string) : IO unit :=
  st <- get_state ;;
  match lookup_node (root st) p with
  | Some (File _ _ ro) =>
      if ro then raise (OSError EACCES (show_loc p))
      else now <- tick ;; set_root (put_node (root st) p (Some (File data now false)))
  | Some (Dir _ _) => raise (OSError EISDIR (show_loc p))
  | None =>
      match lookup_node (root st) (removelast p) with
      | Some (Dir ro _) =>
          if ro then raise (OSError EACCES (show_loc p))
          else now <- tick ;; set_root (put_node (root st) p (Some (File data now false)))
      | Some (File _ _ _) => raise (OSError ENOTDIR (show_loc p))
      | None => raise (OSError ENOENT (show_loc p))
      end
  end.

(** [shutil.copystat]: the modification time of a file and the
    write-protection flag follow the source. *)
Definition copy_stat (s d : node) : node :=
  match s, d with
  | File _ m ro, File data _ _ => File data m ro
  | Dir ro _, File data m _ => File data m ro
  | _, Dir _ es => Dir (is_readonly s) es
  end.

Definition shutil_copystat_at (sp dp : loc) : IO unit :=
  st <- get_state ;;
  match lookup_node (root st) sp, lookup_node (root st) dp with
  | Some s, Some d => set_root (put_node (root st) dp (Some (copy_stat s d)))
  | None, _ => raise (OSError ENOENT (show_loc sp))
  | _, None => raise (OSError ENOENT (show_loc dp))
  end.

(** [shutil.copyfile] *)
Definition shutil_copyfile_at (sp dp : loc) : IO unit :=
  st <- get_state ;;
  match lookup_node (root st) sp with
  | Some (File data _ _) =>
      if bool_decide (sp = dp) then raise (SameFileError (show_loc sp) (show_loc dp))
      else write_file_at dp data
  | Some (Dir _ _) =>
      if bool_decide (sp = dp) then raise (SameFileError (show_loc sp) (show_loc dp))
      else raise (OSError EISDIR (show_loc sp))
  | None => raise (OSError ENOENT (show_loc sp))
  end.

(** [shutil.copy2(src, dst)], where [name] is [os.path.basename(src)]: a
    destination that is a directory receives the file under that name. *)
Definition shutil_copy2_at (sp dp : loc) (name : string) : IO unit :=
  st <- get_state ;;
  let dp' := if is_dir (root st) dp then dp ++ [name] else dp in
  shutil_copyfile_at sp dp' ;;
  shutil_copystat_at sp dp'.

(** [os.makedirs(_, exist_ok=True)] along components: a missing directory is
    created, an existing one is entered. *)
Fixpoint mkwalk (cur : loc) (cs : list component) : IO loc :=
  match cs with
  | [] => io_ret cur
  | c :: cs' =>
      st <- get_state ;;
      match lookup_node (root st) cur with
      | Some (Dir _ _) =>
          match c with
          | Name n =>
              match lookup_node (root st) (cur ++ [n]) with
              | None => os_mkdir_at (cur ++ [n]) ;; mkwalk (cur ++ [n]) cs'
              | Some _ => mkwalk (cur ++ [n]) cs'
              end
          | _ => mkwalk (step cur c) cs'
          end
      | Some (File _ _ _) => raise (OSError ENOTDIR (show_loc cur))
      | None => raise (OSError ENOENT (show_loc cur))
      end
  end.

Definition makedirs_from (cur : loc) (cs : list component) (shown : string) : IO loc :=
  p <- mkwalk cur cs ;;
  st <- get_state ;;
  if is_dir (root st) p then io_ret p else raise (OSError EEXIST shown).

Definition os_makedirs_at (p : loc) : IO unit :=
  makedirs_from [] (Name <$> p) (show_loc p) ;; io_ret tt.

(** One pass of [shutil.copytree]'s loop over the entries of a source
    directory catches [shutil.Error] and [OSError] and goes on. *)
Definition collect (src dst : string) (m : IO unit) : IO (list (string * string * string)) :=
  try_except is_OSError (m ;; io_ret [])
    (λ e, io_ret match e with
                 | shutil_Error l => l
                 | _ => [(src, dst, str_exception e)]
                 end).

(** The body of [shutil._copytree] with [dirs_exist_ok=True] and
    [copy_function=copy2], once the destination directory is there.  The
    entries are those of the source directory [snap] as listed on entry. *)
Fixpoint copytree_loop (snap : node) (sp dp : loc) : IO unit :=
  match snap with
  | File _ _ _ => io_ret tt
  | Dir _ es =>
      errors <-
        map_fold (λ name child (rest : IO (list (string * string * string))),
          errs <- rest ;;
          more <- collect (show_loc (sp ++ [name])) (show_loc (dp ++ [name]))
                    match child with
                    | Dir _ _ =>
                        os_makedirs_at (dp ++ [name]) ;;
                        copytree_loop child (sp ++ [name]) (dp ++ [name])
                    | File _ _ _ => shutil_copy2_at (sp ++ [name]) (dp ++ [name]) name
                    end ;;
          io_ret (errs ++ more)) (io_ret []) es ;;
      more <- collect (show_loc sp) (show_loc dp) (shutil_copystat_at sp dp) ;;
      match errors ++ more with
      | [] => io_ret tt
      | l => raise (shutil_Error l)
      end
  end.

(** The walk of [shutil.rmtree(_, onerror=onerror)] below a directory: every
    entry of [snap], the directory as listed on entry, is removed, files by
    [os.unlink], directories by a walk and [os.rmdir]; an [OSError] goes to
    [onerror] with the function that failed and the entry. *)
Fixpoint rmtree_loop (onerror : (loc → IO unit) → loc → exception → IO unit)
    (snap : node) (p : loc) : IO unit :=
  match snap with
  | File _ _ _ => io_ret tt
  | Dir _ es =>
      map_fold (λ name child (rest : IO unit),
        rest ;;
        match child with
        | Dir _ _ =>
            rmtree_loop onerror child (p ++ [name]) ;;
            try_except is_OSError (os_rmdir_at (p ++ [name]))
              (onerror os_rmdir_at (p ++ [name]))
        | File _ _ _ =>
            try_except is_OSError (os_unlink_at (p ++ [name]))
              (onerror os_unlink_at (p ++ [name]))
        end) (io_ret tt) es
  end.

(** ** [os.path], [os] and [shutil] on path strings *)

Definition exists_path (st : state) (s : string) : bool :=
  match locate st s with
  | Some p => bool_decide (is_Some (lookup_node (root st) p))
  | None => false
  end.

Definition isdir_path (st : state) (s : string) : bool :=
  match locate st s with
  | Some p => is_dir (root st) p
  | None => false
  end.

Definition isfile_path (st : state) (s : string) : bool :=
  match locate st s with
  | Some p => is_file (root st) p
  | None => false
  end.

Definition os_path_exists (s : string) : IO bool :=
  st <- get_state ;; io_ret (exists_path st s).
Definition os_path_isdir (s : string) : IO bool :=
  st <- get_state ;; io_ret (isdir_path st s).
Definition os_path_isfile (s : string) : IO bool :=
  st <- get_state ;; io_ret (isfile_path st s).

Definition os_remove (s : string) : IO unit :=
  st <- get_state ;;
  match locate st s with
  | Some p => os_unlink_at p
  | None => raise (OSError ENOENT s)
  end.

(** The last name in a path, trailing slashes apart. *)
Definition last_word (s : string) : option string :=
  last (filter (λ w, truthy w = true) (split_slash s)).

(** [os.rmdir]; a path that ends in [.] or [..] is refused. *)
Definition os_rmdir (s : string) : IO unit :=
  st <- get_state ;;
  if bool_decide (last_word s = Some ".") then raise (OSError EINVAL s)
  else if bool_decide (last_word s = Some "..") then raise (OSError ENOTEMPTY s)
  else match locate st s with
       | Some p => os_rmdir_at p
       | None => raise (OSError ENOENT s)
       end.

(** [os.makedirs(s, exist_ok=True)] *)
Definition os_makedirs (s : string) : IO unit :=
  if truthy s then
    st <- get_state ;;
    makedirs_from (start st s) (components s) s ;; io_ret tt
  else raise (OSError ENOENT s).

(** [shutil.rmtree(s, onerror=onerror)].  The program calls it on a path
    that [os.path.isdir] accepts; for any other path the error goes to
    [onerror] where the path names an entry's place, and is raised where it
    names none. *)
Definition shutil_rmtree (s : string)
    (onerror : (loc → IO unit) → loc → exception → IO unit) : IO unit :=
  st <- get_state ;;
  match locate st s with
  | Some p =>
      match lookup_node (root st) p with
      | Some (Dir _ _ as snap) =>
          rmtree_loop onerror snap p ;;
          try_except is_OSError (os_rmdir s) (onerror (λ _, os_rmdir s) p)
      | Some (File _ _ _) =>
          onerror (λ _, raise (OSError ENOTDIR s)) p (OSError ENOTDIR s)
      | None => onerror (λ _, raise (OSError ENOENT s)) p (OSError ENOENT s)
      end
  | None => raise (OSError ENOENT s)
  end.

(** [shutil.copytree(src, dst, dirs_exist_ok=True)] *)
Definition shutil_copytree (src dst : string) : IO unit :=
  st <- get_state ;;
  match locate st src with
  | Some sp =>
      match lookup_node (root st) sp with
      | Some (Dir _ _ as snap) =>
          os_makedirs dst ;;
          st' <- get_state ;;
          match locate st' dst with
          | Some dp => copytree_loop snap sp dp
          | None => raise (OSError ENOENT dst)
          end
      | Some (File _ _ _) => raise (OSError ENOTDIR src)
      | None => raise (OSError ENOENT src)
      end
  | None => raise (OSError ENOENT src)
  end.

(** [shutil.copy2(src, dst)] *)
Definition shutil_copy2 (src dst : string) : IO unit :=
  st <- get_state ;;
  let dst' := if isdir_path st dst then os_path_join dst (os_path_basename src) else dst in
  match locate st src with
  | Some sp =>
      match lookup_node (root st) sp, locate st dst' with
      | Some _, Some dp => shutil_copyfile_at sp dp ;; shutil_copystat_at sp dp
      | Some _, None => raise (OSError ENOENT dst')
      | None, _ => raise (OSError ENOENT src)
      end
  | None => raise (OSError ENOENT src)
  end.

(** [with open(s, 'wb') as file: file.write(data)] *)
Definition open_write (s data : string) : IO unit :=
  st <- get_state ;;
  match locate st s with
  | Some p => write_file_at p data
  | None => raise (OSError ENOENT s)
  end.

(** ** The manifest

    A dict of the parsed manifest is a finite map from its keys to their
    values.  The scalar fields of an entry are strings, as the data model
    has them.  A task is a dict whose values are whatever the manifest
    gives. *)

Abbreviation dict := (gmap string string).

(** [d.get(k)] and [d.get(k, default)] *)
Definition get (d : dict) (k : string) : option string := d !! k.
Definition get_default (d : dict) (k dflt : string) : string := default dflt (d !! k).

(** A value of a task: a string, or a value of another Python class
    ([None] for a null, a number, a boolean, a date, bytes, a list, a set,
    a mapping), known by the name of its class, by what [str] gives for
    it, and by whether it can be hashed. *)
Inductive value :=
| Text (s : string)
| Other (class_name shown : string) (hashable : bool).

Definition null : value := Other "NoneType" "None" true.

Definition str_value (v : value) : string :=
  match v with
  | Text s => s
  | Other _ shown _ => shown
  end.

(** [str(x)] inside an f-string, for what [task.get] returned. *)
Definition fmt_value (o : option value) : string :=
  match o with
  | Some v => str_value v
  | None => "None"
  end.

Abbreviation task_dict := (gmap string value).

(** [os.path.join(a, b)] for a string [a] and a value [b] of a task. *)
Definition os_path_join_value (a : string) (b : value) : IO string :=
  match b with
  | Text s => io_ret (os_path_join a s)
  | Other c _ _ =>
      raise (TypeError
               (if bool_decide (c = "bytes")
                then "Can't mix strings and bytes in path components"
                else "join() argument must be str, bytes, or os.PathLike object, not '"
                     +:+ c +:+ "'"))
  end.

(** A repository or artifact entry. *)
Record entry := Entry { scalars : dict; task_list : list task_dict }.

(** ** [class TaskExecutor] *)

Module TaskExecutor.

Record t := { repo : entry; base_dir : string; tasks : list task_dict }.

Definition __init__ (repo : entry) (base_dir : string) : t :=
  {| repo := repo; base_dir := base_dir; tasks := task_list repo |}.

(** What [action_map.get(action, 'unknown')] yields: a bound method, or the
    default, which is a string. *)
Inductive handler :=
| Method (f : string → option string → IO unit)
| Str (s : string).

Definition truthy_handler (h : handler) : bool :=
  match h with
  | Method _ => true
  | Str s => truthy s
  end.

(** [func(source, destination)] *)
Definition call (h : handler) (source : string) (destination : option string) : IO unit :=
  match h with
  | Method f => f source destination
  | Str _ => raise (TypeError "'str' object is not callable")
  end.

Section methods.

(** [zipfile.ZipFile(source, 'r').extractall(destination)] and
    [tarfile.open(source, 'r:*').extractall(destination)]: what they raise,
    if anything, and the file system they leave. *)
Variable zip_extractall : string → string → state → option exception * node.
Variable tar_extractall : string → string → state → option exception * node.

Definition extract (f : string → string → state → option exception * node)
    (source destination : string) : IO unit :=
  λ st,
    let '(r, t) := f source destination st in
    (match r with Some e => inl e | None => inr tt end,
     State t (cwd st) (clock st), []).

Definition _copy (self : t) (source : string)
    (destination : option string) : IO unit :=
  if negb (truthy_opt destination) then
    logging_error ("Destination not specified for copy action in "
                   +:+ get_default (scalars (repo self)) "name" "unknown")
  else
    let destination := default "" destination in
    logging_info ("Copying " +:+ source +:+ " to " +:+ destination +:+ "...") ;;
    isdir <- os_path_isdir source ;;
    if isdir : bool then
      shutil_copytree source destination
    else
      let destination_dir := os_path_dirname destination in
      os_makedirs destination_dir ;;
      shutil_copy2 source destination.

Definition remove_readonly (func : loc → IO unit) (path : loc) (_ : exception) : IO unit :=
  os_chmod_at path S_IWRITE ;;
  func path.

Definition _delete (self : t) (source : string)
    (destination : option string) : IO unit :=
  logging_info ("Deleting " +:+ source +:+ "...") ;;
  isdir <- os_path_isdir source ;;
  if isdir : bool then
    shutil_rmtree source remove_readonly
  else
    isfile <- os_path_isfile source ;;
    if isfile : bool then
      os_remove source
    else
      logging_warning ("Path " +:+ source +:+ " does not exist.").

Definition _expand (self : t) (source : string)
    (destination : option string) : IO unit :=
  match destination with
  | None => raise (TypeError "expected str, bytes or os.PathLike object, not NoneType")
  | Some destination =>
      os_makedirs destination ;;
      logging_info ("Extracting " +:+ source +:+ " to " +:+ destination +:+ "...") ;;
      try_except Exception
        (if endswith source ".zip" then
           extract zip_extractall source destination
         else if endswith source ".tar.gz" || endswith source ".tgz"
                 || endswith source ".tar" then
           extract tar_extractall source destination
         else
           logging_warning ("Unsupported file format for extraction: " +:+ source))
        (λ e, logging_error ("Error extracting " +:+ source +:+ ": " +:+ str_exception e))
  end.

Definition action_map (self : t)
    : gmap string (string → option string → IO unit) :=
  {[ "copy" := _copy self; "delete" := _delete self; "expand" := _expand self ]}.

(** [action_map.get(action, 'unknown')]: the keys are strings, so only a
    string finds a method; a value that cannot be hashed is refused. *)
Definition lookup_action (self : t) (action : option value) : IO handler :=
  match action with
  | Some (Text a) =>
      io_ret match action_map self !! a with
             | Some f => Method f
             | None => Str "unknown"
             end
  | Some (Other c _ false) => raise (TypeError ("unhashable type: '" +:+ c +:+ "'"))
  | _ => io_ret (Str "unknown")
  end.

(** One turn of the loop of [execute_tasks]: the lookups and the joins come
    before the [try]. *)
Definition execute_task (self : t) (task : task_dict) : IO unit :=
  let action := task !! "action" in
  func <- lookup_action self action ;;
  if truthy_handler func then
    source <- os_path_join_value (base_dir self) (default (Text "") (task !! "source")) ;;
    destination <-
      match task !! "destination" with
      | Some d => d <- os_path_join_value (base_dir self) d ;; io_ret (Some d)
      | None => io_ret None
      end ;;
    try_except Exception
      (call func source destination)
      (λ e, logging_error ("Error during " +:+ fmt_value action +:+ " task for "
                           +:+ source +:+ ": " +:+ str_exception e))
  else
    logging_warning ("Unknown action '" +:+ fmt_value action +:+ "' in "
                     +:+ get_default (scalars (repo self)) "name" "unknown").

Fixpoint for_each {A} (l : list A) (body : A → IO unit) : IO unit :=
  match l with
  | [] => io_ret tt
  | x :: l' => body x ;; for_each l' body
  end.

Definition execute_tasks (self : t) : IO unit :=
  for_each (tasks self) (execute_task self).

End methods.

End TaskExecutor.

(** ** Code that can end the process

    [exit(1)] raises [SystemExit], which no [except Exception] catches: a
    computation returns, raises an [Exception], or exits with a code. *)

Inductive outcome (A : Type) :=
| Returned (a : A)
| Raised (e : exception)
| Exited (code : Z).
Arguments Returned {A} a.
Arguments Raised {A} e.
Arguments Exited {A} code.

(** What a run does, in order: the events of the code that cannot exit, and
    the external commands, which only [run_command] starts. *)
Inductive act :=
| Did (ev : event)
| Spawn (argv : list string) (r : completed).

Definition Proc (A : Type) : Type := state → outcome A * state * list act.

Definition proc_ret {A} (a : A) : Proc A := λ st, (Returned a, st, []).

Definition proc_bind {A B} (m : Proc A) (k : A → Proc B) : Proc B :=
  λ st,
    match m st with
    | (Returned a, st', evs) => let '(r, st'', evs') := k a st' in (r, st'', evs ++ evs')
    | (Raised e, st', evs) => (Raised e, st', evs)
    | (Exited c, st', evs) => (Exited c, st', evs)
    end.

Definition lift {A} (m : IO A) : Proc A :=
  λ st,
    match m st with
    | (inr a, st', evs) => (Returned a, st', Did <$> evs)
    | (inl e, st', evs) => (Raised e, st', Did <$> evs)
    end.

(** [exit(code)] *)
Definition exit {A} (code : Z) : Proc A := λ st, (Exited code, st, []).

Declare Scope proc_scope.
Delimit Scope proc_scope with proc.
Notation "x <- m ;; k" := (proc_bind m (λ x, k))
  (at level 100, m at next level, right associativity) : proc_scope.
Notation "m ;; k" := (proc_bind m (λ _, k))
  (at level 100, right associativity) : proc_scope.

Fixpoint proc_for_each {A} (l : list A) (body : A → Proc unit) : Proc unit :=
  match l with
  | [] => proc_ret tt
  | x :: l' => proc_bind (body x) (λ _, proc_for_each l' body)
  end.

(** ** [class RepoManager] *)

Module RepoManager.

Record t := { repo : entry; base_dir : string }.

Definition __init__ (repo : entry) (base_dir : string) : t :=
  {| repo := repo; base_dir := base_dir |}.

Section methods.

Local Open Scope proc_scope.

(** [subprocess.run(command, cwd=None, check=True, capture_output=True,
    text=True)] before [check] is applied: how the process ended and the
    file system it leaves. *)
Variable subprocess_run : list string → state → completed * node.
Variable zip_extractall : string → string → state → option exception * node.
Variable tar_extractall : string → string → state → option exception * node.

Definition spawn (command : list string) : Proc completed :=
  λ st,
    let '(r, t) := subprocess_run command st in
    (Returned r, State t (cwd st) (clock st), [Spawn command r]).

Definition run_command (command : list string) : Proc unit :=
  let cmdline := join_words command in
  result <- spawn command ;;
  match result with
  | Completed returncode stdout stderr =>
      if bool_decide (returncode = 0) then
        (if truthy stdout
         then lift (logging_debug ("CMDDBG:" +:+ cmdline +:+ newline +:+ stdout))
         else proc_ret tt) ;;
        (if truthy stderr
         then lift (logging_debug ("CMDERR:" +:+ cmdline +:+ newline +:+ stderr))
         else proc_ret tt)
      else
        lift (logging_error ("Error running command: " +:+ cmdline)) ;;
        exit 1
  | NotStarted e => lift (raise e)
  end.

Definition clone_repository (self : t) : Proc unit :=
  let name := get (scalars (repo self)) "repo" in
  let url := get (scalars (repo self)) "url" in
  let branch := get_default (scalars (repo self)) "branch" "main" in
  let commit := get (scalars (repo self)) "commit" in
  let submodules := get (scalars (repo self)) "submodules" in
  match scalars (repo self) !! "destination" with
  | None => lift (raise (KeyError "destination"))
  | Some d =>
      let destination := os_path_join (base_dir self) d in
      lift (logging_info ("Cloning " +:+ fmt name +:+ " sources...")) ;;
      if negb (truthy_opt url) || negb (truthy destination) then
        lift (logging_error "Missing 'url' or 'destination' for a repository.")
      else
        let url := default "" url in
        lift (os_makedirs destination) ;;
        has_git <- lift (os_path_exists (os_path_join destination ".git")) ;;
        (if negb has_git then
           lift (logging_info ("Cloning " +:+ url +:+ " into " +:+ destination +:+ "...")) ;;
           run_command ["git"; "clone"; "--branch"; branch; "--single-branch"; url; destination]
         else
           lift (logging_info ("Repository already exists at " +:+ destination
                               +:+ ". Pulling latest changes...")) ;;
           run_command ["git"; "-C"; destination; "pull"]) ;;
        (if truthy_opt commit then
           let commit := default "" commit in
           lift (logging_info ("Checking out commit " +:+ commit +:+ " in "
                               +:+ destination +:+ "...")) ;;
           run_command ["git"; "-C"; destination; "checkout"; commit]
         else proc_ret tt) ;;
        (if truthy_opt submodules then
           let submodule_command := ["git"; "-C"; destination; "submodule"; "update"; "--init"] in
           let submodule_command :=
             if bool_decide (submodules = Some "recursive")
             then submodule_command ++ ["--recursive"]
             else submodule_command in
           lift (logging_info ("Initializing and updating submodules for "
                               +:+ destination +:+ "...")) ;;
           run_command submodule_command
         else proc_ret tt) ;;
        lift (TaskExecutor.execute_tasks zip_extractall tar_extractall
                (TaskExecutor.__init__ (repo self) (base_dir self)))
  end.

End methods.

End RepoManager.

(** ** [class ArtifactManager] *)

Module ArtifactManager.

Record t := { artifact : entry; base_dir : string }.

Definition __init__ (artifact : entry) (base_dir : string) : t :=
  {| artifact := artifact; base_dir := base_dir |}.

Section methods.

(** [requests.get(url, stream=True, verify=False)] with the body read. *)
Variable requests_get : string → state → response.
Variable zip_extractall : string → string → state → option exception * node.
Variable tar_extractall : string → string → state → option exception * node.

Definition http_get (url : string) : IO response :=
  λ st, let r := requests_get url st in (inr r, st, [HttpGet url r]).

(** [response.raise_for_status()] and the chunks of [iter_content] *)
Definition body_of (r : response) : IO string :=
  match r with
  | Response status_code content =>
      if bool_decide (400 ≤ status_code < 600) then raise (HTTPError status_code)
      else io_ret content
  | Failed e => raise e
  end.

Definition download (self : t) : IO unit :=
  let url := get (scalars (artifact self)) "url" in
  let destination :=
    os_path_join (base_dir self) (get_default (scalars (artifact self)) "destination" "") in
  if negb (truthy_opt url) || negb (truthy destination) then
    logging_error "Missing 'url' or 'destination' for download."
  else
    let url := default "" url in
    os_makedirs (os_path_dirname destination) ;;
    logging_info ("Downloading " +:+ url +:+ " to " +:+ destination +:+ "...") ;;
    response <- http_get url ;;
    content <- body_of response ;;
    open_write destination content ;;
    TaskExecutor.execute_tasks zip_extractall tar_extractall
      (TaskExecutor.__init__ (artifact self) (base_dir self)).

End methods.

End ArtifactManager.

(** ** [class BootstrapManager] *)

(** The mapping of a manifest, with the keys the program reads. *)
Record config := Config {
  project : option string;
  repositories : list entry;
  artifacts : list entry
}.

(** What [yaml.safe_load] returns for a text that parses: a mapping, or a
    value of another Python class, known by the name of its class
    ([NoneType] for an empty document; a list, a string, a number). *)
Inductive document :=
| Mapping (c : config)
| NotMapping (class_name : string).

Module BootstrapManager.

Record t := { yaml_file : string }.

Section methods.

Local Open Scope proc_scope.

Variable subprocess_run : list string → state → completed * node.
Variable requests_get : string → state → response.
Variable zip_extractall : string → string → state → option exception * node.
Variable tar_extractall : string → string → state → option exception * node.
(** [yaml.safe_load] on the text of the manifest: the document, or the
    message of the [yaml.YAMLError]. *)
Variable yaml_safe_load : string → string + document.

Definition __init__ (yaml_file : string) : Proc t :=
  found <- lift (os_path_exists yaml_file) ;;
  if negb found then
    lift (logging_error ("The specified YAML file '" +:+ yaml_file +:+ "' does not exist.")) ;;
    exit 1
  else proc_ret {| yaml_file := yaml_file |}.

(** [open(self.yaml_file, "r").read()] *)
Definition read_text (s : string) : IO string :=
  (st <- get_state ;;
   match locate st s ≫= lookup_node (root st) with
   | Some (File data _ _) => io_ret data
   | Some (Dir _ _) => raise (OSError EISDIR s)
   | None => raise (OSError ENOENT s)
   end)%io.

Definition load_manifest (self : t) : Proc document :=
  text <- lift (read_text (yaml_file self)) ;;
  match yaml_safe_load text with
  | inr d => proc_ret d
  | inl e =>
      lift (logging_error ("Error parsing YAML file: " +:+ e)) ;;
      exit 1
  end.

(** [run]: [config.get] is the method of a mapping; a document of any other
    class has none. *)
Definition run (self : t) : Proc unit :=
  config <- load_manifest self ;;
  match config with
  | NotMapping c =>
      lift (raise (AttributeError ("'" +:+ c +:+ "' object has no attribute 'get'")))
  | Mapping config =>
      let project_dir := project config in
      if negb (truthy_opt project_dir) then
        lift (logging_error "'project' key not found in the YAML manifest.") ;;
        exit 1
      else
        let project_dir := default "" project_dir in
        lift (os_makedirs project_dir) ;;
        proc_for_each (repositories config) (λ repo,
          RepoManager.clone_repository subprocess_run zip_extractall tar_extractall
            (RepoManager.__init__ repo project_dir)) ;;
        proc_for_each (artifacts config) (λ artifact,
          lift (ArtifactManager.download requests_get zip_extractall tar_extractall
                  (ArtifactManager.__init__ artifact project_dir)))
  end.

(** [BootstrapManager(args.file).run()] *)
Definition main (file : string) : Proc unit :=
  self <- __init__ file ;;
  run self.

End methods.

End BootstrapManager.

(** ** Vocabulary of the statements *)

(** The events of a result, with [evs] before them. *)
Definition prefixed {A} (evs : list event) (r : (exception + A) * state * list event)
    : (exception + A) * state * list event :=
  (r.1.1, r.1.2, evs ++ r.2).

Definition proc_prefixed {A} (evs : list act) (r : outcome A * state * list act)
    : outcome A * state * list act :=
  (r.1.1, r.1.2, evs ++ r.2).

(** The value is a string, or there is none. *)
Definition text_or_absent (o : option value) : bool :=
  match o with
  | Some (Other _ _ _) => false
  | _ => true
  end.

(** The source and the destination of the task are strings, where the task
    has them. *)
Definition paths_are_text (task : task_dict) : bool :=
  text_or_absent (task !! "source") && text_or_absent (task !! "destination").

(** The action of the task can be looked up: a string, any other value that
    can be hashed, or none. *)
Definition action_is_hashable (task : task_dict) : bool :=
  match task !! "action" with
  | Some (Other _ _ hashable) => hashable
  | _ => true
  end.

(** A task as the data model has it, as far as the runner looks before it
    calls a method. *)
Definition well_typed (task : task_dict) : bool :=
  paths_are_text task && action_is_hashable task.

(** The text of a field of a task, [dflt] for a field that is absent. *)
Definition text_field (task : task_dict) (k dflt : string) : string :=
  match task !! k with
  | Some v => str_value v
  | None => dflt
  end.

(** The paths [execute_tasks] hands to the method of a task whose paths are
    strings. *)
Definition task_source (self : TaskExecutor.t) (task : task_dict) : string :=
  os_path_join (TaskExecutor.base_dir self) (text_field task "source" "").

Definition task_destination (self : TaskExecutor.t) (task : task_dict) : option string :=
  option_map (λ d, os_path_join (TaskExecutor.base_dir self) (str_value d))
    (task !! "destination").

(** The line the runner logs for a task whose method raised [e]. *)
Definition task_error (self : TaskExecutor.t) (task : task_dict) (e : exception) : event :=
  Log ERROR ("Error during " +:+ fmt_value (task !! "action") +:+ " task for "
             +:+ task_source self task +:+ ": " +:+ str_exception e).

(** The commands of the repository provisioner. *)
Definition clone_command (branch url destination : string) : list string :=
  ["git"; "clone"; "--branch"; branch; "--single-branch"; url; destination].

Definition pull_command (destination : string) : list string :=
  ["git"; "-C"; destination; "pull"].

Definition submodule_command (destination : string) (recursive : bool) : list string :=
  ["git"; "-C"; destination; "submodule"; "update"; "--init"]
  ++ (if recursive then ["--recursive"] else []).

Definition is_clone (s : act) : bool :=
  match s with
  | Spawn argv _ => bool_decide (take 2 argv = ["git"; "clone"])
  | Did _ => false
  end.

Definition is_submodule_update (s : act) : bool :=
  match s with
  | Spawn argv _ =>
      bool_decide (take 2 argv = ["git"; "-C"])
      && bool_decide (argv !! 3%nat = Some "submodule")
  | Did _ => false
  end.

(** The debug lines of a command that succeeded. *)
Definition command_output (argv : list string) (stdout stderr : string) : list act :=
  (if truthy stdout
   then [Did (Log DEBUG ("CMDDBG:" +:+ join_words argv +:+ newline +:+ stdout))] else [])
  ++ (if truthy stderr
      then [Did (Log DEBUG ("CMDERR:" +:+ join_words argv +:+ newline +:+ stderr))] else []).

(** A command that ran and exited with a non-zero status. *)
Definition failed (s : act) : bool :=
  match s with
  | Spawn _ (Completed returncode _ _) => negb (bool_decide (returncode = 0))
  | _ => false
  end.

Definition quiet (steps : list act) : Prop := Forall (λ s, failed s = false) steps.

(** Either no command failed, or one did, the run exited with 1 and all it
    did afterwards was to log the failure. *)
Definition stops {A} (r : outcome A * state * list act) : Prop :=
  quiet r.2
  ∨ (r.1.1 = Exited 1
     ∧ ∃ pre argv returncode stdout stderr,
         r.2 = pre ++ [Spawn argv (Completed returncode stdout stderr);
                       Did (Log ERROR ("Error running command: " +:+ join_words argv))]
         ∧ returncode ≠ 0 ∧ quiet pre).

(** Every step is other than a submodule command, or exactly one is a
    submodule command and it is [argv]. *)
Definition at_most_one (argv : list string) (steps : list act) : Prop :=
  Forall (λ s, is_submodule_update s = false) steps
  ∨ ∃ pre r post,
      steps = pre ++ Spawn argv r :: post
      ∧ Forall (λ s, is_submodule_update s = false) pre
      ∧ Forall (λ s, is_submodule_update s = false) post.

(** Every step of a computation satisfies [P], in every state. *)
Definition all_steps {A} (P : act → Prop) (m : Proc A) : Prop :=
  ∀ st, Forall P (m st).2.

(** A computation that logs nothing and downloads nothing. *)
Definition silent {A} (m : IO A) : Prop := ∀ st, (m st).2 = [].

(** The command lines a run started, in order. *)
Definition commands (steps : list act) : list (list string) :=
  omap (λ s, match s with Spawn argv _ => Some argv | Did _ => None end) steps.

(** The command lines of a result are a prefix of [expected], and all of
    it when the computation returned. *)
Definition follows {A} (expected : list (list string))
    (r : outcome A * state * list act) : Prop :=
  commands r.2 `prefix_of` expected
  ∧ (∀ a, r.1.1 = Returned a → commands r.2 = expected).

Definition is_command (s : act) : bool :=
  match s with Spawn _ _ => true | Did _ => false end.

Definition is_download (s : act) : bool :=
  match s with Did (HttpGet _ _) => true | _ => false end.

Definition is_log (ev : event) : bool :=
  match ev with Log _ _ => true | HttpGet _ _ => false end.

(** The steps are in two parts: no download in the first, no command in
    the second. *)
Definition commands_before_downloads (steps : list act) : Prop :=
  ∃ a b, steps = a ++ b
         ∧ Forall (λ s, is_download s = false) a
         ∧ Forall (λ s, is_command s = false) b.

(** A result that is an exit is an exit with code 1, and its last step is
    an error line. *)
Definition exits_after_an_error {A} (r : outcome A * state * list act) : Prop :=
  ∀ c, r.1.1 = Exited c → c = 1 ∧ ∃ pre msg, r.2 = pre ++ [Did (Log ERROR msg)].

(** A command that could not be started is the last step of the result,
    which raises the exception of the command. *)
Definition start_failure_is_raised {A} (r : outcome A * state * list act) : Prop :=
  ∀ pre argv e post,
    r.2 = pre ++ Spawn argv (NotStarted e) :: post → post = [] ∧ r.1.1 = Raised e.

(** Every event of a computation satisfies [P], in every state. *)
Definition all_events {A} (P : event → Prop) (m : IO A) : Prop :=
  ∀ st, Forall P (m st).2.

(** Neither location is above the other (or the same). *)
Definition apart (p q : loc) : Prop := ¬ p `prefix_of` q ∧ ¬ q `prefix_of` p.

(** [t'] has every directory and every file of [t]: directories may have
    gained entries, files are as they were. *)
Definition extends (t t' : node) : Prop :=
  (∀ q, is_dir t q = true → is_dir t' q = true)
  ∧ (∀ q d m ro, lookup_node t q = Some (File d m ro) → lookup_node t' q = Some (File d m ro)).

(** The entries of a directory; none for a file or for nothing. *)
Definition entries_of (d : option node) : gmap string node :=
  match d with
  | Some (Dir _ es) => es
  | _ => ∅
  end.

(** What a merge copy of the tree [s] leaves where [d] was: the files of
    [s] as they are in [s], the directories of [s] with what [d] had and
    [s] has not. *)
Fixpoint merged (s : node) (d : option node) : node :=
  match s with
  | File data m ro => File data m ro
  | Dir ro es =>
      Dir ro (map_fold (λ name child acc, <[name := merged child (entries_of d !! name)]> acc)
                (entries_of d) es)
  end.

(** The directory can be given a new entry: it is not write-protected, or
    it is yet to be made. *)
Definition takes_entries (d : option node) : bool :=
  match d with
  | Some n => negb (is_readonly n)
  | None => true
  end.

(** The tree [s] can be copied onto [d]: a file of [s] meets nothing, or a
    file that is not write-protected; a directory of [s] meets nothing, or a
    directory; and an entry of [s] that meets nothing comes into a
    directory that is not write-protected. *)
Fixpoint fits (s : node) (d : option node) : bool :=
  match s with
  | File _ _ _ =>
      match d with
      | None => true
      | Some (File _ _ ro) => negb ro
      | Some (Dir _ _) => false
      end
  | Dir _ es =>
      match d with Some (File _ _ _) => false | _ => true end
      && map_fold (λ name child acc,
           (fits child (entries_of d !! name)
            && (bool_decide (is_Some (entries_of d !! name)) || takes_entries d))
           && acc) true es
  end.

(** The tree can be removed entry by entry: a directory in it that holds
    entries is not write-protected. *)
Fixpoint removable (t : node) : bool :=
  match t with
  | File _ _ _ => true
  | Dir ro es =>
      (negb ro || bool_decide (es = ∅))
      && map_fold (λ _ child acc, removable child && acc) true es
  end.

(** What is at [p] can be removed entry by entry. *)
Definition removable_at (t : node) (p : loc) : bool :=
  match lookup_node t p with
  | Some n => removable n
  | None => false
  end.

(** ** A workspace to run the program on *)

Module Sample.

(** An archive library that extracts nothing. *)
Definition no_archive : string → string → state → option exception * node :=
  λ _ _ st, (None, root st).

(** A [git] whose every command succeeds without a word and without a
    trace on the disk, and one that always fails. *)
Definition git_succeeds : list string → state → completed * node :=
  λ _ st, (Completed 0 "" "", root st).

Definition git_fails : list string → state → completed * node :=
  λ _ st, (Completed 128 "" "fatal: repository not found", root st).

(** No network. *)
Definition offline : string → state → response :=
  λ _ _, Failed (RequestException "connection refused").

Definition tree : node :=
  Dir false
    {[ "manifest.yaml" := File "project: ws" 5 false;
       "ws" := Dir false
         {[ "notes.txt" := File "hello" 3 false;
            "locked.txt" := File "keep" 4 true;
            "A" := Dir false {[ "x.txt" := File "x" 1 false;
                                "y.txt" := File "new" 2 false ]};
            "B" := Dir false {[ "y.txt" := File "old" 0 false;
                                "z.txt" := File "z" 0 false ]};
            "edk2" := Dir false {[ ".git" := Dir false ∅ ]} ]} ]}.

Definition st : state := State tree [] 100.

(** Tasks *)
Definition bad_copy : task_dict := {[ "action" := Text "copy"; "source" := Text "A" ]}.
Definition delete_notes : task_dict :=
  {[ "action" := Text "delete"; "source" := Text "notes.txt" ]}.
Definition delete_locked : task_dict :=
  {[ "action" := Text "delete"; "source" := Text "locked.txt" ]}.
Definition unknown_op : task_dict := {[ "action" := Text "unknown-op" ]}.
Definition copy_A_B : task_dict :=
  {[ "action" := Text "copy"; "source" := Text "A"; "destination" := Text "B" ]}.
Definition copy_ghost : task_dict :=
  {[ "action" := Text "copy"; "source" := Text "ghost.txt"; "destination" := Text "B/ghost.txt" ]}.
Definition delete_all : task_dict := {[ "action" := Text "delete" ]}.
(** [source:] with nothing after it, a number for a destination, a list
    for an action *)
Definition null_source : task_dict := {[ "action" := Text "copy"; "source" := null ]}.
Definition numbered : task_dict :=
  {[ "action" := Text "delete"; "source" := Text "notes.txt";
     "destination" := Other "int" "7" true ]}.
Definition listed : task_dict :=
  {[ "action" := Other "list" "['copy']" false; "source" := Text "notes.txt" ]}.

Definition executor (tasks : list task_dict) : TaskExecutor.t :=
  TaskExecutor.__init__ (Entry {[ "name" := "edk2" ]} tasks) "ws".

(** Repository and artifact entries *)
Definition edk2 : entry :=
  Entry {[ "repo" := "edk2"; "url" := "https://example.org/edk2.git";
           "destination" := "edk2"; "submodules" := "recursive" ]} [].

Definition platforms : entry :=
  Entry {[ "repo" := "platforms"; "url" := "https://example.org/platforms.git";
           "destination" := "platforms" ]} [delete_notes].

Definition no_destination : entry :=
  Entry {[ "repo" := "lost"; "url" := "https://example.org/lost.git" ]} [].

Definition toolchain : entry :=
  Entry {[ "name" := "toolchain"; "url" := "https://example.org/gcc.zip" ]} [].

Definition manifest : config := Config (Some "ws") [platforms; edk2] [toolchain].

Definition parse : string → string + document := λ _, inr (Mapping manifest).

End Sample.

(** ** More inputs: protected directories, archives, manifests *)

Module Cases.

(** A zip reader that rejects every archive, and a tar reader that
    accepts every archive and extracts nothing. *)
Definition broken_zip : string → string → state → option exception * node :=
  λ _ _ st, (Some (ArchiveError "File is not a zip file"), root st).

Definition empty_tar : string → string → state → option exception * node :=
  λ _ _ st, (None, root st).

(** No [git] to run. *)
Definition git_missing : list string → state → completed * node :=
  λ _ st, (NotStarted (OSError ENOENT "git"), root st).

(** A server that answers every request, and one that knows no url. *)
Definition online : string → state → response :=
  λ _ _, Response 200 "PK-data".

Definition not_found : string → state → response :=
  λ _ _, Response 404 "".

Definition tree : node :=
  Dir false
    {[ "bad.yaml" := File ":" 1 false;
       "bare.yaml" := File "repositories: []" 1 false;
       "void.yaml" := File "" 1 false;
       "empty.yaml" := File "project: build" 1 false;
       "full.yaml" := File "project: ws" 1 false;
       "etc" := Dir false {[ "hosts" := File "localhost" 1 false ]};
       "ws" := Dir false
         {[ "readme.md" := File "read me" 7 false;
            "pkg.zip" := File "PK" 8 false;
            "pkg.tar.gz" := File "gz" 9 false;
            "docs" := Dir false ∅;
            "edk2" := Dir false {[ ".git" := Dir false ∅ ]};
            "cache" := Dir false
              {[ "pack" := File "p" 1 true;
                 "objects" := Dir false {[ "idx" := File "i" 2 true ]};
                 "hooks" := Dir true ∅ ]};
            "vault" := Dir true
              {[ "a.txt" := File "a" 1 true;
                 "sub" := Dir true {[ "b.txt" := File "b" 2 true ]} ]} ]} ]}.

Definition st : state := State tree [] 50.

Definition executor : TaskExecutor.t :=
  TaskExecutor.__init__ (Entry {[ "name" := "edk2" ]} []) "ws".

Definition expand_pkg : task_dict :=
  {[ "action" := Text "expand"; "source" := Text "pkg.zip" ]}.
Definition delete_hosts : task_dict :=
  {[ "action" := Text "delete"; "source" := Text "/etc/hosts" ]}.
Definition delete_vault : task_dict :=
  {[ "action" := Text "delete"; "source" := Text "vault" ]}.
Definition copy_nowhere : task_dict :=
  {[ "action" := Text "copy"; "source" := Text "readme.md" ]}.
Definition delete_vault_file : task_dict :=
  {[ "action" := Text "delete"; "source" := Text "vault/a.txt" ]}.

(** Entries *)
Definition pinned : entry :=
  Entry {[ "repo" := "edk2"; "url" := "https://example.org/edk2.git";
           "destination" := "edk2"; "commit" := "abc123";
           "submodules" := "recursive" ]} [].

Definition no_url : entry :=
  Entry {[ "repo" := "nameless"; "destination" := "nameless" ]} [].

Definition gcc : entry :=
  Entry {[ "name" := "gcc"; "url" := "https://example.org/gcc.zip";
           "destination" := "tools/gcc.zip" ]} [].

Definition no_url_artifact : entry := Entry {[ "name" := "lost" ]} [].

Definition full : config := Config (Some "ws") [pinned] [gcc].

Definition parse (text : string) : string + document :=
  if bool_decide (text = ":") then inl "mapping values are not allowed here"
  else if bool_decide (text = "") then inr (NotMapping "NoneType")
  else if bool_decide (text = "project: build") then inr (Mapping (Config (Some "build") [] []))
  else if bool_decide (text = "project: ws") then inr (Mapping full)
  else inr (Mapping (Config None [] [])).

End Cases.

(** ** Path strings *)

Example join_rel : os_path_join "out" "lib/x.txt" = "out/lib/x.txt".
Proof. reflexivity. Qed.
Example join_abs : os_path_join "out" "/etc" = "/etc".
Proof. reflexivity. Qed.
Example join_empty : os_path_join "out" "" = "out/".
Proof. reflexivity. Qed.
Example join_slash : os_path_join "out/" "a" = "out/a".
Proof. reflexivity. Qed.
Example dirname_file : os_path_dirname "out/a/b.txt" = "out/a".
Proof. reflexivity. Qed.
Example dirname_trailing : os_path_dirname "out/" = "out".
Proof. reflexivity. Qed.
Example dirname_bare : os_path_dirname "b.txt" = "".
Proof. reflexivity. Qed.
Example dirname_root : os_path_dirname "/b.txt" = "/".
Proof. reflexivity. Qed.
Example basename_file : os_path_basename "out/a/b.txt" = "b.txt".
Proof. reflexivity. Qed.
Example endswith_zip : endswith "a/b.zip" ".zip" = true.
Proof. reflexivity. Qed.
Example split_trailing : split_slash "a//b/" = ["a"; ""; "b"; ""].
Proof. reflexivity. Qed.

(** * Properties *)

(** ** The file system: lookups after an update *)

Lemma lookup_put_node_eq t p o n :
  lookup_node t p = Some n → p ≠ [] → lookup_node (put_node t p o) p = o.
Proof.
  revert t. induction p as [|c p IH]; intros t Hl Hne; [done|].
  destruct t as [|ro es]; [done|]. simpl in Hl.
  destruct (es !! c) as [t'|] eqn:E; [simpl in Hl|done].
  destruct p as [|c' p'].
  - simpl. rewrite lookup_partial_alter_eq. by destruct o.
  - change (lookup_node (Dir ro (alter (λ t', put_node t' (c' :: p') o) c es)) (c :: c' :: p') = o).
    simpl. rewrite lookup_alter_eq, E. simpl. by apply IH.
Qed.

(** The location a successful walk ends at is fixed by the components. *)
Lemma walk_loc t cur cs p : walk t cur cs = Some p → p = foldl step cur cs.
Proof.
  revert cur. induction cs as [|c cs IH]; intros cur; simpl.
  - by intros [= <-].
  - destruct (is_dir t cur); [apply IH|done].
Qed.

Lemma locate_inj st st' s p p' :
  cwd st = cwd st' → locate st s = Some p → locate st' s = Some p' → p = p'.
Proof.
  unfold locate, start. intros Hc. rewrite Hc.
  destruct (truthy s); [|done].
  intros ->%walk_loc ->%walk_loc. done.
Qed.

Lemma split_slash_cons s : ∃ w ws, split_slash s = w :: ws.
Proof.
  destruct s as [|c s]; simpl; [by eexists _, _|].
  case_bool_decide; [by eexists _, _|].
  destruct (split_slash s); by eexists _, _.
Qed.

Lemma is_dir_root t q : is_dir t q = true → is_dir t [] = true.
Proof. destruct q; [done|]. by destruct t. Qed.

(** A path resolves only in a tree whose root is a directory. *)
Lemma locate_root_dir st s p : locate st s = Some p → is_dir (root st) [] = true.
Proof.
  unfold locate, components. destruct (truthy s); [|done].
  destruct (split_slash_cons s) as (w & ws & ->). simpl.
  destruct (is_dir (root st) (start st s)) eqn:E; [|done].
  intros _. by eapply is_dir_root.
Qed.

Lemma locate_file_not_root st s p d m ro :
  locate st s = Some p → lookup_node (root st) p = Some (File d m ro) → p ≠ [].
Proof.
  intros Hp Hl ->. apply locate_root_dir in Hp. unfold is_dir in Hp.
  by rewrite Hl in Hp.
Qed.

(** ** The monad *)

Lemma io_bind_assoc {A B C} (m : IO A) (k1 : A → IO B) (k2 : B → IO C) st :
  io_bind (io_bind m k1) k2 st = io_bind m (λ a, io_bind (k1 a) k2) st.
Proof.
  unfold io_bind. destruct (m st) as [[[e|a] st1] evs1]; [done|].
  destruct (k1 a st1) as [[[e|b] st2] evs2]; [done|].
  destruct (k2 b st2) as [[r st3] evs3]. by rewrite app_assoc.
Qed.

Lemma io_bind_ext {A B} (m : IO A) (k k' : A → IO B) st :
  (∀ a st', k a st' = k' a st') → io_bind m k st = io_bind m k' st.
Proof.
  intros H. unfold io_bind. destruct (m st) as [[[e|a] st1] evs1]; [done|].
  by rewrite H.
Qed.

Lemma io_ret_bind {A B} (a : A) (k : A → IO B) st : io_bind (io_ret a) k st = k a st.
Proof. unfold io_bind, io_ret. by destruct (k a st) as [[r st'] evs]. Qed.

Lemma prefixed_nil {A} (r : (exception + A) * state * list event) : prefixed [] r = r.
Proof. by destruct r as [[]]. Qed.

Lemma io_bind_prefixed {A B} (m : IO A) (k : A → IO B) st a st' evs :
  m st = (inr a, st', evs) → io_bind m k st = prefixed evs (k a st').
Proof. intros H. unfold io_bind, prefixed. rewrite H. by destruct (k a st') as [[]]. Qed.

Lemma io_bind_raised {A B} (m : IO A) (k : A → IO B) st e st' evs :
  m st = (inl e, st', evs) → io_bind m k st = (inl e, st', evs).
Proof. intros H. unfold io_bind. by rewrite H. Qed.

Lemma get_state_bind {B} (k : state → IO B) st : io_bind get_state k st = k st st.
Proof. by rewrite (io_bind_prefixed _ _ _ st st []), prefixed_nil. Qed.

Lemma emit_bind {B} ev (k : unit → IO B) st :
  io_bind (emit ev) k st = prefixed [ev] (k tt st).
Proof. by apply io_bind_prefixed. Qed.

Lemma raise_bind {A B} e (k : A → IO B) st : io_bind (raise e) k st = (inl e, st, []).
Proof. by apply io_bind_raised. Qed.

Lemma set_root_bind {B} t (k : unit → IO B) st :
  io_bind (set_root t) k st = k tt (State t (cwd st) (clock st)).
Proof. by rewrite (io_bind_prefixed _ _ _ tt (State t (cwd st) (clock st)) []), prefixed_nil. Qed.

Lemma tick_bind {B} (k : Z → IO B) st :
  io_bind tick k st = k (clock st) (State (root st) (cwd st) (clock st + 1)).
Proof.
  by rewrite (io_bind_prefixed _ _ _ (clock st) (State (root st) (cwd st) (clock st + 1)) []),
    prefixed_nil.
Qed.

(** *** Computations that log nothing *)

Lemma silent_bind {A B} (m : IO A) (k : A → IO B) :
  silent m → (∀ a, silent (k a)) → silent (io_bind m k).
Proof.
  intros Hm Hk st. specialize (Hm st). unfold io_bind.
  destruct (m st) as [[[e|a] st'] evs]; simpl in *; [done|].
  specialize (Hk a st'). destruct (k a st') as [[r st''] evs']. simpl in *.
  by subst.
Qed.

Lemma silent_ret {A} (a : A) : silent (io_ret a).
Proof. done. Qed.
Lemma silent_raise {A} e : silent (raise (A:=A) e).
Proof. done. Qed.
Lemma silent_get_state : silent get_state.
Proof. done. Qed.
Lemma silent_set_root t : silent (set_root t).
Proof. done. Qed.
Lemma silent_tick : silent tick.
Proof. done. Qed.

Lemma silent_try_except {A} c (m : IO A) h :
  silent m → (∀ e, silent (h e)) → silent (try_except c m h).
Proof.
  intros Hm Hh st. specialize (Hm st). unfold try_except.
  destruct (m st) as [[[e|a] st'] evs]; simpl in *; [|done].
  destruct (c e); [|done]. specialize (Hh e st').
  destruct (h e st') as [[r st''] evs']. simpl in *. by subst.
Qed.

Ltac silent_tac :=
  repeat first
    [ apply silent_ret | apply silent_raise | apply silent_get_state
    | apply silent_set_root | apply silent_tick
    | apply silent_bind; [|intros ?] | apply silent_try_except; [|intros ?]
    | case_match | assumption ].

Lemma silent_os_mkdir_at p : silent (os_mkdir_at p).
Proof. unfold os_mkdir_at. silent_tac. Qed.

Lemma silent_mkwalk cs cur : silent (mkwalk cur cs).
Proof.
  revert cur. induction cs as [|c cs IH]; intros cur; simpl; [apply silent_ret|].
  apply silent_bind; [apply silent_get_state|]. intros st.
  repeat case_match; try apply silent_raise; try apply IH.
  apply silent_bind; [apply silent_os_mkdir_at|]. intros _. apply IH.
Qed.

Lemma silent_os_makedirs s : silent (os_makedirs s).
Proof.
  unfold os_makedirs, makedirs_from. case_match; [|apply silent_raise].
  silent_tac; apply silent_mkwalk.
Qed.

(** Symbolic execution of a computation, one primitive at a time. *)
Ltac io_step :=
  first [ rewrite io_bind_assoc | rewrite io_ret_bind | rewrite get_state_bind
        | rewrite emit_bind | rewrite raise_bind | rewrite set_root_bind
        | rewrite tick_bind | progress cbv beta ].
Ltac io_steps := repeat io_step.
Tactic Notation "io_run" "with" tactic3(tac) :=
  repeat first [ io_step | progress tac | progress cbv beta iota ].

(** A sequence that returns: both parts returned. *)
Lemma io_bind_inv {A B} (m : IO A) (k : A → IO B) st b st2 evs :
  io_bind m k st = (inr b, st2, evs) →
  ∃ a st1 evs1 evs2,
    m st = (inr a, st1, evs1) ∧ k a st1 = (inr b, st2, evs2) ∧ evs = evs1 ++ evs2.
Proof.
  unfold io_bind. destruct (m st) as [[[e|a] st1] evs1]; [done|].
  destruct (k a st1) as [[r st'] evs2] eqn:E. intros [= -> -> <-].
  by exists a, st1, evs1, evs2.
Qed.

Lemma for_each_ext {A} (l : list A) (body body' : A → IO unit) st :
  (∀ x st', body x st' = body' x st') →
  TaskExecutor.for_each l body st = TaskExecutor.for_each l body' st.
Proof.
  intros H. revert st. induction l as [|x l IH]; intros st; simpl; [done|].
  unfold io_bind. rewrite H. destruct (body' x st) as [[[e|[]] st1] evs1]; [done|].
  by rewrite IH.
Qed.

Lemma for_each_app {A} (l1 l2 : list A) body st :
  TaskExecutor.for_each (l1 ++ l2) body st
  = (TaskExecutor.for_each l1 body ;; TaskExecutor.for_each l2 body) st.
Proof.
  revert st. induction l1 as [|x l1 IH]; intros st; simpl.
  - by rewrite io_ret_bind.
  - rewrite io_bind_assoc. apply io_bind_ext. intros _ st'. apply IH.
Qed.

(** ** The task runner *)

Section task_runner.

Variable zip_extractall : string → string → state → option exception * node.
Variable tar_extractall : string → string → state → option exception * node.

Local Arguments String.append : simpl never.

Local Abbreviation _copy := (TaskExecutor._copy).
Local Abbreviation _delete := (TaskExecutor._delete).
Local Abbreviation _expand := (TaskExecutor._expand zip_extractall tar_extractall).
Local Abbreviation action_map := (TaskExecutor.action_map zip_extractall tar_extractall).
Local Abbreviation execute_task := (TaskExecutor.execute_task zip_extractall tar_extractall).
Local Abbreviation execute_tasks := (TaskExecutor.execute_tasks zip_extractall tar_extractall).
Local Abbreviation for_each := (TaskExecutor.for_each).

Lemma action_map_lookup self a :
  action_map self !! a =
    if decide (a = "copy") then Some (_copy self)
    else if decide (a = "delete") then Some (_delete self)
    else if decide (a = "expand") then Some (_expand self)
    else None.
Proof.
  unfold TaskExecutor.action_map.
  rewrite !lookup_insert, lookup_singleton.
  repeat case_decide; congruence.
Qed.

(** The joins of a task whose paths are strings return the paths. *)
Lemma task_paths self (task : task_dict) {A} (k : string → option string → IO A) st :
  paths_are_text task = true →
  (source <- os_path_join_value (TaskExecutor.base_dir self)
               (default (Text "") (task !! "source")) ;;
   destination <-
     match task !! "destination" with
     | Some d => d <- os_path_join_value (TaskExecutor.base_dir self) d ;; io_ret (Some d)
     | None => io_ret None
     end ;;
   k source destination) st
  = k (task_source self task) (task_destination self task) st.
Proof.
  unfold paths_are_text, task_source, task_destination, text_field.
  intros [Hs Hd]%andb_true_iff.
  destruct (task !! "source") as [[s|]|]; [|done|];
    (destruct (task !! "destination") as [[d|]|]; [|done|]);
    cbn [default from_option option_map str_value]; unfold id;
    cbn [os_path_join_value]; by io_steps.
Qed.

(** A task with a known action: the method is called on the resolved paths
    inside [try ... except Exception]. *)
Lemma execute_task_known self (task : task_dict) a f st :
  task !! "action" = Some (Text a) →
  action_map self !! a = Some f →
  paths_are_text task = true →
  execute_task self task st =
    try_except Exception (f (task_source self task) (task_destination self task))
      (λ e, emit (task_error self task e)) st.
Proof.
  intros Ha Hf Ht. unfold TaskExecutor.execute_task, TaskExecutor.lookup_action.
  rewrite Ha, Hf, io_ret_bind. cbn [TaskExecutor.truthy_handler].
  rewrite (task_paths self task _ st Ht).
  unfold task_error, TaskExecutor.call. by rewrite Ha.
Qed.

(** Any other task whose action can be looked up: the default of the
    lookup, a string, is "called". *)
Lemma execute_task_unknown self (task : task_dict) st :
  (∀ a, task !! "action" = Some (Text a) → a ≠ "copy" ∧ a ≠ "delete" ∧ a ≠ "expand") →
  action_is_hashable task = true →
  paths_are_text task = true →
  execute_task self task st =
    (inr tt, st, [task_error self task (TypeError "'str' object is not callable")]).
Proof.
  intros Ha Hh Ht. unfold TaskExecutor.execute_task.
  assert (TaskExecutor.lookup_action zip_extractall tar_extractall self (task !! "action")
          = io_ret (TaskExecutor.Str "unknown")) as ->.
  { unfold TaskExecutor.lookup_action, action_is_hashable in *.
    destruct (task !! "action") as [[a|c shown h]|]; [|by subst|done].
    destruct (Ha a eq_refl) as (? & ? & ?). rewrite action_map_lookup. by repeat case_decide. }
  rewrite io_ret_bind.
  assert (TaskExecutor.truthy_handler (TaskExecutor.Str "unknown") = true) as -> by done.
  by rewrite (task_paths self task _ st Ht).
Qed.

Lemma execute_task_returns self task st :
  paths_are_text task = true → action_is_hashable task = true →
  ∃ st' evs, execute_task self task st = (inr tt, st', evs).
Proof.
  intros Ht Hh. unfold action_is_hashable in Hh.
  destruct (task !! "action") as [[a|c shown h]|] eqn:Ha.
  - destruct (action_map self !! a) as [f|] eqn:Hf.
    + rewrite (execute_task_known _ _ _ _ _ Ha Hf Ht).
      unfold try_except, Exception.
      destruct (f _ _ st) as [[[e|[]] st1] evs1]; simpl; eauto.
    + rewrite execute_task_unknown; [eauto| | |done].
      * intros a' Ha'. rewrite Ha in Ha'. injection Ha' as <-.
        rewrite action_map_lookup in Hf. by repeat case_decide.
      * unfold action_is_hashable. by rewrite Ha.
  - rewrite execute_task_unknown; [eauto| | |done].
    + intros a' Ha'. by rewrite Ha in Ha'.
    + unfold action_is_hashable. by rewrite Ha.
  - rewrite execute_task_unknown; [eauto| | |done].
    + intros a' Ha'. by rewrite Ha in Ha'.
    + unfold action_is_hashable. by rewrite Ha.
Qed.

Lemma for_each_returns self l st :
  Forall (λ task, well_typed task = true) l →
  ∃ st' evs, for_each l (execute_task self) st = (inr tt, st', evs).
Proof.
  intros Hl. revert st.
  induction Hl as [|task l [Ht Hh]%andb_true_iff _ IH]; intros st; simpl.
  - by eexists _, _.
  - unfold io_bind.
    destruct (execute_task_returns self task st Ht Hh) as (st1 & evs1 & ->).
    destruct (IH st1) as (st2 & evs2 & ->). eauto.
Qed.

(** A method that raises: the error is logged and the task returns. *)
Lemma execute_task_raised self (task : task_dict) a f st e st' evs :
  task !! "action" = Some (Text a) →
  action_map self !! a = Some f →
  paths_are_text task = true →
  f (task_source self task) (task_destination self task) st = (inl e, st', evs) →
  execute_task self task st = (inr tt, st', evs ++ [task_error self task e]).
Proof.
  intros Ha Hf Ht Hr. rewrite (execute_task_known _ _ _ _ _ Ha Hf Ht).
  unfold try_except. by rewrite Hr.
Qed.

(** *** The methods on the simple path states *)

Lemma _copy_no_destination self source destination st :
  truthy_opt destination = false →
  _copy self source destination st =
    (inr tt, st,
     [Log ERROR ("Destination not specified for copy action in "
                 +:+ get_default (scalars (TaskExecutor.repo self)) "name" "unknown")]).
Proof. intros H. unfold TaskExecutor._copy. by rewrite H. Qed.

Lemma _delete_missing self source destination st :
  isdir_path st source = false → isfile_path st source = false →
  _delete self source destination st =
    (inr tt, st,
     [Log INFO ("Deleting " +:+ source +:+ "...");
      Log WARNING ("Path " +:+ source +:+ " does not exist.")]).
Proof.
  intros Hd Hf.
  unfold TaskExecutor._delete, os_path_isdir, os_path_isfile, logging_info.
  io_steps. rewrite Hd. io_steps. by rewrite Hf.
Qed.

(** A file goes, write-protected or not, when its directory lets it. *)
Lemma _delete_file self source destination st p d m ro :
  locate st source = Some p →
  lookup_node (root st) p = Some (File d m ro) →
  writable_dir (root st) (removelast p) = true →
  _delete self source destination st =
    (inr tt, State (put_node (root st) p None) (cwd st) (clock st),
     [Log INFO ("Deleting " +:+ source +:+ "...")]).
Proof.
  intros Hp Hl Hw. pose proof (locate_file_not_root _ _ _ _ _ _ Hp Hl) as Hne.
  unfold TaskExecutor._delete, os_path_isdir, os_path_isfile, logging_info,
    isdir_path, isfile_path, is_dir, is_file, os_remove, os_unlink_at.
  io_run with (rewrite ?Hp, ?Hl). rewrite bool_decide_false by done.
  io_run with (rewrite ?Hw). done.
Qed.

(** A file in a write-protected directory stays: [os.remove] is refused,
    and [_delete] has no handler on this branch. *)
Lemma _delete_file_refused self source destination st p d m ro :
  locate st source = Some p →
  lookup_node (root st) p = Some (File d m ro) →
  writable_dir (root st) (removelast p) = false →
  _delete self source destination st =
    (inl (OSError EACCES (show_loc p)), st,
     [Log INFO ("Deleting " +:+ source +:+ "...")]).
Proof.
  intros Hp Hl Hw. pose proof (locate_file_not_root _ _ _ _ _ _ Hp Hl) as Hne.
  unfold TaskExecutor._delete, os_path_isdir, os_path_isfile, logging_info,
    isdir_path, isfile_path, is_dir, is_file, os_remove, os_unlink_at.
  io_run with (rewrite ?Hp, ?Hl). rewrite bool_decide_false by done.
  io_run with (rewrite ?Hw). done.
Qed.

Lemma exists_path_removed st s p n :
  locate st s = Some p → lookup_node (root st) p = Some n → p ≠ [] →
  exists_path (State (put_node (root st) p None) (cwd st) (clock st)) s = false.
Proof.
  intros Hp Hl Hne. unfold exists_path.
  set (st' := State _ _ _).
  destruct (locate st' s) as [p'|] eqn:Hp'; [|done].
  assert (p = p') as <- by (by eapply (locate_inj st st')).
  simpl. rewrite (lookup_put_node_eq _ _ _ _ Hl Hne).
  apply bool_decide_false. by intros [? ?].
Qed.

(** *** Claims on the task runner *)

(** C1 (for task lists that are well typed). [execute_tasks] never raises
    to its caller for a task list in which every task gives a string, or
    nothing, for its source and its destination, and an action that can be
    hashed.  (The lookups and the joins of a task come before the [try]: a
    null source raises there, out of [execute_tasks].)
    When the method of a task (copy, delete or expand) raises, the failure
    is caught and logged as an error and the tasks after it are executed,
    from the state the failed task left.  For the list [bad copy (no
    destination); delete (existing file)] the first task logs an error and
    the second removes the file, from a directory that is not
    write-protected. *)
Theorem execute_tasks_never_raises (self : TaskExecutor.t) :
  (Forall (λ task, well_typed task = true) (TaskExecutor.tasks self) →
   ∀ st, ∃ st' evs, execute_tasks self st = (inr tt, st', evs))
  ∧ (∀ before (task : task_dict) after a f st st1 evs1 e st2 evs2,
       TaskExecutor.tasks self = before ++ task :: after →
       task !! "action" = Some (Text a) →
       action_map self !! a = Some f →
       paths_are_text task = true →
       Forall (λ task, well_typed task = true) after →
       for_each before (execute_task self) st = (inr tt, st1, evs1) →
       f (task_source self task) (task_destination self task) st1 = (inl e, st2, evs2) →
       ∃ st3 evs3,
         for_each after (execute_task self) st2 = (inr tt, st3, evs3)
         ∧ execute_tasks self st
           = (inr tt, st3, evs1 ++ evs2 ++ task_error self task e :: evs3))
  ∧ (∀ (bad_copy delete : task_dict) st p d m ro,
       TaskExecutor.tasks self = [bad_copy; delete] →
       bad_copy !! "action" = Some (Text "copy") →
       bad_copy !! "destination" = None →
       paths_are_text bad_copy = true →
       delete !! "action" = Some (Text "delete") →
       paths_are_text delete = true →
       locate st (task_source self delete) = Some p →
       lookup_node (root st) p = Some (File d m ro) →
       writable_dir (root st) (removelast p) = true →
       ∃ st',
         execute_tasks self st
         = (inr tt, st',
            [Log ERROR ("Destination not specified for copy action in "
                        +:+ get_default (scalars (TaskExecutor.repo self)) "name" "unknown");
             Log INFO ("Deleting " +:+ task_source self delete +:+ "...")])
         ∧ exists_path st' (task_source self delete) = false).
Proof.
  split; [|split].
  - intros Hl st. by apply for_each_returns.
  - intros before task after a f st st1 evs1 e st2 evs2 Hts Ha Hf Ht Hl Hb Hr.
    destruct (for_each_returns self after st2 Hl) as (st3 & evs3 & Hafter).
    exists st3, evs3. split; [done|].
    unfold TaskExecutor.execute_tasks. rewrite Hts, for_each_app.
    rewrite (io_bind_prefixed _ _ _ _ _ _ Hb). simpl.
    rewrite (io_bind_prefixed _ _ _ _ _ _ (execute_task_raised _ _ _ _ _ _ _ _ Ha Hf Ht Hr)).
    rewrite Hafter. unfold prefixed. simpl. by rewrite <-!app_assoc.
  - intros bad_copy delete st p d m ro Hts Hc Hnd Htc Hdel Htd Hp Hl Hw.
    eexists. split.
    + unfold TaskExecutor.execute_tasks. rewrite Hts. simpl.
      assert (action_map self !! "copy" = Some (_copy self)) as Hmc
        by (by rewrite action_map_lookup).
      assert (action_map self !! "delete" = Some (_delete self)) as Hmd
        by (by rewrite action_map_lookup).
      erewrite io_bind_prefixed; last first.
      { rewrite (execute_task_known _ _ _ _ _ Hc Hmc Htc). unfold try_except.
        rewrite _copy_no_destination; [done|]. unfold task_destination. by rewrite Hnd. }
      erewrite io_bind_prefixed; last first.
      { rewrite (execute_task_known _ _ _ _ _ Hdel Hmd Htd). unfold try_except.
        by erewrite _delete_file. }
      reflexivity.
    + apply (exists_path_removed st _ p _ Hp Hl).
      by eapply locate_file_not_root.
Qed.

(** C2 (the code departs from the claim). A task whose action is none of
    copy, delete and expand is not skipped with a warning: the default of
    the lookup, the string ['unknown'], is truthy, the runner calls it, and
    the [TypeError] is logged as an error.  The state is unchanged and the
    task returns. *)
Theorem unknown_action_is_logged_as_error (self : TaskExecutor.t) (task : task_dict) st :
  (∀ a, task !! "action" = Some (Text a) → a ≠ "copy" ∧ a ≠ "delete" ∧ a ≠ "expand") →
  well_typed task = true →
  ∃ msg,
    execute_task self task st = (inr tt, st, [Log ERROR msg])
    ∧ msg = "Error during " +:+ fmt_value (task !! "action") +:+ " task for "
            +:+ task_source self task +:+ ": 'str' object is not callable".
Proof.
  intros Ha [Ht Hh]%andb_true_iff. eexists. split; [|done].
  by apply execute_task_unknown.
Qed.

End task_runner.

(** ** Code that can end the process *)

Lemma proc_prefixed_nil {A} (r : outcome A * state * list act) : proc_prefixed [] r = r.
Proof. by destruct r as [[]]. Qed.

Lemma proc_bind_returned {A B} (m : Proc A) (k : A → Proc B) st a st' evs :
  m st = (Returned a, st', evs) → proc_bind m k st = proc_prefixed evs (k a st').
Proof.
  intros H. unfold proc_bind, proc_prefixed. rewrite H. by destruct (k a st') as [[]].
Qed.

Lemma proc_bind_raised {A B} (m : Proc A) (k : A → Proc B) st e st' evs :
  m st = (Raised e, st', evs) → proc_bind m k st = (Raised e, st', evs).
Proof. intros H. unfold proc_bind. by rewrite H. Qed.

Lemma proc_bind_exited {A B} (m : Proc A) (k : A → Proc B) st c st' evs :
  m st = (Exited c, st', evs) → proc_bind m k st = (Exited c, st', evs).
Proof. intros H. unfold proc_bind. by rewrite H. Qed.

Lemma lift_returned {A} (m : IO A) st a st' evs :
  m st = (inr a, st', evs) → lift m st = (Returned a, st', Did <$> evs).
Proof. intros H. unfold lift. by rewrite H. Qed.

Lemma lift_raised {A} (m : IO A) st e st' evs :
  m st = (inl e, st', evs) → lift (A:=A) m st = (Raised e, st', Did <$> evs).
Proof. intros H. unfold lift. by rewrite H. Qed.

Lemma lift_returned_inv {A} (m : IO A) st a st' steps :
  lift m st = (Returned a, st', steps) →
  ∃ evs, m st = (inr a, st', evs) ∧ steps = Did <$> evs.
Proof.
  unfold lift. destruct (m st) as [[[e|a'] st1] evs]; [done|].
  intros [= -> -> <-]. by exists evs.
Qed.

Lemma lift_emit_bind {B} ev (k : unit → Proc B) st :
  proc_bind (lift (emit ev)) k st = proc_prefixed [Did ev] (k tt st).
Proof. by apply proc_bind_returned. Qed.

Lemma proc_ret_bind {A B} (a : A) (k : A → Proc B) st : proc_bind (proc_ret a) k st = k a st.
Proof. by rewrite (proc_bind_returned _ _ _ a st []), proc_prefixed_nil. Qed.

Lemma proc_bind_assoc {A B C} (m : Proc A) (k1 : A → Proc B) (k2 : B → Proc C) st :
  proc_bind (proc_bind m k1) k2 st = proc_bind m (λ a, proc_bind (k1 a) k2) st.
Proof.
  unfold proc_bind. destruct (m st) as [[[a|e|c] st1] evs1]; [|done..].
  destruct (k1 a st1) as [[[b|e|c] st2] evs2]; [|done..].
  destruct (k2 b st2) as [[r st3] evs3]. by rewrite app_assoc.
Qed.

Lemma lift_bind_returned {A B} (m : IO A) (k : A → Proc B) st a st' evs :
  m st = (inr a, st', evs) →
  proc_bind (lift m) k st = proc_prefixed (Did <$> evs) (k a st').
Proof. intros H. apply proc_bind_returned. by apply lift_returned. Qed.

Lemma lift_bind_raised {A B} (m : IO A) (k : A → Proc B) st e st' evs :
  m st = (inl e, st', evs) →
  proc_bind (lift m) k st = (Raised e, st', Did <$> evs).
Proof. intros H. apply proc_bind_raised. by apply lift_raised. Qed.

(** *** No command fails unseen *)

Lemma quiet_app l1 l2 : quiet (l1 ++ l2) ↔ quiet l1 ∧ quiet l2.
Proof. apply Forall_app. Qed.

Lemma quiet_did evs : quiet (Did <$> evs).
Proof. apply Forall_fmap, Forall_true. done. Qed.

Lemma stops_quiet {A} (r : outcome A * state * list act) : quiet r.2 → stops r.
Proof. by left. Qed.

Lemma stops_returned {A} (a : A) st evs : stops (Returned a, st, evs) → quiet evs.
Proof. intros [H|[H _]]; [done|discriminate H]. Qed.

Lemma stops_prefixed {A} evs (r : outcome A * state * list act) :
  quiet evs → stops r → stops (proc_prefixed evs r).
Proof.
  intros Hq [Hr|(Hx & pre & argv & rc & o & e & Hsteps & Hrc & Hpre)].
  - left. by apply quiet_app.
  - right. split; [done|]. exists (evs ++ pre), argv, rc, o, e.
    simpl. rewrite Hsteps, app_assoc. split_and!; [done..|]. by apply quiet_app.
Qed.

Lemma stops_bind {A B} (m : Proc A) (k : A → Proc B) st :
  stops (m st) → (∀ a st', stops (k a st')) → stops (proc_bind m k st).
Proof.
  intros Hm Hk. destruct (m st) as [[[a|e|c] st'] evs] eqn:E.
  - rewrite (proc_bind_returned _ _ _ _ _ _ E).
    apply stops_prefixed; [by eapply stops_returned|done].
  - rewrite (proc_bind_raised _ _ _ _ _ _ E).
    destruct Hm as [Hq|[Hx _]]; [by left|discriminate Hx].
  - rewrite (proc_bind_exited _ _ _ _ _ _ E).
    destruct Hm as [Hq|[Hx Hs]]; [by left|right].
    split; [|done]. simpl in *. by injection Hx as ->.
Qed.

Lemma stops_lift {A} (m : IO A) st : stops (lift m st).
Proof.
  apply stops_quiet. unfold lift.
  destruct (m st) as [[[e|a] st'] evs]; apply quiet_did.
Qed.

Lemma stops_ret {A} (a : A) st : stops (proc_ret a st).
Proof. apply stops_quiet. constructor. Qed.

Lemma stops_exit {A} c st : stops (exit (A:=A) c st).
Proof. apply stops_quiet. constructor. Qed.

Lemma stops_for_each {A} (l : list A) body st :
  (∀ x st', stops (body x st')) → stops (proc_for_each l body st).
Proof.
  intros Hb. revert st. induction l as [|x l IH]; intros st; simpl.
  - apply stops_ret.
  - apply stops_bind; [done|]. intros _ st'. apply IH.
Qed.

(** In a result that [stops], the failed command is the last but one step. *)
Lemma stops_spec {A} (r : outcome A * state * list act) pre argv rc o e post :
  stops r →
  r.2 = pre ++ Spawn argv (Completed rc o e) :: post → rc ≠ 0 →
  r.1.1 = Exited 1
  ∧ post = [Did (Log ERROR ("Error running command: " +:+ join_words argv))].
Proof.
  intros [Hq|(Hx & pre' & argv' & rc' & o' & e' & Hsteps & Hrc' & Hpre')] Hr Hrc.
  - rewrite Hr in Hq. apply quiet_app in Hq as [_ Hq].
    apply Forall_cons in Hq as [Hq _]. simpl in Hq.
    by rewrite bool_decide_false in Hq.
  - split; [done|]. rewrite Hsteps in Hr. clear Hsteps Hx.
    revert pre Hr. induction Hpre' as [|s pre' Hs Hpre' IH]; intros pre Hr.
    + destruct pre as [|s' pre]; simpl in Hr.
      * by injection Hr as -> -> -> -> <-.
      * injection Hr as <- Hr. destruct pre as [|s'' pre]; [done|].
        injection Hr as _ Hr. by destruct pre.
    + destruct pre as [|s' pre]; simpl in Hr.
      * injection Hr as -> _. simpl in Hs. by rewrite bool_decide_false in Hs.
      * injection Hr as _ Hr. by apply (IH pre).
Qed.

(** *** Steps of a sequence *)

(** A sequence that returns: both parts returned. *)
Lemma proc_bind_inv {A B} (m : Proc A) (k : A → Proc B) st b st2 steps :
  proc_bind m k st = (Returned b, st2, steps) →
  ∃ a st1 s1 s2,
    m st = (Returned a, st1, s1) ∧ k a st1 = (Returned b, st2, s2) ∧ steps = s1 ++ s2.
Proof.
  unfold proc_bind. destruct (m st) as [[[a|e|c] st1] s1]; [|done..].
  destruct (k a st1) as [[r st'] s2] eqn:E. intros [= -> -> <-].
  by exists a, st1, s1, s2.
Qed.

Lemma all_steps_bind {A B} P (m : Proc A) (k : A → Proc B) :
  all_steps P m → (∀ a, all_steps P (k a)) → all_steps P (proc_bind m k).
Proof.
  intros Hm Hk st. specialize (Hm st). unfold proc_bind.
  destruct (m st) as [[[a|e|c] st'] evs]; [|done..].
  specialize (Hk a st'). destruct (k a st') as [[r st''] evs'].
  by apply Forall_app.
Qed.

Lemma all_steps_lift {A} (P : act → Prop) (m : IO A) :
  (∀ ev, P (Did ev)) → all_steps P (lift m).
Proof.
  intros HP st. unfold lift.
  destruct (m st) as [[[e|a] st'] evs]; apply Forall_fmap, Forall_true; intros ?; apply HP.
Qed.

Lemma all_steps_ret {A} (P : act → Prop) (a : A) : all_steps P (proc_ret a).
Proof. intros st. constructor. Qed.

Lemma all_steps_exit {A} (P : act → Prop) c : all_steps P (exit (A:=A) c).
Proof. intros st. constructor. Qed.

(** ** The provisioners and the orchestrator *)

Section provisioning.

Variable subprocess_run : list string → state → completed * node.
Variable requests_get : string → state → response.
Variable zip_extractall : string → string → state → option exception * node.
Variable tar_extractall : string → string → state → option exception * node.
Variable yaml_safe_load : string → string + document.

Local Arguments String.append : simpl never.

Local Abbreviation run_command := (RepoManager.run_command subprocess_run).
Local Abbreviation clone_repository :=
  (RepoManager.clone_repository subprocess_run zip_extractall tar_extractall).
Local Abbreviation download :=
  (ArtifactManager.download requests_get zip_extractall tar_extractall).
Local Abbreviation run :=
  (BootstrapManager.run subprocess_run requests_get zip_extractall tar_extractall
     yaml_safe_load).
Local Abbreviation main :=
  (BootstrapManager.main subprocess_run requests_get zip_extractall tar_extractall
     yaml_safe_load).
Local Abbreviation execute_tasks := (TaskExecutor.execute_tasks zip_extractall tar_extractall).

(** *** [run_command] *)

Lemma run_command_succeeded argv st stdout stderr t :
  subprocess_run argv st = (Completed 0 stdout stderr, t) →
  run_command argv st =
    (Returned tt, State t (cwd st) (clock st),
     Spawn argv (Completed 0 stdout stderr) :: command_output argv stdout stderr).
Proof.
  intros H. unfold RepoManager.run_command, RepoManager.spawn, proc_bind, command_output.
  rewrite H. simpl. by destruct (truthy stdout), (truthy stderr).
Qed.

Lemma run_command_failed argv st returncode stdout stderr t :
  subprocess_run argv st = (Completed returncode stdout stderr, t) →
  returncode ≠ 0 →
  run_command argv st =
    (Exited 1, State t (cwd st) (clock st),
     [Spawn argv (Completed returncode stdout stderr);
      Did (Log ERROR ("Error running command: " +:+ join_words argv))]).
Proof.
  intros H Hrc. unfold RepoManager.run_command, RepoManager.spawn, proc_bind.
  rewrite H. simpl. by rewrite bool_decide_false.
Qed.

Lemma run_command_not_started argv st e t :
  subprocess_run argv st = (NotStarted e, t) →
  run_command argv st =
    (Raised e, State t (cwd st) (clock st), [Spawn argv (NotStarted e)]).
Proof.
  intros H. unfold RepoManager.run_command, RepoManager.spawn, proc_bind.
  by rewrite H.
Qed.

(** Whatever the command does, it is the first step and the only command. *)
Lemma run_command_steps argv st :
  ∃ out st' evs,
    run_command argv st
    = (out, st', Spawn argv (subprocess_run argv st).1 :: (Did <$> evs)).
Proof.
  destruct (subprocess_run argv st) as [[rc o e|e] t] eqn:H.
  - destruct (decide (rc = 0)) as [->|Hrc].
    + rewrite (run_command_succeeded _ _ _ _ _ H). unfold command_output.
      destruct (truthy o), (truthy e); simpl;
        [by eexists _, _, [_; _]|by eexists _, _, [_]
        |by eexists _, _, [_]|by eexists _, _, []].
    + rewrite (run_command_failed _ _ _ _ _ _ H Hrc). by eexists _, _, [_].
  - rewrite (run_command_not_started _ _ _ _ H). by eexists _, _, [].
Qed.

Lemma all_steps_run_command (P : act → Prop) argv :
  (∀ r, P (Spawn argv r)) → (∀ ev, P (Did ev)) → all_steps P (run_command argv).
Proof.
  intros Hs Hd st. destruct (run_command_steps argv st) as (out & st' & evs & ->).
  simpl. constructor; [done|]. apply Forall_fmap, Forall_true. intros ?. apply Hd.
Qed.

Lemma stops_run_command argv st : stops (run_command argv st).
Proof.
  destruct (subprocess_run argv st) as [[rc o e|e] t] eqn:H.
  - destruct (decide (rc = 0)) as [->|Hrc].
    + rewrite (run_command_succeeded _ _ _ _ _ H). left. simpl.
      constructor; [done|]. unfold command_output.
      destruct (truthy o), (truthy e); repeat constructor.
    + rewrite (run_command_failed _ _ _ _ _ _ H Hrc). right. split; [done|].
      exists [], argv, rc, o, e. split_and!; [done..|constructor].
  - rewrite (run_command_not_started _ _ _ _ H). left. by repeat constructor.
Qed.

Lemma stops_clone_repository self st : stops (clone_repository self st).
Proof.
  unfold RepoManager.clone_repository.
  destruct (_ !! "destination"); [|apply stops_lift].
  apply stops_bind; [apply stops_lift|]. intros _ st1.
  destruct (_ || _); [apply stops_lift|].
  repeat first [ apply stops_run_command | apply stops_lift | apply stops_ret
               | apply stops_bind; [|intros ? ?] | case_match ].
Qed.

Lemma stops_run self st : stops (run self st).
Proof.
  unfold BootstrapManager.run.
  apply stops_bind.
  { unfold BootstrapManager.load_manifest.
    apply stops_bind; [apply stops_lift|]. intros text st1.
    destruct (yaml_safe_load text); [|apply stops_ret].
    apply stops_bind; [apply stops_lift|]. intros. apply stops_exit. }
  intros [c|c] st1; [|apply stops_lift]. destruct (negb _).
  { apply stops_bind; [apply stops_lift|]. intros. apply stops_exit. }
  apply stops_bind; [apply stops_lift|]. intros _ st2.
  apply stops_bind.
  - apply stops_for_each. intros. apply stops_clone_repository.
  - intros _ st3. apply stops_for_each. intros. apply stops_lift.
Qed.

Lemma stops_main file st : stops (main file st).
Proof.
  unfold BootstrapManager.main. apply stops_bind.
  - unfold BootstrapManager.__init__.
    apply stops_bind; [apply stops_lift|]. intros found st1.
    destruct (negb found); [|apply stops_ret].
    apply stops_bind; [apply stops_lift|]. intros. apply stops_exit.
  - intros. apply stops_run.
Qed.

(** C4. An external command that exits with a non-zero status ends the run:
    [run_command] logs the failure and exits with code 1 in the state the
    command left, and in a whole run ([BootstrapManager(file).run()]) the
    steps after the failed command are that log line and nothing else: no
    later repository, artifact or task. *)
Theorem failed_command_ends_the_run :
  (∀ argv st returncode stdout stderr t,
     subprocess_run argv st = (Completed returncode stdout stderr, t) →
     returncode ≠ 0 →
     run_command argv st =
       (Exited 1, State t (cwd st) (clock st),
        [Spawn argv (Completed returncode stdout stderr);
         Did (Log ERROR ("Error running command: " +:+ join_words argv))]))
  ∧ (∀ file st out st' steps before argv returncode stdout stderr after,
       main file st = (out, st', steps) →
       steps = before ++ Spawn argv (Completed returncode stdout stderr) :: after →
       returncode ≠ 0 →
       out = Exited 1
       ∧ after = [Did (Log ERROR ("Error running command: " +:+ join_words argv))]).
Proof.
  split.
  - apply run_command_failed.
  - intros file st out st' steps before argv rc o e after Hrun Hsteps Hrc.
    pose proof (stops_main file st) as Hstops. rewrite Hrun in Hstops.
    by apply (stops_spec _ _ _ _ _ _ _ Hstops Hsteps Hrc).
Qed.


(** *** Entries with a missing field *)

Lemma truthy_append a b : truthy (a +:+ b) = truthy a || truthy b.
Proof. by destruct a. Qed.

Lemma truthy_join_empty base : truthy base = true → truthy (os_path_join base "") = true.
Proof.
  intros H. unfold os_path_join. simpl. rewrite H. simpl.
  destruct (endswith base "/"); rewrite !truthy_append, H; done.
Qed.

Lemma clone_repository_without_url self st d :
  scalars (RepoManager.repo self) !! "destination" = Some d →
  truthy_opt (scalars (RepoManager.repo self) !! "url") = false →
  clone_repository self st =
    (Returned tt, st,
     [Did (Log INFO ("Cloning " +:+ fmt (scalars (RepoManager.repo self) !! "repo")
                     +:+ " sources..."));
      Did (Log ERROR "Missing 'url' or 'destination' for a repository.")]).
Proof.
  intros Hd Hu. unfold RepoManager.clone_repository, get. rewrite Hd, Hu.
  unfold logging_info. by rewrite lift_emit_bind.
Qed.

Lemma download_without_url self st :
  truthy_opt (scalars (ArtifactManager.artifact self) !! "url") = false →
  download self st = (inr tt, st, [Log ERROR "Missing 'url' or 'destination' for download."]).
Proof. intros Hu. unfold ArtifactManager.download, get. by rewrite Hu. Qed.

(** C3 (the code departs from the claim). An entry without a destination is
    not reported and skipped.  For a repository,
    [self.repo['destination']] raises [KeyError] before the check of the two
    fields is reached, and the exception ends the loop over the
    repositories, and with it the run.  For an artifact the field defaults
    to the empty string, the joined path is the project root with a
    trailing slash, which is not empty, so the check passes and the request
    is sent. *)
Theorem missing_destination_is_not_skipped :
  (∀ self st,
     scalars (RepoManager.repo self) !! "destination" = None →
     clone_repository self st = (Raised (KeyError "destination"), st, []))
  ∧ (∀ repo rest project_dir st,
       scalars repo !! "destination" = None →
       proc_for_each (repo :: rest)
         (λ repo, clone_repository (RepoManager.__init__ repo project_dir)) st
       = (Raised (KeyError "destination"), st, []))
  ∧ (∀ self st u st1,
       scalars (ArtifactManager.artifact self) !! "destination" = None →
       scalars (ArtifactManager.artifact self) !! "url" = Some u →
       truthy u = true →
       truthy (ArtifactManager.base_dir self) = true →
       let destination := os_path_join (ArtifactManager.base_dir self) "" in
       os_makedirs (os_path_dirname destination) st = (inr tt, st1, []) →
       ∃ r st' evs,
         download self st
         = (r, st',
            Log INFO ("Downloading " +:+ u +:+ " to " +:+ destination +:+ "...")
            :: HttpGet u (requests_get u st1) :: evs)).
Proof.
  split_and!.
  - intros self st Hd. unfold RepoManager.clone_repository. by rewrite Hd.
  - intros repo rest project_dir st Hd. simpl.
    apply proc_bind_raised. unfold RepoManager.clone_repository. simpl. by rewrite Hd.
  - intros self st u st1 Hd Hu Htu Hb destination Hmk.
    eassert (download self st = prefixed [_; _] (_ st1)) as E.
    { unfold ArtifactManager.download, get, get_default. rewrite Hd, Hu. simpl.
      fold destination. rewrite Htu. unfold destination at 1.
      rewrite (truthy_join_empty _ Hb). simpl.
      rewrite (io_bind_prefixed _ _ _ _ _ _ Hmk), prefixed_nil.
      unfold logging_info, ArtifactManager.http_get. rewrite emit_bind.
      erewrite (io_bind_prefixed _ _ _ (requests_get u st1) st1
                  [HttpGet u (requests_get u st1)]); [|done].
      reflexivity. }
    rewrite E. match goal with |- context [prefixed _ (?k st1)] =>
      destruct (k st1) as [[r st'] evs] end.
    by eexists _, _, _.
Qed.

(** *** Clone or update *)

Lemma os_path_exists_run s st : os_path_exists s st = (inr (exists_path st s), st, []).
Proof. unfold os_path_exists. by rewrite get_state_bind. Qed.

(** What follows the clone or the update issues no clone. *)
Lemma no_clone_after_fetch self destination :
  all_steps (λ s, is_clone s = false)
    (proc_bind
       (if truthy_opt (get (scalars (RepoManager.repo self)) "commit") then
          let commit := default "" (get (scalars (RepoManager.repo self)) "commit") in
          proc_bind
            (lift (logging_info ("Checking out commit " +:+ commit +:+ " in "
                                 +:+ destination +:+ "...")))
            (λ _, run_command ["git"; "-C"; destination; "checkout"; commit])
        else proc_ret tt)
       (λ _,
          proc_bind
            (if truthy_opt (get (scalars (RepoManager.repo self)) "submodules") then
               let submodule_command :=
                 ["git"; "-C"; destination; "submodule"; "update"; "--init"] in
               let submodule_command :=
                 if bool_decide (get (scalars (RepoManager.repo self)) "submodules"
                                 = Some "recursive")
                 then submodule_command ++ ["--recursive"]
                 else submodule_command in
               proc_bind
                 (lift (logging_info ("Initializing and updating submodules for "
                                      +:+ destination +:+ "...")))
                 (λ _, run_command submodule_command)
             else proc_ret tt)
            (λ _,
               lift (execute_tasks
                       (TaskExecutor.__init__ (RepoManager.repo self)
                          (RepoManager.base_dir self)))))).
Proof.
  repeat first
    [ apply all_steps_lift; done
    | apply all_steps_ret
    | apply all_steps_run_command; [intros ?|done]
    | apply all_steps_bind; [|intros ?]
    | case_match
    | done ].
Qed.

(** C5. A repository entry with its url and destination: once the
    destination directory is there (created without a word if it was
    missing), the provisioner looks for [.git] inside it.  If it is there
    the command issued is the update, [git -C destination pull], and no
    step of the provisioning is a clone; otherwise the command is
    [git clone --branch b --single-branch url destination] with [b] the
    branch of the entry, ["main"] by default.  In both cases nothing but
    two information lines comes before the command: no error is logged
    and nothing is raised for a [.git] that is already there. *)
Theorem clone_or_update (self : RepoManager.t) st d u st1 evs1 :
  let destination := os_path_join (RepoManager.base_dir self) d in
  let branch := default "main" (scalars (RepoManager.repo self) !! "branch") in
  let has_git := exists_path st1 (os_path_join destination ".git") in
  scalars (RepoManager.repo self) !! "destination" = Some d →
  scalars (RepoManager.repo self) !! "url" = Some u →
  truthy u = true →
  truthy destination = true →
  os_makedirs destination st = (inr tt, st1, evs1) →
  evs1 = []
  ∧ ∃ out st' rest,
      clone_repository self st
      = (out, st',
         Did (Log INFO ("Cloning " +:+ fmt (scalars (RepoManager.repo self) !! "repo")
                        +:+ " sources..."))
         :: (if has_git then
               [Did (Log INFO ("Repository already exists at " +:+ destination
                               +:+ ". Pulling latest changes..."));
                Spawn (pull_command destination)
                  (subprocess_run (pull_command destination) st1).1]
             else
               [Did (Log INFO ("Cloning " +:+ u +:+ " into " +:+ destination +:+ "..."));
                Spawn (clone_command branch u destination)
                  (subprocess_run (clone_command branch u destination) st1).1])
         ++ rest)
      ∧ (has_git = true → Forall (λ s, is_clone s = false) rest).
Proof.
  intros destination branch has_git Hd Hu Htu Htd Hmk.
  assert (evs1 = []) as -> by (pose proof (silent_os_makedirs destination st) as H;
                                by rewrite Hmk in H).
  split; [done|].
  assert (∀ k : unit → Proc unit,
    clone_repository self st
    = proc_prefixed
        [Did (Log INFO ("Cloning " +:+ fmt (scalars (RepoManager.repo self) !! "repo")
                        +:+ " sources..."));
         Did (Log INFO (if has_git
                        then "Repository already exists at " +:+ destination
                             +:+ ". Pulling latest changes..."
                        else "Cloning " +:+ u +:+ " into " +:+ destination +:+ "..."))]
        (proc_bind
           (run_command (if has_git then pull_command destination
                         else clone_command branch u destination)) k st1)
    → ∃ out st' rest,
        clone_repository self st
        = (out, st',
           Did (Log INFO ("Cloning " +:+ fmt (scalars (RepoManager.repo self) !! "repo")
                          +:+ " sources..."))
           :: (if has_git then
                 [Did (Log INFO ("Repository already exists at " +:+ destination
                                 +:+ ". Pulling latest changes..."));
                  Spawn (pull_command destination)
                    (subprocess_run (pull_command destination) st1).1]
               else
                 [Did (Log INFO ("Cloning " +:+ u +:+ " into " +:+ destination +:+ "..."));
                  Spawn (clone_command branch u destination)
                    (subprocess_run (clone_command branch u destination) st1).1])
           ++ rest)
        ∧ (all_steps (λ s, is_clone s = false) (k tt) →
           Forall (λ s, is_clone s = false) rest)) as Hshape.
  { intros k ->.
    destruct (run_command_steps (if has_git then pull_command destination
                                 else clone_command branch u destination) st1)
      as (out & st2 & evs & Hc).
    assert (Forall (λ s, is_clone s = false) (Did <$> evs)) as Hevs
      by (by apply Forall_fmap, Forall_true).
    destruct out as [[]|e|c].
    - rewrite (proc_bind_returned _ _ _ _ _ _ Hc).
      destruct (k tt st2) as [[r st3] s3] eqn:Hk.
      exists r, st3, ((Did <$> evs) ++ s3). split; [by destruct has_git|].
      intros Hall. specialize (Hall st2). rewrite Hk in Hall.
      by apply Forall_app.
    - rewrite (proc_bind_raised _ _ _ _ _ _ Hc).
      exists (Raised e), st2, (Did <$> evs). split; [by destruct has_git|done].
    - rewrite (proc_bind_exited _ _ _ _ _ _ Hc).
      exists (Exited c), st2, (Did <$> evs). split; [by destruct has_git|done]. }
  edestruct Hshape as (out & st' & rest & Hrun & Hrest).
  { unfold RepoManager.clone_repository, get, get_default. rewrite Hd, Hu.
    fold destination branch. unfold logging_info. rewrite lift_emit_bind.
    change (truthy_opt (Some u)) with (truthy u).
    change (default "" (Some u)) with u. rewrite Htu, Htd. cbn [negb orb]. cbv beta iota.
    erewrite lift_bind_returned; [|exact Hmk]. rewrite proc_prefixed_nil.
    rewrite (lift_bind_returned _ _ _ _ _ _ (os_path_exists_run _ _)), proc_prefixed_nil.
    fold has_git.
    destruct has_git; simpl negb; cbv iota;
      rewrite proc_bind_assoc, lift_emit_bind; reflexivity. }
  exists out, st', rest. split; [exact Hrun|]. intros _. apply Hrest.
  apply no_clone_after_fetch.
Qed.

(** *** Submodules *)

Local Abbreviation not_submodule := (λ s : act, is_submodule_update s = false).

Lemma at_most_one_bind_before {A B} argv (m : Proc A) (k : A → Proc B) st :
  all_steps not_submodule m →
  (∀ a st', at_most_one argv (k a st').2) →
  at_most_one argv (proc_bind m k st).2.
Proof.
  intros Hm Hk. specialize (Hm st). unfold proc_bind.
  destruct (m st) as [[[a|e|c] st'] evs]; [|by left..].
  specialize (Hk a st'). destruct (k a st') as [[r st''] evs']. simpl in *.
  destruct Hk as [Hk|(pre & r' & post & -> & Hpre & Hpost)].
  - left. by apply Forall_app.
  - right. exists (evs ++ pre), r', post. rewrite app_assoc. split_and!; [done| |done].
    by apply Forall_app.
Qed.

Lemma at_most_one_bind_after {A B} argv (m : Proc A) (k : A → Proc B) st :
  at_most_one argv (m st).2 →
  (∀ a, all_steps not_submodule (k a)) →
  at_most_one argv (proc_bind m k st).2.
Proof.
  intros Hm Hk. unfold proc_bind.
  destruct (m st) as [[[a|e|c] st'] evs]; [|done..].
  specialize (Hk a st'). destruct (k a st') as [[r st''] evs']. simpl in *.
  destruct Hm as [Hm|(pre & r' & post & -> & Hpre & Hpost)].
  - left. by apply Forall_app.
  - right. exists pre, r', (post ++ evs'). rewrite <-app_assoc. split_and!; [done..|].
    by apply Forall_app.
Qed.

Lemma at_most_one_run_command argv st : at_most_one argv (run_command argv st).2.
Proof.
  destruct (run_command_steps argv st) as (out & st' & evs & ->).
  right. exists [], (subprocess_run argv st).1, (Did <$> evs).
  split_and!; [done|constructor|]. by apply Forall_fmap, Forall_true.
Qed.

Lemma run_command_returned argv st a st' steps :
  run_command argv st = (Returned a, st', steps) →
  ∃ stdout stderr,
    steps = Spawn argv (Completed 0 stdout stderr) :: command_output argv stdout stderr.
Proof.
  destruct (subprocess_run argv st) as [[rc o e|e] t] eqn:H.
  - destruct (decide (rc = 0)) as [->|Hrc].
    + rewrite (run_command_succeeded _ _ _ _ _ H). intros [= <- <- <-]. by eexists _, _.
    + by rewrite (run_command_failed _ _ _ _ _ _ H Hrc).
  - by rewrite (run_command_not_started _ _ _ _ H).
Qed.

Lemma not_submodule_command_output argv stdout stderr :
  Forall not_submodule (command_output argv stdout stderr).
Proof. unfold command_output. destruct (truthy stdout), (truthy stderr); repeat constructor. Qed.

Lemma submodule_command_eq destination (b : bool) :
  (if b then ["git"; "-C"; destination; "submodule"; "update"; "--init"] ++ ["--recursive"]
   else ["git"; "-C"; destination; "submodule"; "update"; "--init"])
  = submodule_command destination b.
Proof. by destruct b. Qed.

Ltac not_submodule_tac :=
  repeat first
    [ apply all_steps_lift; done
    | apply all_steps_ret
    | apply all_steps_run_command; [intros ?|done]
    | apply all_steps_bind; [|intros ?]
    | case_match
    | done ].

(** C9. The submodule step of a repository entry.  With no submodule mode
    (the key absent, or an empty value) no step of the provisioning is a
    submodule command.  In every run at most one step is, and it is
    [git -C destination submodule update --init], with [--recursive]
    exactly when the mode is ["recursive"].  With a mode, an url and a
    destination that is not empty, a provisioning that returns has run that
    command, with success. *)
Theorem submodule_step (self : RepoManager.t) st :
  let fields := scalars (RepoManager.repo self) in
  let destination :=
    os_path_join (RepoManager.base_dir self) (default "" (fields !! "destination")) in
  let expected :=
    submodule_command destination (bool_decide (fields !! "submodules" = Some "recursive")) in
  let steps := (clone_repository self st).2 in
  (truthy_opt (fields !! "submodules") = false → Forall not_submodule steps)
  ∧ at_most_one expected steps
  ∧ (truthy_opt (fields !! "submodules") = true →
     (clone_repository self st).1.1 = Returned tt →
     truthy_opt (fields !! "url") = true →
     truthy destination = true →
     ∃ stdout stderr pre post,
       steps = pre ++ Spawn expected (Completed 0 stdout stderr) :: post
       ∧ Forall not_submodule pre ∧ Forall not_submodule post).
Proof.
  intros fields destination expected steps. subst steps.
  unfold RepoManager.clone_repository, get, get_default. fold fields.
  destruct (fields !! "destination") as [d|] eqn:Hd; simpl in destination.
  2:{ split_and!; [by constructor|by left; constructor|done]. }
  fold destination. rewrite submodule_command_eq. fold expected.
  split_and!.
  - intros Hs. rewrite Hs. generalize st. not_submodule_tac.
  - apply at_most_one_bind_before; [not_submodule_tac|]. intros _ st0.
    destruct (_ || _); [left; generalize st0; not_submodule_tac|].
    apply at_most_one_bind_before; [not_submodule_tac|]. intros _ st1.
    apply at_most_one_bind_before; [not_submodule_tac|]. intros has_git st2.
    apply at_most_one_bind_before; [not_submodule_tac|]. intros _ st3.
    apply at_most_one_bind_before; [not_submodule_tac|]. intros _ st4.
    apply at_most_one_bind_after; [|intros ?; not_submodule_tac].
    destruct (truthy_opt (fields !! "submodules")); [|by left; constructor].
    apply at_most_one_bind_before; [not_submodule_tac|]. intros _ st5.
    apply at_most_one_run_command.
  - intros Hs Hret Hu Htd. rewrite Hs, Hu, Htd in *. cbn [negb orb] in *.
    destruct (proc_bind _ _ st) as [[out st'] steps] eqn:Hrun. simpl in Hret. subst out.
    apply proc_bind_inv in Hrun as ([] & st0 & s0 & steps0 & H0 & Hrun & ->).
    apply proc_bind_inv in Hrun as ([] & st1 & s1 & steps1 & H1 & Hrun & ->).
    apply proc_bind_inv in Hrun as (has_git & st2 & s2 & steps2 & H2 & Hrun & ->).
    apply proc_bind_inv in Hrun as ([] & st3 & s3 & steps3 & H3 & Hrun & ->).
    apply proc_bind_inv in Hrun as ([] & st4 & s4 & steps4 & H4 & Hrun & ->).
    apply proc_bind_inv in Hrun as ([] & st5 & s5 & s6 & H5 & H6 & ->).
    apply proc_bind_inv in H5 as ([] & st6 & s5a & s5b & H5a & H5b & ->).
    apply run_command_returned in H5b as (stdout & stderr & ->).
    exists stdout, stderr, (s0 ++ s1 ++ s2 ++ s3 ++ s4 ++ s5a),
      (command_output expected stdout stderr ++ s6).
    split; [by rewrite <-!app_assoc|].
    assert (∀ {A} (m : Proc A) sa r sb s,
              m sa = (r, sb, s) → all_steps not_submodule m → Forall not_submodule s)
      as Hall.
    { intros A m sa r sb s Hm Ha. specialize (Ha sa). by rewrite Hm in Ha. }
    split.
    + rewrite !Forall_app. split_and!.
      * eapply Hall; [exact H0|]. not_submodule_tac.
      * eapply Hall; [exact H1|]. not_submodule_tac.
      * eapply Hall; [exact H2|]. not_submodule_tac.
      * eapply Hall; [exact H3|]. not_submodule_tac.
      * eapply Hall; [exact H4|]. not_submodule_tac.
      * eapply Hall; [exact H5a|]. not_submodule_tac.
    + rewrite Forall_app. split; [apply not_submodule_command_output|].
      eapply Hall; [exact H6|]. not_submodule_tac.
Qed.

(** *** The project root *)

Local Abbreviation execute_task := (TaskExecutor.execute_task zip_extractall tar_extractall).
Local Abbreviation action_map := (TaskExecutor.action_map zip_extractall tar_extractall).
Local Abbreviation for_each := (TaskExecutor.for_each).

(** What a task does depends on the executor through its base directory
    and the entry it belongs to. *)
Lemma execute_task_ext (self self' : TaskExecutor.t) task st :
  TaskExecutor.base_dir self = TaskExecutor.base_dir self' →
  TaskExecutor.repo self = TaskExecutor.repo self' →
  execute_task self task st = execute_task self' task st.
Proof.
  destruct self as [r b ts], self' as [r' b' ts']. simpl. by intros -> ->.
Qed.

(** The run of a manifest that is there to read. *)
Lemma main_of_a_manifest file st p text m ro :
  locate st file = Some p →
  lookup_node (root st) p = Some (File text m ro) →
  main file st
  = proc_bind
      (match yaml_safe_load text with
       | inr d => proc_ret d
       | inl e =>
           proc_bind (lift (logging_error ("Error parsing YAML file: " +:+ e)))
             (λ _, exit 1)
       end)
      (λ config,
         match config with
         | NotMapping c =>
             lift (raise (AttributeError ("'" +:+ c +:+ "' object has no attribute 'get'")))
         | Mapping config =>
             if negb (truthy_opt (project config)) then
               proc_bind
                 (lift (logging_error "'project' key not found in the YAML manifest."))
                 (λ _, exit 1)
             else
               proc_bind (lift (os_makedirs (default "" (project config))))
                 (λ _, proc_bind
                    (proc_for_each (repositories config) (λ repo,
                       clone_repository
                         (RepoManager.__init__ repo (default "" (project config)))))
                    (λ _, proc_for_each (artifacts config) (λ artifact,
                       lift (download
                               (ArtifactManager.__init__ artifact
                                  (default "" (project config)))))))
         end) st.
Proof.
  intros Hp Hl.
  unfold BootstrapManager.main, BootstrapManager.__init__.
  rewrite proc_bind_assoc.
  rewrite (lift_bind_returned _ _ _ _ _ _ (os_path_exists_run _ st)).
  unfold exists_path. rewrite Hp, Hl. rewrite bool_decide_true by eauto. cbn [negb].
  rewrite proc_prefixed_nil, proc_ret_bind.
  unfold BootstrapManager.run, BootstrapManager.load_manifest.
  cbn [BootstrapManager.yaml_file].
  rewrite !proc_bind_assoc.
  assert (BootstrapManager.read_text file st = (inr text, st, [])) as Hread.
  { unfold BootstrapManager.read_text. rewrite get_state_bind, Hp. cbn. by rewrite Hl. }
  rewrite (lift_bind_returned _ _ _ _ _ _ Hread), proc_prefixed_nil.
  reflexivity.
Qed.

(** C6. The tasks of an entry are run against the project root, not
    against the destination of the entry.  The run of a manifest hands its
    project directory to the provisioner of every repository and of every
    artifact.  A provisioning of a repository that returns, and a download
    that returns, for an entry with an url, end with every task of the
    entry, in the order of its task list, run by an executor whose base
    directory is that project directory.  And such an executor calls the
    method of a task on the source and the destination of the task, each
    joined to the project directory. *)
Theorem task_paths_are_relative_to_the_project_root (project_dir : string) :
  (∀ file st p text m ro c,
     locate st file = Some p →
     lookup_node (root st) p = Some (File text m ro) →
     yaml_safe_load text = inr (Mapping c) →
     project c = Some project_dir →
     truthy project_dir = true →
     main file st
     = proc_bind (lift (os_makedirs project_dir))
         (λ _, proc_bind
            (proc_for_each (repositories c) (λ repo,
               clone_repository (RepoManager.__init__ repo project_dir)))
            (λ _, proc_for_each (artifacts c) (λ artifact,
               lift (download (ArtifactManager.__init__ artifact project_dir))))) st)
  ∧ (∀ repo st st' steps,
       clone_repository (RepoManager.__init__ repo project_dir) st = (Returned tt, st', steps) →
       truthy_opt (scalars repo !! "url") = true →
       truthy (os_path_join project_dir (default "" (scalars repo !! "destination"))) = true →
       ∃ st0 before evs,
         steps = before ++ (Did <$> evs)
         ∧ ∀ self,
             TaskExecutor.base_dir self = project_dir →
             TaskExecutor.repo self = repo →
             for_each (task_list repo) (execute_task self) st0 = (inr tt, st', evs))
  ∧ (∀ artifact st st' evs,
       download (ArtifactManager.__init__ artifact project_dir) st = (inr tt, st', evs) →
       truthy_opt (scalars artifact !! "url") = true →
       truthy (os_path_join project_dir (default "" (scalars artifact !! "destination")))
       = true →
       ∃ st0 before evs',
         evs = before ++ evs'
         ∧ ∀ self,
             TaskExecutor.base_dir self = project_dir →
             TaskExecutor.repo self = artifact →
             for_each (task_list artifact) (execute_task self) st0 = (inr tt, st', evs'))
  ∧ (∀ self (task : task_dict) a f st,
       TaskExecutor.base_dir self = project_dir →
       task !! "action" = Some (Text a) →
       action_map self !! a = Some f →
       paths_are_text task = true →
       execute_task self task st
       = try_except Exception
           (f (os_path_join project_dir (text_field task "source" ""))
              (option_map (λ d, os_path_join project_dir (str_value d))
                 (task !! "destination")))
           (λ e, emit (task_error self task e)) st).
Proof.
  split_and!.
  - intros file st p text m ro c Hp Hl Hy Hproj Ht.
    rewrite (main_of_a_manifest _ _ _ _ _ _ Hp Hl), Hy, proc_ret_bind, Hproj.
    cbn [truthy_opt default from_option]. by rewrite Ht.
  - intros repo st st' steps Hrun Hu Htd.
    unfold RepoManager.clone_repository, get, get_default in Hrun.
    cbn [RepoManager.repo RepoManager.base_dir RepoManager.__init__] in Hrun.
    destruct (scalars repo !! "destination") as [d|] eqn:Hd; [|done].
    cbn [default from_option] in Htd. unfold id in Htd.
    rewrite Hu, Htd in Hrun. cbn [negb orb] in Hrun.
    apply proc_bind_inv in Hrun as ([] & st0 & s0 & steps0 & H0 & Hrun & ->).
    apply proc_bind_inv in Hrun as ([] & st1 & s1 & steps1 & H1 & Hrun & ->).
    apply proc_bind_inv in Hrun as (has_git & st2 & s2 & steps2 & H2 & Hrun & ->).
    apply proc_bind_inv in Hrun as ([] & st3 & s3 & steps3 & H3 & Hrun & ->).
    apply proc_bind_inv in Hrun as ([] & st4 & s4 & steps4 & H4 & Hrun & ->).
    apply proc_bind_inv in Hrun as ([] & st5 & s5 & s6 & H5 & H6 & ->).
    apply lift_returned_inv in H6 as (evs & H6 & ->).
    exists st5, (s0 ++ s1 ++ s2 ++ s3 ++ s4 ++ s5), evs.
    split; [by rewrite <-!app_assoc|].
    intros self Hb Hr. rewrite <-H6. unfold TaskExecutor.execute_tasks.
    cbn [TaskExecutor.tasks TaskExecutor.__init__].
    apply for_each_ext. intros task st''. by apply execute_task_ext.
  - intros artifact st st' evs Hrun Hu Htd.
    unfold ArtifactManager.download, get, get_default in Hrun.
    cbn [ArtifactManager.artifact ArtifactManager.base_dir ArtifactManager.__init__] in Hrun.
    rewrite Hu, Htd in Hrun. cbn [negb orb] in Hrun.
    apply io_bind_inv in Hrun as ([] & st0 & s0 & evs0 & H0 & Hrun & ->).
    apply io_bind_inv in Hrun as ([] & st1 & s1 & evs1 & H1 & Hrun & ->).
    apply io_bind_inv in Hrun as (response & st2 & s2 & evs2 & H2 & Hrun & ->).
    apply io_bind_inv in Hrun as (content & st3 & s3 & evs3 & H3 & Hrun & ->).
    apply io_bind_inv in Hrun as ([] & st4 & s4 & evs4 & H4 & H5 & ->).
    exists st4, (s0 ++ s1 ++ s2 ++ s3 ++ s4), evs4.
    split; [by rewrite <-!app_assoc|].
    intros self Hb Hr. rewrite <-H5. unfold TaskExecutor.execute_tasks.
    cbn [TaskExecutor.tasks TaskExecutor.__init__].
    apply for_each_ext. intros task st''. by apply execute_task_ext.
  - intros self task a f st <- Ha Hf Ht.
    apply (execute_task_known _ _ _ _ _ _ _ Ha Hf Ht).
Qed.

End provisioning.

(** ** The file system: trees *)

Lemma node_size_child ro (es : gmap string node) i c :
  es !! i = Some c → (node_size c < node_size (Dir ro es))%nat.
Proof.
  intros H. simpl.
  rewrite <-(insert_delete_id es i c H).
  rewrite map_fold_insert_L.
  - lia.
  - intros. lia.
  - apply lookup_delete_eq.
Qed.

(** Induction on a tree: a property of a directory follows from the
    property of its entries. *)
Lemma node_ind' (P : node → Prop) :
  (∀ d m ro, P (File d m ro)) →
  (∀ ro (es : gmap string node), (∀ i c, es !! i = Some c → P c) → P (Dir ro es)) →
  ∀ t, P t.
Proof.
  intros HF HD t. remember (node_size t) as n eqn:Hn. revert t Hn.
  induction (lt_wf n) as [n _ IH]. intros [d m ro|ro es] ->; [done|].
  apply HD. intros i c Hc. by eapply IH; [eapply node_size_child|].
Qed.

(** Lookups after an update *)

Lemma put_node_id t p n : lookup_node t p = Some n → put_node t p (Some n) = t.
Proof.
  revert t. induction p as [|c p IH]; intros t Hl; simpl in *.
  { by simplify_eq. }
  destruct t as [|ro es]; [done|].
  destruct (es !! c) as [t'|] eqn:E; [simpl in Hl|done].
  destruct p as [|c' p'].
  - simpl in Hl. simplify_eq. f_equal. apply partial_alter_id. by rewrite E.
  - f_equal. apply map_eq. intros j. rewrite lookup_alter.
    case_decide as Hj; [subst j|done]. rewrite E. simpl. f_equal. by apply IH.
Qed.

Lemma lookup_put_node_some t p n n' :
  lookup_node t p = Some n → lookup_node (put_node t p (Some n')) p = Some n'.
Proof.
  intros Hl. destruct p as [|c p]; [done|].
  by eapply lookup_put_node_eq.
Qed.

Lemma put_node_put_node t p n o :
  p ≠ [] ∨ is_Some o →
  put_node (put_node t p (Some n)) p o = put_node t p o.
Proof.
  revert t. induction p as [|c p IH]; intros t Hp.
  { destruct Hp as [?|[? ->]]; done. }
  destruct t as [|ro es]; [done|].
  destruct p as [|c' p'].
  - simpl. f_equal. by rewrite partial_alter_partial_alter_eq.
  - change (Dir ro (alter (λ t', put_node t' (c' :: p') o) c
              (alter (λ t', put_node t' (c' :: p') (Some n)) c es))
            = Dir ro (alter (λ t', put_node t' (c' :: p') o) c es)).
    f_equal. rewrite alter_alter_eq. apply alter_ext. intros t' _. simpl.
    apply IH. by left.
Qed.

(** An update of an entry is an update of its directory. *)
Lemma put_node_child t p i o ro (es : gmap string node) :
  lookup_node t p = Some (Dir ro es) →
  put_node t (p ++ [i]) o = put_node t p (Some (Dir ro (partial_alter (λ _, o) i es))).
Proof.
  revert t. induction p as [|c p IH]; intros t Hl.
  { simpl in Hl. by injection Hl as ->. }
  destruct t as [|ro' es']; [done|]. simpl in Hl.
  destruct (es' !! c) as [t'|] eqn:E; [simpl in Hl|done].
  destruct p as [|c' p'].
  - simpl in Hl. injection Hl as ->.
    change (Dir ro' (alter (λ t', put_node t' [i] o) c es')
            = Dir ro' (partial_alter (λ _, Some (Dir ro (partial_alter (λ _, o) i es))) c es')).
    f_equal. apply map_eq. intros j. rewrite lookup_alter, lookup_partial_alter.
    case_decide; [subst j|done]. by rewrite E.
  - change (Dir ro' (alter (λ t', put_node t' ((c' :: p') ++ [i]) o) c es')
            = Dir ro' (alter (λ t', put_node t' (c' :: p')
                                      (Some (Dir ro (partial_alter (λ _, o) i es)))) c es')).
    f_equal. apply map_eq. intros j. rewrite !lookup_alter.
    case_decide; [subst j|done]. rewrite E. simpl. f_equal. by apply IH.
Qed.

Lemma lookup_node_app t p q :
  lookup_node t (p ++ q) = lookup_node t p ≫= λ n, lookup_node n q.
Proof.
  revert t. induction p as [|c p IH]; intros t; [done|]. simpl.
  destruct t as [|ro es]; [done|]. destruct (es !! c); [apply IH|done].
Qed.

Lemma lookup_put_node_below t p o n r :
  lookup_node t p = Some n → p ≠ [] ∨ is_Some o →
  lookup_node (put_node t p o) (p ++ r) = o ≫= λ n', lookup_node n' r.
Proof.
  intros Hl Hp. rewrite lookup_node_app.
  destruct p as [|c p].
  - destruct Hp as [?|[n' ->]]; done.
  - by rewrite (lookup_put_node_eq _ _ _ _ Hl).
Qed.

Lemma removelast_snoc (q : loc) i : removelast (q ++ [i]) = q.
Proof. by rewrite removelast_last. Qed.

Lemma snoc_removelast (q : loc) : q ≠ [] → ∃ i, q = removelast q ++ [i].
Proof. intros Hq. destruct (exists_last Hq) as (q' & i & ->). exists i. by rewrite removelast_last. Qed.

Lemma map_fold_andb {A} (f : string → A → bool) (m : gmap string A) :
  map_fold (λ i x acc, f i x && acc) true m = true ↔ ∀ i x, m !! i = Some x → f i x = true.
Proof.
  apply (map_fold_weak_ind (λ r m, r = true ↔ ∀ i x, m !! i = Some x → f i x = true)).
  - split; [|done]. intros _ i x. by rewrite lookup_empty.
  - intros i x m' r Hi IH. rewrite andb_true_iff, IH. split.
    + intros [Hx Hm] j y. rewrite lookup_insert. case_decide; [|by apply Hm].
      by intros [= <-]; subst.
    + intros H. split.
      * apply H. by rewrite lookup_insert_eq.
      * intros j y Hj. apply H. rewrite lookup_insert_ne; [done|]. by intros ->; simplify_eq.
Qed.

Lemma lookup_node_prefix_dir t q r n :
  r ≠ [] → lookup_node t (q ++ r) = Some n → is_dir t q = true.
Proof.
  intros Hr. rewrite lookup_node_app. unfold is_dir.
  destruct (lookup_node t q) as [[|ro es]|]; [|done..]. by destruct r.
Qed.


(** ** Removal of a tree *)

Section removal.

Local Abbreviation remove_readonly := TaskExecutor.remove_readonly.

Lemma writable_dir_lookup t p ro es :
  lookup_node t p = Some (Dir ro es) → writable_dir t p = negb ro.
Proof. intros H. unfold writable_dir. by rewrite H. Qed.

Lemma lookup_node_entry t p ro (es : gmap string node) i :
  lookup_node t p = Some (Dir ro es) → lookup_node t (p ++ [i]) = es !! i.
Proof. intros H. rewrite lookup_node_app, H. simpl. by destruct (es !! i). Qed.

(** The entry [i] of the directory at [p], set or dropped. *)
Lemma put_node_in t p ro (es : gmap string node) i o ro' es' :
  lookup_node t p = Some (Dir ro es) →
  put_node (put_node t p (Some (Dir ro' es'))) (p ++ [i]) o
  = put_node t p (Some (Dir ro' (partial_alter (λ _, o) i es'))).
Proof.
  intros Hl. erewrite put_node_child by (by eapply lookup_put_node_some).
  by rewrite put_node_put_node by (right; eauto).
Qed.

(** [os.unlink] and [os.rmdir] on the entry [i] of the directory at [p]:
    the flag of the directory decides. *)
Lemma os_unlink_at_entry t c k p ro es i n :
  lookup_node t p = Some (Dir ro es) → es !! i = Some n →
  os_unlink_at (p ++ [i]) (State t c k)
  = if ro then (inl (OSError EACCES (show_loc (p ++ [i]))), State t c k, [])
    else match n with
         | File _ _ _ => (inr tt, State (put_node t p (Some (Dir ro (delete i es)))) c k, [])
         | Dir _ _ => (inl (OSError EISDIR (show_loc (p ++ [i]))), State t c k, [])
         end.
Proof.
  intros Hl Hi. unfold os_unlink_at. rewrite get_state_bind. cbn [root].
  rewrite (lookup_node_entry _ _ _ _ _ Hl), Hi.
  rewrite bool_decide_false by (by destruct p).
  rewrite removelast_snoc, (writable_dir_lookup _ _ _ _ Hl).
  destruct ro; [done|]. cbn [negb]. destruct n; [|done].
  unfold set_root. cbn [cwd clock]. by rewrite (put_node_child _ _ _ _ _ _ Hl).
Qed.

Lemma os_rmdir_at_entry t c k p ro es i n :
  lookup_node t p = Some (Dir ro es) → es !! i = Some n →
  os_rmdir_at (p ++ [i]) (State t c k)
  = if ro then (inl (OSError EACCES (show_loc (p ++ [i]))), State t c k, [])
    else match n with
         | File _ _ _ => (inl (OSError ENOTDIR (show_loc (p ++ [i]))), State t c k, [])
         | Dir _ esn =>
             if bool_decide (esn = ∅)
             then (inr tt, State (put_node t p (Some (Dir ro (delete i es)))) c k, [])
             else (inl (OSError ENOTEMPTY (show_loc (p ++ [i]))), State t c k, [])
         end.
Proof.
  intros Hl Hi. unfold os_rmdir_at. rewrite get_state_bind. cbn [root].
  rewrite (lookup_node_entry _ _ _ _ _ Hl), Hi.
  rewrite bool_decide_false by (by destruct p).
  rewrite removelast_snoc, (writable_dir_lookup _ _ _ _ Hl).
  destruct ro; [done|]. cbn [negb]. destruct n as [|ron esn]; [done|].
  case_bool_decide; [|done]. cbn [negb].
  unfold set_root. cbn [cwd clock]. by rewrite (put_node_child _ _ _ _ _ _ Hl).
Qed.

Lemma os_chmod_at_writable t c k q n :
  lookup_node t q = Some n →
  os_chmod_at q S_IWRITE (State t c k)
  = (inr tt, State (put_node t q (Some (set_readonly false n))) c k, []).
Proof. intros Hl. unfold os_chmod_at. io_run with (cbn [root cwd clock]; rewrite ?Hl). done. Qed.

Lemma os_chmod_at_entry t c k p ro es i n :
  lookup_node t p = Some (Dir ro es) → es !! i = Some n →
  os_chmod_at (p ++ [i]) S_IWRITE (State t c k)
  = (inr tt, State (put_node t p (Some (Dir ro (<[i := set_readonly false n]> es)))) c k, []).
Proof.
  intros Hl Hi. rewrite (os_chmod_at_writable _ _ _ _ n).
  - by rewrite (put_node_child _ _ _ _ _ _ Hl).
  - by rewrite (lookup_node_entry _ _ _ _ _ Hl).
Qed.

(** A file of a directory that is not write-protected is unlinked,
    whatever its own flag.  In a write-protected directory the handler is
    of no use: it clears the flag of the file, the second [os.unlink] is
    refused like the first, and the refusal is raised. *)
Lemma unlink_with_handler t c k p ro es i d mt rof :
  lookup_node t p = Some (Dir ro es) → es !! i = Some (File d mt rof) →
  try_except is_OSError (os_unlink_at (p ++ [i])) (remove_readonly os_unlink_at (p ++ [i]))
    (State t c k)
  = if ro
    then (inl (OSError EACCES (show_loc (p ++ [i]))),
          State (put_node t p (Some (Dir ro (<[i := File d mt false]> es)))) c k, [])
    else (inr tt, State (put_node t p (Some (Dir ro (delete i es)))) c k, []).
Proof.
  intros Hl Hi. unfold try_except.
  rewrite (os_unlink_at_entry _ _ _ _ _ _ _ _ Hl Hi). destruct ro; [|done].
  cbn [is_OSError]. unfold TaskExecutor.remove_readonly.
  rewrite (io_bind_prefixed _ _ _ _ _ _ (os_chmod_at_entry _ _ _ _ _ _ _ _ Hl Hi)).
  cbn [set_readonly].
  erewrite os_unlink_at_entry;
    [|by eapply lookup_put_node_some|by rewrite lookup_insert_eq].
  done.
Qed.

(** The same for an empty directory and [os.rmdir]. *)
Lemma rmdir_with_handler t c k p ro es i roi :
  lookup_node t p = Some (Dir ro es) → es !! i = Some (Dir roi ∅) →
  try_except is_OSError (os_rmdir_at (p ++ [i])) (remove_readonly os_rmdir_at (p ++ [i]))
    (State t c k)
  = if ro
    then (inl (OSError EACCES (show_loc (p ++ [i]))),
          State (put_node t p (Some (Dir ro (<[i := Dir false ∅]> es)))) c k, [])
    else (inr tt, State (put_node t p (Some (Dir ro (delete i es)))) c k, []).
Proof.
  intros Hl Hi. unfold try_except.
  rewrite (os_rmdir_at_entry _ _ _ _ _ _ _ _ Hl Hi). destruct ro.
  - cbn [is_OSError]. unfold TaskExecutor.remove_readonly.
    rewrite (io_bind_prefixed _ _ _ _ _ _ (os_chmod_at_entry _ _ _ _ _ _ _ _ Hl Hi)).
    cbn [set_readonly].
    erewrite os_rmdir_at_entry;
      [|by eapply lookup_put_node_some|by rewrite lookup_insert_eq].
    done.
  - by rewrite bool_decide_true.
Qed.

(** *** Trees that can be removed *)

Lemma removable_dir ro (es : gmap string node) :
  removable (Dir ro es) = true
  ↔ (ro = false ∨ es = ∅) ∧ ∀ i x, es !! i = Some x → removable x = true.
Proof.
  simpl. rewrite andb_true_iff, orb_true_iff, negb_true_iff, bool_decide_eq_true.
  by rewrite (map_fold_andb (λ _ c, removable c)).
Qed.

Lemma removable_insert ro (m : gmap string node) i x :
  m !! i = None →
  removable (Dir ro (<[i:=x]> m)) = negb ro && removable x && removable (Dir ro m).
Proof.
  intros Hi. apply Bool.eq_iff_eq_true.
  rewrite !andb_true_iff, !removable_dir, negb_true_iff. split.
  - intros [[->|H] Hall]; [|by apply insert_non_empty in H].
    split_and!; [done| |by left|].
    + apply (Hall i). by rewrite lookup_insert_eq.
    + intros j y Hj. apply (Hall j). rewrite lookup_insert_ne; [done|]. by intros ->; simplify_eq.
  - intros [[-> Hx] [_ Hall]]. split; [by left|].
    intros j y. rewrite lookup_insert. case_decide; [|by apply Hall].
    by intros [= <-].
Qed.

(** The walk of [shutil.rmtree] with the handler of [_delete].  A tree that
    can be removed is emptied, write-protected files and all, nothing is
    raised and the rest of the file system stays.  In any other tree the
    walk meets an entry of a write-protected directory: the refusal is
    raised and the directory still has entries. *)
Lemma rmtree_loop_spec snap :
  ∀ t c k p ro (es : gmap string node),
    snap = Dir ro es →
    lookup_node t p = Some snap →
    ∃ r es',
      rmtree_loop remove_readonly snap p (State t c k)
      = (r, State (put_node t p (Some (Dir ro es'))) c k, [])
      ∧ (removable snap = true → r = inr tt ∧ es' = ∅)
      ∧ (removable snap = false →
         (∃ q, r = inl (OSError EACCES (show_loc q))) ∧ es' ≠ ∅).
Proof.
  induction snap as [|ro' es' IH] using node_ind'; [done|].
  intros t c k p ro es [= -> ->] Hl. simpl rmtree_loop.
  match goal with |- context [map_fold ?f (io_ret tt) es] => set (F := f) end.
  set (P := λ (r : IO unit) (m : gmap string node),
    (∀ i x, m !! i = Some x → es !! i = Some x) →
    ∀ t es0, lookup_node t p = Some (Dir ro es0) →
      (∀ i x, m !! i = Some x → es0 !! i = Some x) →
      ∃ res es1,
        r (State t c k) = (res, State (put_node t p (Some (Dir ro es1))) c k, [])
        ∧ (removable (Dir ro m) = true → res = inr tt ∧ es1 = es0 ∖ m)
        ∧ (removable (Dir ro m) = false →
           (∃ q, res = inl (OSError EACCES (show_loc q))) ∧ es1 ≠ ∅)).
  assert (∀ m, P (map_fold F (io_ret tt) m) m) as Hfold.
  { apply (map_fold_weak_ind P F (io_ret tt)); unfold P.
    - intros _ t0 es0 Hl0 _. exists (inr tt), es0. split_and!.
      + by rewrite (put_node_id _ _ _ Hl0).
      + intros _. by rewrite map_difference_empty.
      + intros H. exfalso. revert H. by destruct ro.
    - intros i x m r Hi Hr Hsub t0 es0 Hl0 Hsub0.
      destruct (Hr (λ j y Hj, Hsub j y ltac:(
                  rewrite lookup_insert_ne; [done|by intros ->; simplify_eq]))
                  t0 es0 Hl0
                  (λ j y Hj, Hsub0 j y ltac:(
                  rewrite lookup_insert_ne; [done|by intros ->; simplify_eq])))
        as (res & es1 & Hr0 & Hok & Hko).
      rewrite (removable_insert _ _ _ _ Hi).
      unfold F at 1.
      destruct (removable (Dir ro m)) eqn:Hm.
      2:{ destruct (Hko eq_refl) as [[q ->] Hne]. exists (inl (OSError EACCES (show_loc q))), es1.
          split_and!.
          - by rewrite (io_bind_raised _ _ _ _ _ _ Hr0).
          - by rewrite andb_false_r.
          - eauto. }
      destruct (Hok eq_refl) as [-> ->]. clear Hok Hko.
      rewrite (io_bind_prefixed _ _ _ _ _ _ Hr0), prefixed_nil.
      set (t1 := put_node t0 p (Some (Dir ro (es0 ∖ m)))).
      assert (lookup_node t1 p = Some (Dir ro (es0 ∖ m))) as Hl1
        by (by eapply lookup_put_node_some).
      assert (es0 !! i = Some x) as Hx0 by (apply Hsub0, lookup_insert_eq).
      assert ((es0 ∖ m) !! i = Some x) as Hx1 by (by apply lookup_difference_Some).
      assert (∀ es2, put_node t1 p (Some (Dir ro es2)) = put_node t0 p (Some (Dir ro es2)))
        as Hput by (intros es2; unfold t1; by rewrite put_node_put_node by (right; eauto)).
      assert (delete i (es0 ∖ m) = es0 ∖ <[i:=x]> m) as Hdel
        by (by rewrite <-(delete_difference _ _ _ x)).
      rewrite andb_true_r.
      destruct x as [d mt rox|rox esx].
      + rewrite (unlink_with_handler _ _ _ _ _ _ _ _ _ _ Hl1 Hx1), !Hput.
        destruct ro; cbn [negb andb removable].
        * eexists _, _. split_and!; [done|done|]. intros _. split; [eauto|].
          apply insert_non_empty.
        * eexists _, _. split_and!; [done| |done]. intros _. by rewrite Hdel.
      + destruct (IH i _ ltac:(apply Hsub, lookup_insert_eq) t1 c k (p ++ [i]) rox esx eq_refl)
          as (r2 & esx' & Hrec & Hok2 & Hko2).
        { by rewrite (lookup_node_entry _ _ _ _ _ Hl1). }
        assert (put_node t1 (p ++ [i]) (Some (Dir rox esx'))
                = put_node t0 p (Some (Dir ro (<[i := Dir rox esx']> (es0 ∖ m))))) as Hin.
        { unfold t1. by rewrite (put_node_in _ _ _ _ _ _ _ _ Hl0). }
        rewrite Hin in Hrec.
        destruct (removable (Dir rox esx)) eqn:Hx.
        2:{ destruct (Hko2 eq_refl) as [[q ->] Hne].
            exists (inl (OSError EACCES (show_loc q))), (<[i := Dir rox esx']> (es0 ∖ m)).
            split_and!.
            - by rewrite (io_bind_raised _ _ _ _ _ _ Hrec).
            - by rewrite andb_false_r.
            - intros _. split; [eauto|]. apply insert_non_empty. }
        destruct (Hok2 eq_refl) as [-> ->]. clear Hok2 Hko2.
        rewrite (io_bind_prefixed _ _ _ _ _ _ Hrec), prefixed_nil.
        erewrite rmdir_with_handler;
          [|by eapply lookup_put_node_some|by rewrite lookup_insert_eq].
        rewrite !put_node_put_node by (right; eauto).
        destruct ro; cbn [negb andb].
        * eexists _, _. split_and!; [done|done|]. intros _. split; [eauto|].
          apply insert_non_empty.
        * eexists _, _. split_and!; [done| |done]. intros _. split; [done|].
          by rewrite delete_insert_eq, Hdel. }
  destruct (Hfold es (λ _ _ H, H) t es Hl (λ _ _ H, H)) as (r & es1 & Hr & Hok & Hko).
  exists r, es1. split_and!; [done| |done].
  intros H. destruct (Hok H) as [-> ->]. by rewrite map_difference_diag.
Qed.


(** *** [shutil.rmtree] on a directory *)

Lemma os_rmdir_cases s st0 st1 p ro :
  locate st0 s = Some p → cwd st1 = cwd st0 →
  lookup_node (root st1) p = Some (Dir ro ∅) →
  (p ≠ [] ∧ writable_dir (root st1) (removelast p) = true
   ∧ os_rmdir s st1
     = (inr tt, State (put_node (root st1) p None) (cwd st1) (clock st1), []))
  ∨ (∃ e, is_OSError e = true ∧ os_rmdir s st1 = (inl e, st1, [])).
Proof.
  intros Hp Hc Hl. unfold os_rmdir. rewrite get_state_bind.
  case_bool_decide; [right; eexists; split; [|reflexivity]; reflexivity|].
  case_bool_decide; [right; eexists; split; [|reflexivity]; reflexivity|].
  destruct (locate st1 s) as [p'|] eqn:Hp'; [|right; eexists; split; [|reflexivity]; reflexivity].
  assert (p = p') as <- by (by eapply (locate_inj st0 st1)).
  unfold os_rmdir_at. rewrite get_state_bind, Hl.
  case_bool_decide; [right; eexists; split; [|reflexivity]; reflexivity|].
  destruct (writable_dir (root st1) (removelast p)) eqn:Hw;
    [|right; eexists; split; [|reflexivity]; reflexivity].
  cbn [negb]. rewrite bool_decide_true by done. cbn [negb].
  left. split_and!; [done..|]. by destruct st1.
Qed.

(** [shutil.rmtree] with the handler of [_delete], on a directory that can
    be removed entry by entry: what was in the directory is gone in every
    case, nothing is logged, and either the directory went too, or the
    final [os.rmdir] was refused, and again after the handler cleared the
    flag, and the refusal is raised. *)
Lemma shutil_rmtree_dir s st p ro es :
  locate st s = Some p →
  lookup_node (root st) p = Some (Dir ro es) →
  removable (Dir ro es) = true →
  (p ≠ []
   ∧ shutil_rmtree s remove_readonly st
     = (inr tt, State (put_node (root st) p None) (cwd st) (clock st), []))
  ∨ (∃ e ro',
       shutil_rmtree s remove_readonly st
       = (inl e, State (put_node (root st) p (Some (Dir ro' ∅))) (cwd st) (clock st), [])).
Proof.
  intros Hp Hl Hrem. unfold shutil_rmtree. rewrite get_state_bind, Hp, Hl.
  destruct st as [t c k]. cbn [root cwd clock] in *.
  destruct (rmtree_loop_spec _ t c k p ro es eq_refl Hl) as (r & es' & Hloop & Hok & _).
  destruct (Hok Hrem) as [-> ->].
  rewrite (io_bind_prefixed _ _ _ _ _ _ Hloop), prefixed_nil.
  set (t1 := put_node t p (Some (Dir ro ∅))).
  assert (lookup_node t1 p = Some (Dir ro ∅)) as Hl1 by (by eapply lookup_put_node_some).
  unfold try_except.
  destruct (os_rmdir_cases s (State t c k) (State t1 c k) p ro Hp eq_refl Hl1)
    as [(Hne & _ & ->)|(e & He & ->)].
  { left. split; [done|]. cbn [root cwd clock]. unfold t1.
    by rewrite put_node_put_node by (by left). }
  rewrite He. unfold TaskExecutor.remove_readonly.
  rewrite (io_bind_prefixed _ _ _ _ _ _ (os_chmod_at_writable _ _ _ _ _ Hl1)).
  cbn [set_readonly]. rewrite prefixed_nil.
  set (t2 := put_node t1 p (Some (Dir false ∅))).
  assert (t2 = put_node t p (Some (Dir false ∅))) as Ht2
    by (unfold t2, t1; by rewrite put_node_put_node by (right; eauto)).
  assert (lookup_node t2 p = Some (Dir false ∅)) as Hl2 by (by eapply lookup_put_node_some).
  destruct (os_rmdir_cases s (State t c k) (State t2 c k) p false Hp eq_refl Hl2)
    as [(Hne & _ & ->)|(e' & He' & ->)].
  - left. split; [done|]. cbn [root cwd clock]. rewrite Ht2.
    by rewrite put_node_put_node by (by left).
  - right. exists e', false. by rewrite Ht2.
Qed.

(** On any other directory the walk stops where a write-protected
    directory holds an entry: [PermissionError] is raised, and the
    directory is still there, with entries. *)
Lemma shutil_rmtree_refused s st p ro es :
  locate st s = Some p →
  lookup_node (root st) p = Some (Dir ro es) →
  removable (Dir ro es) = false →
  ∃ q es',
    shutil_rmtree s remove_readonly st
    = (inl (OSError EACCES (show_loc q)),
       State (put_node (root st) p (Some (Dir ro es'))) (cwd st) (clock st), [])
    ∧ es' ≠ ∅.
Proof.
  intros Hp Hl Hrem. unfold shutil_rmtree. rewrite get_state_bind, Hp, Hl.
  destruct st as [t c k]. cbn [root cwd clock] in *.
  destruct (rmtree_loop_spec _ t c k p ro es eq_refl Hl) as (r & es' & Hloop & _ & Hko).
  destruct (Hko Hrem) as [[q ->] Hne]. exists q, es'. split; [|done].
  by rewrite (io_bind_raised _ _ _ _ _ _ Hloop).
Qed.

(** *** Paths without [..] resolve the same once a directory is emptied *)

Lemma foldl_step_prefix cur cs : Up ∉ cs → cur `prefix_of` foldl step cur cs.
Proof.
  revert cur. induction cs as [|c cs IH]; intros cur Hup; simpl; [done|].
  apply not_elem_of_cons in Hup as [Hc Hup].
  etrans; [|by apply IH]. destruct c; simpl; [done|done|by apply prefix_app_r].
Qed.

Lemma walk_stable t t' cur cs p :
  Up ∉ cs → walk t cur cs = Some p →
  (∀ q, q `prefix_of` p → is_dir t' q = is_dir t q) →
  walk t' cur cs = Some p.
Proof.
  revert cur. induction cs as [|c cs IH]; intros cur Hup Hw Hd; simpl in *; [done|].
  destruct (is_dir t cur) eqn:E; [|done].
  pose proof Hup as [Hc Hup']%not_elem_of_cons.
  rewrite Hd, E; [by apply IH|].
  apply walk_loc in Hw as ->. etrans; [|by apply foldl_step_prefix].
  destruct c; simpl; [done|done|by apply prefix_app_r].
Qed.

Lemma is_dir_put_node_above t q r o :
  r ≠ [] → is_dir t q = true → is_dir (put_node t (q ++ r) o) q = true.
Proof.
  revert t. induction q as [|c q IH]; intros t Hr Hd.
  - destruct r as [|c r]; [done|]. unfold is_dir in *. simpl in Hd.
    destruct t as [|ro es]; [done|]. by destruct r.
  - unfold is_dir in *. destruct t as [|ro es]; [done|]. simpl in Hd.
    destruct (es !! c) as [t'|] eqn:E; [simpl in Hd|done].
    assert (put_node (Dir ro es) ((c :: q) ++ r) o
            = Dir ro (alter (λ t', put_node t' (q ++ r) o) c es)) as ->.
    { simpl. destruct (q ++ r) eqn:Hqr; [|done]. by apply app_eq_nil in Hqr as [_ ?]. }
    simpl. rewrite lookup_alter_eq, E. simpl. by apply IH.
Qed.

Lemma is_dir_emptied t p ro es ro' q :
  lookup_node t p = Some (Dir ro es) → q `prefix_of` p →
  is_dir (put_node t p (Some (Dir ro' ∅))) q = is_dir t q.
Proof.
  intros Hl [r ->]. destruct r as [|c r].
  - rewrite app_nil_r in *. unfold is_dir.
    by rewrite (lookup_put_node_some _ _ _ _ Hl), Hl.
  - assert (is_dir t q = true) as Hq.
    { unfold is_dir. rewrite lookup_node_app in Hl.
      destruct (lookup_node t q) as [[|]|]; done. }
    rewrite Hq. by apply is_dir_put_node_above.
Qed.

(** A put at [p] says nothing on the flag of the directory that holds
    [p]. *)
Lemma writable_dir_put_node t p n o :
  p ≠ [] → lookup_node t p = Some n →
  writable_dir (put_node t p o) (removelast p) = writable_dir t (removelast p).
Proof.
  intros Hne Hl. destruct (snoc_removelast p Hne) as [i Hi].
  assert (is_dir t (removelast p) = true) as Hd.
  { rewrite Hi in Hl. by eapply (lookup_node_prefix_dir _ _ [i]). }
  unfold is_dir in Hd.
  destruct (lookup_node t (removelast p)) as [[|rop esp]|] eqn:Hpar; [done| |done].
  rewrite Hi at 1. rewrite (put_node_child _ _ _ _ _ _ Hpar).
  unfold writable_dir. by rewrite (lookup_put_node_some _ _ _ _ Hpar), Hpar.
Qed.

(** With a tree that can be removed entry by entry, in a directory that is
    not write-protected, under a name with no [..] that does not end in
    [.], the directory goes. *)
Lemma shutil_rmtree_removes s st p ro es :
  locate st s = Some p →
  lookup_node (root st) p = Some (Dir ro es) →
  removable (Dir ro es) = true →
  writable_dir (root st) (removelast p) = true →
  p ≠ [] → Up ∉ components s → last_word s ≠ Some "." →
  shutil_rmtree s remove_readonly st
  = (inr tt, State (put_node (root st) p None) (cwd st) (clock st), []).
Proof.
  intros Hp Hl Hrem Hw Hne Hup Hdot.
  unfold shutil_rmtree. rewrite get_state_bind, Hp, Hl.
  destruct st as [t c k]. cbn [root cwd clock] in *.
  destruct (rmtree_loop_spec _ t c k p ro es eq_refl Hl) as (r & es' & Hloop & Hok & _).
  destruct (Hok Hrem) as [-> ->].
  rewrite (io_bind_prefixed _ _ _ _ _ _ Hloop), prefixed_nil.
  set (t1 := put_node t p (Some (Dir ro ∅))).
  assert (lookup_node t1 p = Some (Dir ro ∅)) as Hl1 by (by eapply lookup_put_node_some).
  assert (os_rmdir s (State t1 c k) = os_rmdir_at p (State t1 c k)) as Hrm.
  { unfold os_rmdir. rewrite get_state_bind.
    rewrite bool_decide_false by done.
    rewrite bool_decide_false.
    2:{ intros Hx. apply Hup. unfold components, last_word in *.
        apply last_Some_elem_of, list_elem_of_filter in Hx as [_ Hx].
        apply list_elem_of_fmap. by exists "..". }
    assert (locate (State t1 c k) s = Some p) as ->; [|done].
    unfold locate, start in *. cbn [root cwd] in *.
    destruct (truthy s); [|done].
    eapply walk_stable; [done..|]. intros q Hq. by eapply is_dir_emptied. }
  unfold try_except. rewrite Hrm.
  unfold os_rmdir_at. rewrite get_state_bind. cbn [root]. rewrite Hl1.
  rewrite bool_decide_false by done.
  unfold t1 at 1. rewrite (writable_dir_put_node _ _ _ _ Hne Hl), Hw. cbn [negb].
  rewrite bool_decide_true by done. cbn [negb].
  unfold set_root, t1. cbn [cwd clock].
  by rewrite put_node_put_node by (by left).
Qed.

End removal.

(** ** Deletion *)

Lemma append_empty s : s +:+ "" = s.
Proof.
  induction s as [|c s IH]; [done|].
  change (String c (s +:+ "") = String c s). by f_equal.
Qed.

Lemma split_slash_append_slash s : split_slash (s +:+ "/") = split_slash s ++ [""].
Proof.
  induction s as [|c s IH]; [done|].
  change (split_slash (String c (s +:+ "/")) = split_slash (String c s) ++ [""]).
  simpl. rewrite IH. case_bool_decide; [done|].
  destruct (split_slash_cons s) as (w & ws & ->). done.
Qed.

Lemma walk_app t cur cs1 cs2 :
  walk t cur (cs1 ++ cs2) = walk t cur cs1 ≫= λ q, walk t q cs2.
Proof.
  revert cur. induction cs1 as [|c cs1 IH]; intros cur; simpl; [done|].
  destruct (is_dir t cur); [apply IH|done].
Qed.

Lemma startswith_append s s' pre : truthy s = true → String.length pre = 1%nat →
  startswith (s +:+ s') pre = startswith s pre.
Proof.
  destruct s as [|c s]; [done|]. destruct pre as [|c' [|? ?]]; [done| |done].
  intros _ _. unfold startswith.
  change (String c s +:+ s') with (String c (s +:+ s')). simpl.
  destruct (ascii_dec c' c); [|done]. by destruct (s +:+ s'), s.
Qed.

Section join_empty.

Context (st : state) (base : string) (p : loc).
Hypothesis Hp : locate st base = Some p.
Hypothesis Hd : is_dir (root st) p = true.

Lemma base_truthy : truthy base = true.
Proof using Hp. unfold locate in Hp. by destruct (truthy base). Qed.

(** The base directory joined with the empty string names the base
    directory itself. *)
Lemma locate_join_empty : locate st (os_path_join base "") = Some p.
Proof using Hp Hd.
  unfold os_path_join. simpl. rewrite base_truthy. simpl.
  destruct (endswith base "/"); [by rewrite append_empty|].
  rewrite append_empty. pose proof Hp as Hw. unfold locate in Hw |- *.
  rewrite truthy_append, base_truthy. simpl. rewrite base_truthy in Hw.
  unfold start, components in Hw |- *.
  rewrite startswith_append by (done || apply base_truthy).
  rewrite split_slash_append_slash, fmap_app, walk_app, Hw. simpl. by rewrite Hd.
Qed.

Lemma components_join_empty : Up ∉ components base → Up ∉ components (os_path_join base "").
Proof using Hp.
  unfold os_path_join. simpl. rewrite base_truthy. simpl.
  destruct (endswith base "/"); rewrite append_empty; [done|].
  unfold components. rewrite split_slash_append_slash, fmap_app.
  intros H [?|H']%elem_of_app; [done|]. by apply list_elem_of_singleton in H'.
Qed.

Lemma last_word_join_empty : last_word (os_path_join base "") = last_word base.
Proof using Hp.
  unfold os_path_join. simpl. rewrite base_truthy. simpl.
  destruct (endswith base "/"); rewrite append_empty; [done|].
  unfold last_word. rewrite split_slash_append_slash, filter_app.
  by rewrite app_nil_r.
Qed.

End join_empty.

Section deletion.

Variable zip_extractall : string → string → state → option exception * node.
Variable tar_extractall : string → string → state → option exception * node.

Local Arguments String.append : simpl never.

Local Abbreviation _delete := (TaskExecutor._delete).
Local Abbreviation remove_readonly := (TaskExecutor.remove_readonly).
Local Abbreviation action_map := (TaskExecutor.action_map zip_extractall tar_extractall).
Local Abbreviation execute_task := (TaskExecutor.execute_task zip_extractall tar_extractall).

Lemma _delete_dir self source destination st :
  isdir_path st source = true →
  _delete self source destination st
  = prefixed [Log INFO ("Deleting " +:+ source +:+ "...")]
      (shutil_rmtree source remove_readonly st).
Proof.
  intros Hd. unfold TaskExecutor._delete, os_path_isdir, logging_info.
  io_steps. by rewrite Hd.
Qed.

Lemma isdir_path_inv st s :
  isdir_path st s = true →
  ∃ p ro es, locate st s = Some p ∧ lookup_node (root st) p = Some (Dir ro es).
Proof.
  unfold isdir_path, is_dir. destruct (locate st s) as [p|]; [|done].
  destruct (lookup_node (root st) p) as [[|ro es]|] eqn:E; [done| |done].
  by exists p, ro, es.
Qed.

(** C7 (the code departs from the claim). A directory is not removed
    when it, or a directory below it, is write-protected and holds an
    entry.  [os.unlink] and [os.rmdir] ask the directory that holds the
    entry; the handler clears the flag of the entry, not of that directory,
    so the call it repeats is refused like the first, and the
    [PermissionError] leaves [shutil.rmtree] and [_delete].  The directory
    is still there, with entries. *)
Theorem delete_stops_at_a_write_protected_directory
    (self : TaskExecutor.t) source destination st p ro es :
  locate st source = Some p →
  lookup_node (root st) p = Some (Dir ro es) →
  removable (Dir ro es) = false →
  ∃ q st' es',
    _delete self source destination st
    = (inl (OSError EACCES (show_loc q)), st',
       [Log INFO ("Deleting " +:+ source +:+ "...")])
    ∧ lookup_node (root st') p = Some (Dir ro es')
    ∧ es' ≠ ∅.
Proof.
  intros Hp Hl Hrem.
  assert (isdir_path st source = true) as Hd
    by (unfold isdir_path, is_dir; by rewrite Hp, Hl).
  rewrite (_delete_dir _ _ _ _ Hd).
  destruct (shutil_rmtree_refused source st p ro es Hp Hl Hrem) as (q & es' & -> & Hne).
  exists q. eexists _, es'. split_and!; [done| |done].
  cbn [root fst snd]. by eapply lookup_put_node_some.
Qed.

(** The other path states of [_delete]: a directory that can be removed
    entry by entry is emptied, write-protected files and all; a file goes,
    write-protected or not, from a directory that is not write-protected;
    a path that names nothing is left alone with a warning. *)
Lemma delete_path_states (self : TaskExecutor.t) source destination st :
  (∀ p ro es,
     locate st source = Some p → lookup_node (root st) p = Some (Dir ro es) →
     removable (Dir ro es) = true →
     ∃ r st',
       _delete self source destination st
       = (r, st', [Log INFO ("Deleting " +:+ source +:+ "...")])
       ∧ (∀ q, q ≠ [] → lookup_node (root st') (p ++ q) = None)
       ∧ (p ≠ [] → writable_dir (root st) (removelast p) = true →
          Up ∉ components source → last_word source ≠ Some "." →
          r = inr tt ∧ exists_path st' source = false))
  ∧ (∀ p d m ro,
       locate st source = Some p → lookup_node (root st) p = Some (File d m ro) →
       writable_dir (root st) (removelast p) = true →
       ∃ st',
         _delete self source destination st
         = (inr tt, st', [Log INFO ("Deleting " +:+ source +:+ "...")])
         ∧ exists_path st' source = false)
  ∧ (exists_path st source = false →
     _delete self source destination st
     = (inr tt, st,
        [Log INFO ("Deleting " +:+ source +:+ "...");
         Log WARNING ("Path " +:+ source +:+ " does not exist.")])).
Proof.
  split_and!.
  - intros p ro es Hp Hl Hrem.
    assert (isdir_path st source = true) as Hd
      by (unfold isdir_path, is_dir; by rewrite Hp, Hl).
    rewrite (_delete_dir _ _ _ _ Hd).
    destruct (shutil_rmtree_dir source st p ro es Hp Hl Hrem) as [[Hne H]|(e & ro' & H)].
    + rewrite H. unfold prefixed. cbn [fst snd app]. eexists _, _. split; [done|].
      cbn [root]. split.
      * intros q Hq. rewrite (lookup_put_node_below _ _ _ _ _ Hl); [done|by left].
      * intros _ _ _ _. split; [done|]. by eapply exists_path_removed.
    + rewrite H. unfold prefixed. cbn [fst snd app]. eexists _, _. split; [done|].
      cbn [root]. split.
      * intros q Hq. rewrite (lookup_put_node_below _ _ _ _ _ Hl) by (right; eauto).
        simpl. destruct q; [done|]. simpl. by rewrite lookup_empty.
      * intros Hne Hw Hup Hdot.
        by rewrite (shutil_rmtree_removes _ _ _ _ _ Hp Hl Hrem Hw Hne Hup Hdot) in H.
  - intros p d m ro Hp Hl Hw. eexists. split; [by eapply _delete_file|].
    eapply exists_path_removed; [done..|]. by eapply locate_file_not_root.
  - intros He. apply _delete_missing.
    + unfold exists_path, isdir_path, is_dir in *.
      destruct (locate st source) as [p|]; [|done].
      destruct (lookup_node (root st) p); [|done].
      by rewrite bool_decide_true in He by eauto.
    + unfold exists_path, isfile_path, is_file in *.
      destruct (locate st source) as [p|]; [|done].
      destruct (lookup_node (root st) p); [|done].
      by rewrite bool_decide_true in He by eauto.
Qed.

(** C10. A delete task with no source: the source handed to [_delete] is
    the base directory joined with the empty string, which names the base
    directory itself.  When that directory exists, the task returns.  When
    it can be removed entry by entry (no write-protected directory in it
    holds an entry), nothing is left inside the directory; and the
    directory itself is gone when the file system can remove it under the
    name it was given (it is not the root, the directory that holds it is
    not write-protected, and the name has no [..] and does not end in
    [.]). *)
Theorem delete_without_source_deletes_the_base_directory
    (self : TaskExecutor.t) (task : task_dict) st p :
  task !! "action" = Some (Text "delete") →
  task !! "source" = None →
  text_or_absent (task !! "destination") = true →
  locate st (TaskExecutor.base_dir self) = Some p →
  is_dir (root st) p = true →
  task_source self task = os_path_join (TaskExecutor.base_dir self) ""
  ∧ locate st (task_source self task) = Some p
  ∧ ∃ st' evs,
      execute_task self task st = (inr tt, st', evs)
      ∧ (removable_at (root st) p = true →
         ∀ q, q ≠ [] → lookup_node (root st') (p ++ q) = None)
      ∧ (removable_at (root st) p = true →
         writable_dir (root st) (removelast p) = true →
         p ≠ [] →
         Up ∉ components (TaskExecutor.base_dir self) →
         last_word (TaskExecutor.base_dir self) ≠ Some "." →
         evs = [Log INFO ("Deleting " +:+ task_source self task +:+ "...")]
         ∧ root st' = put_node (root st) p None
         ∧ exists_path st' (TaskExecutor.base_dir self) = false).
Proof.
  intros Ha Hs Htd Hp Hd.
  assert (task_source self task = os_path_join (TaskExecutor.base_dir self) "") as Hsrc
    by (unfold task_source, text_field; by rewrite Hs).
  pose proof (locate_join_empty st _ p Hp Hd) as Hp'.
  rewrite Hsrc. split_and!; [done..|].
  assert (action_map self !! "delete" = Some (_delete self)) as Hm
    by (by rewrite action_map_lookup).
  assert (paths_are_text task = true) as Ht
    by (unfold paths_are_text; by rewrite Hs, Htd).
  rewrite (execute_task_known _ _ _ _ _ _ _ Ha Hm Ht), Hsrc.
  unfold is_dir in Hd. unfold removable_at.
  destruct (lookup_node (root st) p) as [[|ro es]|] eqn:Hl; [done| |done].
  assert (isdir_path st (os_path_join (TaskExecutor.base_dir self) "") = true) as Hdir
    by (unfold isdir_path, is_dir; by rewrite Hp', Hl).
  unfold try_except. rewrite (_delete_dir _ _ _ _ Hdir).
  destruct (removable (Dir ro es)) eqn:Hrem.
  2:{ destruct (shutil_rmtree_refused _ st p ro es Hp' Hl Hrem) as (q & es' & -> & _).
      unfold prefixed, emit. cbn [fst snd app Exception]. by eexists _, _. }
  destruct (shutil_rmtree_dir _ st p ro es Hp' Hl Hrem) as [[Hne H]|(e & ro' & H)].
  - rewrite H. unfold prefixed. cbn [fst snd app is_OSError Exception]. eexists _, _.
    split; [done|]. cbn [root]. split.
    + intros _ q Hq. rewrite (lookup_put_node_below _ _ _ _ _ Hl); [done|by left].
    + intros _ _ _ _ _. split_and!; [done..|]. by eapply exists_path_removed.
  - assert (writable_dir (root st) (removelast p) = true → p ≠ [] →
            Up ∉ components (TaskExecutor.base_dir self) →
            last_word (TaskExecutor.base_dir self) ≠ Some "." → False) as Hno.
    { intros Hw Hne Hup Hdot.
      rewrite (shutil_rmtree_removes _ _ _ _ _ Hp' Hl Hrem Hw Hne) in H; [done| |].
      - by eapply components_join_empty.
      - by erewrite last_word_join_empty. }
    rewrite H. unfold prefixed, emit. cbn [fst snd app Exception]. eexists _, _.
    split; [done|]. cbn [root]. split.
    + intros _ q Hq. rewrite (lookup_put_node_below _ _ _ _ _ Hl) by (right; eauto).
      simpl. destruct q; [done|]. simpl. by rewrite lookup_empty.
    + intros _ Hw Hne Hup Hdot. by destruct Hno.
Qed.

End deletion.

(** ** Creation of directories *)

Lemma lookup_put_node_apart t p q o :
  apart p q → lookup_node (put_node t p o) q = lookup_node t q.
Proof.
  revert t q. induction p as [|c p IH]; intros t q [Hpq Hqp].
  { destruct Hpq. apply prefix_nil. }
  destruct q as [|c' q]; [destruct Hqp; apply prefix_nil|].
  destruct t as [|ro es]; [done|].
  destruct (decide (c = c')) as [<-|Hc].
  - assert (apart p q) as Hpq'.
    { split; intros H; [apply Hpq|apply Hqp]; by apply prefix_cons. }
    destruct p as [|c2 p2]; [destruct Hpq' as [H _]; destruct H; apply prefix_nil|].
    change (lookup_node (Dir ro (alter (λ t', put_node t' (c2 :: p2) o) c es)) (c :: q)
            = lookup_node (Dir ro es) (c :: q)).
    simpl. rewrite lookup_alter_eq. destruct (es !! c) as [t'|]; [simpl|done].
    by apply IH.
  - destruct p as [|c2 p2]; simpl.
    + by rewrite lookup_partial_alter_ne.
    + by rewrite lookup_alter_ne.
Qed.

Lemma extends_refl t : extends t t.
Proof. by split. Qed.

Lemma extends_trans t1 t2 t3 : extends t1 t2 → extends t2 t3 → extends t1 t3.
Proof. intros [H1 H2] [H3 H4]. split; intros; eauto. Qed.

(** A new entry extends the tree. *)
Lemma extends_put_new t q n :
  q ≠ [] → lookup_node t q = None → is_dir t (removelast q) = true →
  extends t (put_node t q (Some n)).
Proof.
  intros Hq Hl Hd. destruct (snoc_removelast q Hq) as [i Hqi].
  assert (∀ q', (∃ x, lookup_node t q' = Some x) →
            q' `prefix_of` removelast q ∨ apart q q') as Hcases.
  { intros q' [x Hx].
    destruct (decide (q `prefix_of` q')) as [[r ->]|Hn1].
    { rewrite lookup_node_app, Hl in Hx. done. }
    destruct (decide (q' `prefix_of` q)) as [[r Hr]|Hn2]; [|by right].
    left. destruct r as [|c r] using rev_ind.
    - rewrite app_nil_r in Hr. subst q'. destruct Hn1. done.
    - rewrite Hr, app_assoc, removelast_last. by exists r. }
  split.
  - intros q' Hq'.
    destruct (Hcases q') as [[r Hr]|Ha].
    { unfold is_dir in Hq'. destruct (lookup_node t q'); [eauto|done]. }
    + rewrite Hqi, Hr, <-app_assoc. apply is_dir_put_node_above; [by destruct r|done].
    + unfold is_dir in *. by rewrite lookup_put_node_apart.
  - intros q' d m ro Hq'.
    destruct (Hcases q') as [[r Hr]|Ha]; [eauto| |by rewrite lookup_put_node_apart].
    unfold is_dir in Hd. rewrite Hr, lookup_node_app, Hq' in Hd. by destruct r.
Qed.

Lemma walk_extends t t' cur cs p :
  extends t t' → walk t cur cs = Some p → walk t' cur cs = Some p.
Proof.
  intros [He _]. revert cur. induction cs as [|c cs IH]; intros cur; simpl; [done|].
  destruct (is_dir t cur) eqn:E; [|done]. rewrite (He _ E). apply IH.
Qed.

Lemma os_mkdir_at_new t c k q :
  lookup_node t q = None → writable_dir t (removelast q) = true →
  os_mkdir_at q (State t c k)
  = (inr tt, State (put_node t q (Some (Dir false ∅))) c k, []).
Proof.
  intros Hl Hd. unfold os_mkdir_at. rewrite get_state_bind. cbn [root]. rewrite Hl.
  unfold writable_dir in Hd. by destruct (lookup_node t (removelast q)) as [[|[]]|].
Qed.

Lemma os_mkdir_at_refused t c k q :
  is_dir t (removelast q) = true → writable_dir t (removelast q) = false →
  ∃ e, os_mkdir_at q (State t c k) = (inl e, State t c k, []).
Proof.
  intros Hd Hw. unfold os_mkdir_at. rewrite get_state_bind. cbn [root].
  destruct (lookup_node t q); [by eexists|].
  unfold is_dir, writable_dir in *.
  destruct (lookup_node t (removelast q)) as [[|[]]|]; try done. by eexists.
Qed.

(** A walk that creates what is missing: the same walk, in the tree it
    leaves, finds every directory. *)
Lemma mkwalk_spec cs : ∀ cur st p st1 evs,
  mkwalk cur cs st = (inr p, st1, evs) →
  walk (root st1) cur cs = Some p
  ∧ extends (root st) (root st1) ∧ cwd st1 = cwd st.
Proof.
  induction cs as [|c cs IH]; intros cur st p st1 evs H.
  { injection H as <- <- <-. split_and!; [done|apply extends_refl|done]. }
  simpl in H. rewrite get_state_bind in H.
  destruct (lookup_node (root st) cur) as [[|ro es]|] eqn:Hcur; [done| |done].
  assert (is_dir (root st) cur = true) as Hd by (unfold is_dir; by rewrite Hcur).
  assert (∀ st0 p0 st2 evs0,
            extends (root st) (root st0) → cwd st0 = cwd st →
            mkwalk (step cur c) cs st0 = (inr p0, st2, evs0) →
            walk (root st2) cur (c :: cs) = Some p0
            ∧ extends (root st) (root st2) ∧ cwd st2 = cwd st) as Hnext.
  { intros st0 p0 st2 evs0 He Hc Hw.
    apply IH in Hw as (Hw & He' & Hc').
    pose proof (extends_trans _ _ _ He He') as He2.
    split_and!; [|done|congruence].
    simpl. by rewrite (proj1 He2 _ Hd). }
  destruct c as [| |n]; [by eapply Hnext; [apply extends_refl|..]..|].
  destruct (lookup_node (root st) (cur ++ [n])) as [x|] eqn:Hn.
  { by eapply Hnext; [apply extends_refl|..]. }
  destruct st as [t c k]. cbn [root cwd] in *.
  assert (is_dir t (removelast (cur ++ [n])) = true) as Hd'
    by (by rewrite removelast_snoc).
  destruct (writable_dir t (removelast (cur ++ [n]))) eqn:Hw; last first.
  { destruct (os_mkdir_at_refused t c k _ Hd' Hw) as [e He].
    by rewrite (io_bind_raised _ _ _ _ _ _ He) in H. }
  rewrite (io_bind_prefixed _ _ _ _ _ _ (os_mkdir_at_new _ _ _ _ Hn Hw)), prefixed_nil in H.
  eapply (Hnext (State _ c k)); [|done|exact H].
  apply extends_put_new; [by destruct cur|done..].
Qed.

(** [os.makedirs(s, exist_ok=True)] that returns: [s] is a directory,
    nothing that was there is lost, and nothing is logged. *)
Lemma os_makedirs_spec s st st1 evs :
  os_makedirs s st = (inr tt, st1, evs) →
  isdir_path st1 s = true ∧ extends (root st) (root st1)
  ∧ cwd st1 = cwd st ∧ evs = [].
Proof.
  intros H.
  assert (evs = []) as -> by (pose proof (silent_os_makedirs s st) as Hs; by rewrite H in Hs).
  unfold os_makedirs in H. destruct (truthy s) eqn:Hs; [|done].
  revert H. unfold makedirs_from. io_steps.
  destruct (mkwalk (start st s) (components s) st) as [[[e|p] st2] evs2] eqn:Hw.
  { by rewrite (io_bind_raised _ _ _ _ _ _ Hw). }
  rewrite (io_bind_prefixed _ _ _ _ _ _ Hw). io_steps.
  apply mkwalk_spec in Hw as (Hw & He & Hc).
  destruct (is_dir (root st2) p) eqn:Hd; [|by destruct evs2].
  io_steps. unfold io_ret, prefixed. simpl. intros [= <- _].
  split_and!; [|done..].
  unfold isdir_path, locate, start in *. rewrite Hs, Hc, Hw. done.
Qed.

(** ** Copy of a file *)

Lemma is_dir_removelast t q : is_dir t q = true → is_dir t (removelast q) = true.
Proof.
  intros H. destruct (decide (q = [])) as [->|Hq]; [done|].
  destruct (snoc_removelast q Hq) as [i Hi]. rewrite Hi in H.
  unfold is_dir in H. destruct (lookup_node t (removelast q ++ [i])) eqn:E; [|done].
  eapply lookup_node_prefix_dir; [|exact E]. done.
Qed.

(** Where a path that resolves ends: at a directory, or at a name in a
    directory. *)
Lemma walk_last t cs : ∀ cur p,
  cs ≠ [] → walk t cur cs = Some p →
  is_dir t p = true ∨ (p ≠ [] ∧ is_dir t (removelast p) = true).
Proof.
  induction cs as [|c cs IH]; intros cur p Hcs Hw; [done|]. simpl in Hw.
  destruct (is_dir t cur) eqn:Hd; [|done].
  destruct cs as [|c2 cs].
  - simpl in Hw. injection Hw as <-. destruct c as [| |n]; simpl.
    + by left.
    + left. by apply is_dir_removelast.
    + right. split; [by destruct cur|]. by rewrite removelast_snoc.
  - by eapply IH.
Qed.

Lemma locate_last st s p :
  locate st s = Some p → is_dir (root st) p = false →
  p ≠ [] ∧ is_dir (root st) (removelast p) = true.
Proof.
  unfold locate, components. destruct (truthy s); [|done].
  destruct (split_slash_cons s) as (w & ws & ->). intros Hw Hd.
  apply walk_last in Hw as [Hw|Hw]; [congruence|done|done].
Qed.

Lemma is_dir_put_file t dp n q :
  dp ≠ [] → is_dir t (removelast dp) = true → is_dir t dp = false →
  is_dir t q = true → is_dir (put_node t dp (Some n)) q = true.
Proof.
  intros Hne Hpar Hnd Hq.
  destruct (decide (dp `prefix_of` q)) as [[r ->]|Hn1].
  { exfalso. destruct r as [|c r].
    - rewrite app_nil_r in Hq. congruence.
    - unfold is_dir in Hq. destruct (lookup_node t (dp ++ c :: r)) eqn:E; [|done].
      eapply (lookup_node_prefix_dir _ dp (c :: r)) in E; [congruence|done]. }
  destruct (decide (q `prefix_of` dp)) as [[r ->]|Hn2].
  - apply is_dir_put_node_above; [|done]. intros ->. rewrite app_nil_r in Hn1. by destruct Hn1.
  - unfold is_dir in *. by rewrite lookup_put_node_apart.
Qed.

Lemma walk_mono t t' cur cs p :
  (∀ q, is_dir t q = true → is_dir t' q = true) →
  walk t cur cs = Some p → walk t' cur cs = Some p.
Proof.
  intros He. revert cur. induction cs as [|c cs IH]; intros cur; simpl; [done|].
  destruct (is_dir t cur) eqn:E; [|done]. rewrite (He _ E). apply IH.
Qed.

Lemma locate_mono st st' s p :
  (∀ q, is_dir (root st) q = true → is_dir (root st') q = true) → cwd st' = cwd st →
  locate st s = Some p → locate st' s = Some p.
Proof.
  intros He Hc. unfold locate, start. rewrite Hc. destruct (truthy s); [|done].
  by apply walk_mono.
Qed.

Lemma isdir_path_mono st st' s :
  (∀ q, is_dir (root st) q = true → is_dir (root st') q = true) → cwd st' = cwd st →
  isdir_path st s = true → isdir_path st' s = true.
Proof.
  intros He Hc. unfold isdir_path.
  destruct (locate st s) as [p|] eqn:Hp; [|done].
  rewrite (locate_mono _ _ _ _ He Hc Hp). apply He.
Qed.

Lemma write_file_at_spec t c k dp data :
  dp ≠ [] → is_dir t (removelast dp) = true →
  (lookup_node t dp = None ∧ writable_dir t (removelast dp) = true
   ∨ ∃ d' m', lookup_node t dp = Some (File d' m' false)) →
  write_file_at dp data (State t c k)
  = (inr tt, State (put_node t dp (Some (File data k false))) c (k + 1), []).
Proof.
  intros Hne Hpar Hl. unfold write_file_at. rewrite get_state_bind. cbn [root].
  destruct Hl as [[-> Hw]|(d' & m' & ->)].
  - unfold writable_dir in Hw.
    destruct (lookup_node t (removelast dp)) as [[|[]]|]; [done..| |done].
    by rewrite tick_bind.
  - by rewrite tick_bind.
Qed.

(** [shutil.copy2] onto a free name in a directory that is not
    write-protected, or onto a file that is not write-protected: the
    destination is the source, content, time and flag. *)
Lemma shutil_copy2_at_spec t c k sp dp name data mt ro :
  lookup_node t sp = Some (File data mt ro) →
  dp ≠ [] → is_dir t (removelast dp) = true →
  (lookup_node t dp = None ∧ writable_dir t (removelast dp) = true
   ∨ ∃ d' m', lookup_node t dp = Some (File d' m' false)) →
  sp ≠ dp →
  shutil_copy2_at sp dp name (State t c k)
  = (inr tt, State (put_node t dp (Some (File data mt ro))) c (k + 1), []).
Proof.
  intros Hs Hne Hpar Hd Hsd.
  assert (is_dir t dp = false) as Hnd
    by (unfold is_dir; destruct Hd as [[-> _]|(? & ? & ->)]; done).
  assert (apart dp sp) as Hap.
  { split; intros [r Hr].
    - destruct r as [|x r]; [by rewrite app_nil_r in Hr|].
      rewrite Hr in Hs. eapply (lookup_node_prefix_dir _ dp (x :: r)) in Hs; [congruence|done].
    - destruct r as [|x r] using rev_ind; [by rewrite app_nil_r in Hr|].
      rewrite Hr, app_assoc, removelast_snoc in Hpar.
      unfold is_dir in Hpar. rewrite lookup_node_app, Hs in Hpar. by destruct r. }
  unfold shutil_copy2_at. rewrite get_state_bind. cbn [root]. rewrite Hnd.
  unfold shutil_copyfile_at. rewrite io_bind_assoc, get_state_bind. cbn [root].
  rewrite Hs. rewrite bool_decide_false by done.
  rewrite (io_bind_prefixed _ _ _ _ _ _ (write_file_at_spec _ _ _ _ _ Hne Hpar Hd)),
    prefixed_nil.
  unfold shutil_copystat_at. rewrite get_state_bind. cbn [root].
  rewrite (lookup_put_node_apart _ _ _ _ Hap), Hs.
  assert (lookup_node (put_node t dp (Some (File data k false))) dp
          = Some (File data k false)) as ->.
  { destruct (snoc_removelast dp Hne) as [i Hi].
    unfold is_dir in Hpar.
    destruct (lookup_node t (removelast dp)) as [[|rop esp]|] eqn:Hp; [done| |done].
    rewrite Hi at 1 2. rewrite (put_node_child _ _ _ _ _ _ Hp), lookup_node_app.
    rewrite (lookup_put_node_some _ _ _ _ Hp). simpl.
    by rewrite lookup_partial_alter_eq. }
  cbn [copy_stat]. unfold set_root. cbn [cwd clock].
  destruct (snoc_removelast dp Hne) as [i Hi].
  unfold is_dir in Hpar.
  destruct (lookup_node t (removelast dp)) as [[|rop esp]|] eqn:Hp; [done| |done].
  do 3 f_equal. rewrite Hi.
  rewrite (put_node_child _ _ _ _ _ _ Hp).
  erewrite put_node_child by (by eapply lookup_put_node_some).
  rewrite put_node_put_node by (right; eauto).
  rewrite (put_node_child _ _ _ _ _ _ Hp).
  by rewrite partial_alter_partial_alter_eq.
Qed.

Section copy_file.

Variable zip_extractall : string → string → state → option exception * node.
Variable tar_extractall : string → string → state → option exception * node.

Local Arguments String.append : simpl never.
Local Abbreviation _copy := (TaskExecutor._copy).

(** A file copied by [_copy]: the directory of the destination is made,
    and the destination is the source, content, time and flag. *)
Lemma _copy_file (self : TaskExecutor.t) source destination st sp data mt ro st1 evs1 dp :
  truthy destination = true →
  locate st source = Some sp →
  lookup_node (root st) sp = Some (File data mt ro) →
  os_makedirs (os_path_dirname destination) st = (inr tt, st1, evs1) →
  locate st1 destination = Some dp →
  (lookup_node (root st1) dp = None ∧ writable_dir (root st1) (removelast dp) = true
   ∨ ∃ d' m', lookup_node (root st1) dp = Some (File d' m' false)) →
  sp ≠ dp →
  ∃ st',
    _copy self source (Some destination) st
    = (inr tt, st', [Log INFO ("Copying " +:+ source +:+ " to " +:+ destination +:+ "...")])
    ∧ isdir_path st' (os_path_dirname destination) = true
    ∧ locate st' destination = Some dp
    ∧ lookup_node (root st') dp = Some (File data mt ro)
    ∧ (∀ q, apart dp q → lookup_node (root st') q = lookup_node (root st1) q).
Proof.
  intros Htd Hsp Hs Hmk Hdp Hd Hsd.
  apply os_makedirs_spec in Hmk as Hmk'. destruct Hmk' as (Hdir & Hext & Hcwd & ->).
  assert (isdir_path st source = false) as Hnd
    by (unfold isdir_path, is_dir; by rewrite Hsp, Hs).
  assert (locate st1 source = Some sp) as Hsp1
    by (eapply locate_mono; [apply Hext|done..]).
  assert (lookup_node (root st1) sp = Some (File data mt ro)) as Hs1 by (by apply Hext).
  assert (is_dir (root st1) dp = false) as Hnd1
    by (unfold is_dir; destruct Hd as [[-> _]|(? & ? & ->)]; done).
  destruct (locate_last _ _ _ Hdp Hnd1) as [Hne Hpar].
  destruct st1 as [t1 c1 k1]. cbn [root cwd clock] in *.
  eexists. split; [|split_and!].
  - unfold TaskExecutor._copy. cbn [truthy_opt negb default]. rewrite Htd. cbn [negb].
    unfold logging_info, os_path_isdir. io_steps. rewrite Hnd.
    rewrite (io_bind_prefixed _ _ _ _ _ _ Hmk), prefixed_nil.
    unfold shutil_copy2. rewrite get_state_bind.
    unfold isdir_path, id. cbv zeta. rewrite Hdp. cbn [root]. rewrite Hnd1. rewrite ?Hdp, Hsp1, Hs1.
    unfold shutil_copy2_at in *.
    pose proof (shutil_copy2_at_spec t1 c1 k1 sp dp "" data mt ro Hs1 Hne Hpar Hd Hsd) as Hc.
    unfold shutil_copy2_at in Hc. rewrite get_state_bind in Hc. cbn [root] in Hc.
    rewrite Hnd1 in Hc. rewrite Hc. unfold prefixed. cbn [fst snd app]. reflexivity.
  - eapply (isdir_path_mono (State t1 c1 k1)); [|done|exact Hdir].
    intros q. by apply is_dir_put_file.
  - eapply (locate_mono (State t1 c1 k1)); [|done|exact Hdp].
    intros q. by apply is_dir_put_file.
  - cbn [root]. destruct (snoc_removelast dp Hne) as [i Hi].
    unfold is_dir in Hpar.
    destruct (lookup_node t1 (removelast dp)) as [[|rop esp]|] eqn:Hp; [done| |done].
    rewrite Hi. rewrite (put_node_child _ _ _ _ _ _ Hp), lookup_node_app.
    rewrite (lookup_put_node_some _ _ _ _ Hp). simpl.
    by rewrite lookup_partial_alter_eq.
  - intros q Hq. cbn [root]. by apply lookup_put_node_apart.
Qed.

End copy_file.

(** ** Copy of a tree *)

Lemma apart_sym p q : apart p q → apart q p.
Proof. by intros [? ?]. Qed.

Lemma apart_app (p q r r' : loc) : apart p q → apart (p ++ r) (q ++ r').
Proof.
  revert q. induction p as [|c p IH]; intros q [Hpq Hqp].
  { destruct Hpq. apply prefix_nil. }
  destruct q as [|c' q]; [destruct Hqp; apply prefix_nil|].
  destruct (decide (c = c')) as [<-|Hc].
  - assert (apart p q) as Ha.
    { split; intros H; [apply Hpq|apply Hqp]; by apply prefix_cons. }
    apply IH in Ha as [H1 H2].
    split; intros H; [apply H1|apply H2]; by eapply prefix_cons_inv_2.
  - split; intros H; apply prefix_cons_inv_1 in H; congruence.
Qed.

Lemma apart_app_l (p q r : loc) : apart p q → apart (p ++ r) q.
Proof. intros H. rewrite <-(app_nil_r q). by apply apart_app. Qed.

Lemma map_fold_insert_each {A B} (g : string → A → B) (base : gmap string B)
    (m : gmap string A) i x :
  m !! i = None →
  map_fold (λ j y acc, <[j := g j y]> acc) base (<[i:=x]> m)
  = <[i := g i x]> (map_fold (λ j y acc, <[j := g j y]> acc) base m).
Proof.
  intros Hi. apply (map_fold_insert_L (λ j y acc, <[j := g j y]> acc)); [|done].
  intros j1 j2 z1 z2 y Hj _ _. by apply insert_insert_ne.
Qed.

Lemma lookup_map_fold_insert_each {A B} (g : string → A → B) (base : gmap string B)
    (m : gmap string A) n :
  map_fold (λ j y acc, <[j := g j y]> acc) base m !! n
  = match m !! n with Some x => Some (g n x) | None => base !! n end.
Proof.
  apply (map_fold_weak_ind (λ r m, r !! n = match m !! n with
                                              | Some x => Some (g n x)
                                              | None => base !! n
                                              end)).
  - by rewrite lookup_empty.
  - intros i x m' r Hi IH. rewrite !lookup_insert. by case_decide; subst.
Qed.

Lemma fits_dir ro es d :
  fits (Dir ro es) d = true →
  (d = None ∨ ∃ rod esd, d = Some (Dir rod esd))
  ∧ ∀ n c, es !! n = Some c →
      fits c (entries_of d !! n) = true
      ∧ (entries_of d !! n = None → takes_entries d = true).
Proof.
  simpl.
  rewrite andb_true_iff,
    (map_fold_andb (λ n c, fits c (entries_of d !! n)
                           && (bool_decide (is_Some (entries_of d !! n)) || takes_entries d))).
  intros [Hd H]. split.
  { destruct d as [[|rod esd]|]; [done|right; eauto|by left]. }
  intros n c Hc. apply H in Hc as [Hf Hn]%andb_true_iff. split; [done|].
  intros Hnone. rewrite Hnone in Hn. apply orb_true_iff in Hn as [Hn|Hn]; [|done].
  apply bool_decide_eq_true in Hn as [? ?]. done.
Qed.

Lemma collect_returned src dst (m : IO unit) st st' :
  m st = (inr tt, st', []) → collect src dst m st = (inr [], st', []).
Proof.
  intros H. unfold collect, try_except.
  by rewrite (io_bind_prefixed _ _ _ _ _ _ H).
Qed.

(** *** The directory a copy is made into *)

Lemma mkwalk_app cs1 cs2 cur st :
  mkwalk cur (cs1 ++ cs2) st = io_bind (mkwalk cur cs1) (λ p, mkwalk p cs2) st.
Proof.
  revert cur st. induction cs1 as [|c cs1 IH]; intros cur st; simpl.
  { by rewrite io_ret_bind. }
  rewrite io_bind_assoc, !get_state_bind.
  destruct (lookup_node (root st) cur) as [[|ro es]|]; [by rewrite raise_bind| |by rewrite raise_bind].
  destruct c as [| |n]; [apply IH..|].
  destruct (lookup_node (root st) (cur ++ [n])); [apply IH|].
  rewrite io_bind_assoc. apply io_bind_ext. intros _ st'. apply IH.
Qed.

Lemma mkwalk_names r : ∀ q t c k,
  is_dir t (q ++ r) = true →
  mkwalk q (Name <$> r) (State t c k) = (inr (q ++ r), State t c k, []).
Proof.
  induction r as [|i r IH]; intros q t c k Hd; simpl.
  { by rewrite app_nil_r. }
  rewrite get_state_bind. cbn [root].
  assert (is_dir t (q ++ [i]) = true) as Hqi.
  { destruct r as [|j r]; [done|]. unfold is_dir in Hd.
    destruct (lookup_node t (q ++ i :: j :: r)) eqn:E; [|done].
    eapply (lookup_node_prefix_dir _ (q ++ [i]) (j :: r)); [done|].
    by rewrite <-app_assoc. }
  assert (is_dir t q = true) as Hq.
  { unfold is_dir in Hqi. destruct (lookup_node t (q ++ [i])) eqn:E; [|done].
    by eapply (lookup_node_prefix_dir _ q [i]). }
  unfold is_dir in Hq, Hqi.
  destruct (lookup_node t q) as [[|]|]; [done| |done].
  destruct (lookup_node t (q ++ [i])); [|done].
  rewrite IH; [by rewrite <-app_assoc|]. by rewrite <-app_assoc.
Qed.

(** [os.makedirs] of an entry of a directory: made if it is missing, left
    alone if it is a directory. *)
Lemma os_makedirs_at_entry t c k dp n :
  is_dir t dp = true →
  (lookup_node t (dp ++ [n]) = None → writable_dir t dp = true →
   os_makedirs_at (dp ++ [n]) (State t c k)
   = (inr tt, State (put_node t (dp ++ [n]) (Some (Dir false ∅))) c k, []))
  ∧ (is_dir t (dp ++ [n]) = true →
     os_makedirs_at (dp ++ [n]) (State t c k) = (inr tt, State t c k, [])).
Proof.
  intros Hd. unfold os_makedirs_at, makedirs_from. split.
  - intros Hn Hwr.
    unfold is_dir in Hd. destruct (lookup_node t dp) as [[|rod esd]|] eqn:Hdp; [done| |done].
    assert (is_dir t dp = true) as Hd' by (unfold is_dir; by rewrite Hdp).
    assert (writable_dir t (removelast (dp ++ [n])) = true) as Hpar
      by (by rewrite removelast_snoc).
    assert (mkwalk [] (Name <$> (dp ++ [n])) (State t c k)
            = (inr (dp ++ [n]),
               State (put_node t (dp ++ [n]) (Some (Dir false ∅))) c k, [])) as Hmw.
    { rewrite fmap_app, mkwalk_app.
      pose proof (mkwalk_names dp [] t c k) as Hw. simpl in Hw.
      rewrite (io_bind_prefixed _ _ _ _ _ _ (Hw Hd')), prefixed_nil. simpl.
      rewrite get_state_bind. cbn [root]. rewrite Hdp, Hn.
      by rewrite (io_bind_prefixed _ _ _ _ _ _ (os_mkdir_at_new _ _ _ _ Hn Hpar)). }
    rewrite io_bind_assoc.
    rewrite (io_bind_prefixed _ _ _ _ _ _ Hmw), prefixed_nil.
    io_steps. cbn [root].
    assert (is_dir (put_node t (dp ++ [n]) (Some (Dir false ∅))) (dp ++ [n]) = true) as ->.
    { unfold is_dir. rewrite (put_node_child _ _ _ _ _ _ Hdp), lookup_node_app.
      rewrite (lookup_put_node_some _ _ _ _ Hdp). simpl.
      by rewrite lookup_partial_alter_eq. }
    by io_steps.
  - intros Hn. rewrite io_bind_assoc.
    pose proof (mkwalk_names (dp ++ [n]) [] t c k) as Hw. simpl in Hw.
    rewrite (io_bind_prefixed _ _ _ _ _ _ (Hw Hn)), prefixed_nil.
    io_steps. cbn [root]. rewrite Hn. by io_steps.
Qed.

(** *** The walk of [shutil.copytree] *)

Lemma lookup_put_node_entry t dp rod (es : gmap string node) n :
  lookup_node (put_node t dp (Some (Dir rod es))) (dp ++ [n]) = es !! n ∨
  lookup_node t dp = None.
Proof.
  destruct (lookup_node t dp) as [x|] eqn:E; [left|by right].
  rewrite lookup_node_app, (lookup_put_node_some _ _ _ _ E). simpl.
  by destruct (es !! n).
Qed.

(** The entry [n] of the directory at [dp] set to [x], in a tree where the
    directory was just put. *)
Lemma put_node_entry t dp rod (es : gmap string node) n x d :
  lookup_node t dp = Some d →
  put_node (put_node t dp (Some (Dir rod es))) (dp ++ [n]) (Some x)
  = put_node t dp (Some (Dir rod (<[n:=x]> es))).
Proof.
  intros Hd. erewrite put_node_child by (by eapply lookup_put_node_some).
  by rewrite put_node_put_node by (right; eauto).
Qed.

(** The walk, on a source and a destination directory that are apart and
    fit: nothing is raised or logged, and the destination directory is the
    merge of the two. *)
Lemma copytree_loop_spec snap :
  ∀ t c k sp dp d,
    lookup_node t sp = Some snap →
    lookup_node t dp = Some d →
    (∃ ros ess, snap = Dir ros ess) → (∃ rod esd, d = Dir rod esd) →
    fits snap (Some d) = true →
    apart sp dp →
    ∃ k',
      copytree_loop snap sp dp (State t c k)
      = (inr tt, State (put_node t dp (Some (merged snap (Some d)))) c k', []).
Proof.
  induction snap as [|ros ess IH] using node_ind'.
  { by intros ?????? _ _ [? [? ?]]. }
  intros t c k sp dp d Hs Hd _ (rod & esd & ->) Hfit Hap.
  apply fits_dir in Hfit as [_ Hfit]. cbn [entries_of] in Hfit.
  cbn [copytree_loop merged entries_of].
  set (INS := λ (name : string) (child : node) (acc : gmap string node),
                <[name := merged child (esd !! name)]> acc).
  match goal with |- context [map_fold ?f (io_ret []) ess] => set (F := f) end.
  set (P := λ (r : IO (list (string * string * string))) (m : gmap string node),
    (∀ i x, m !! i = Some x → ess !! i = Some x) →
    ∀ k0, ∃ k',
      r (State t c k0)
      = (inr [], State (put_node t dp (Some (Dir rod (map_fold INS esd m)))) c k', [])).
  assert (∀ m, P (map_fold F (io_ret []) m) m) as Hfold.
  { apply (map_fold_weak_ind P F (io_ret [])); unfold P.
    - intros _ k0. exists k0. rewrite map_fold_empty.
      by rewrite (put_node_id _ _ _ Hd).
    - intros n x m r Hn Hr Hsub k0.
      assert (∀ j y, m !! j = Some y → ess !! j = Some y) as Hsub'.
      { intros j y Hj. apply Hsub. rewrite lookup_insert_ne; [done|].
        by intros ->; simplify_eq. }
      destruct (Hr Hsub' k0) as [k1 Hr0].
      assert (ess !! n = Some x) as Hx by (apply Hsub, lookup_insert_eq).
      unfold F at 1. rewrite (io_bind_prefixed _ _ _ _ _ _ Hr0), prefixed_nil.
      set (E := map_fold INS esd m).
      set (t1 := put_node t dp (Some (Dir rod E))).
      assert (lookup_node t1 dp = Some (Dir rod E)) as Hd1
        by (by eapply lookup_put_node_some).
      assert (is_dir t1 dp = true) as Hdir1 by (unfold is_dir; by rewrite Hd1).
      assert (writable_dir t1 dp = negb rod) as Hwr1 by (unfold writable_dir; by rewrite Hd1).
      assert (E !! n = esd !! n) as HEn
        by (unfold E, INS; by rewrite lookup_map_fold_insert_each, Hn).
      assert (lookup_node t1 (dp ++ [n]) = esd !! n) as Hdn.
      { rewrite lookup_node_app, Hd1. simpl. rewrite HEn. by destruct (esd !! n). }
      assert (lookup_node t1 (sp ++ [n]) = Some x) as Hsn.
      { unfold t1. rewrite lookup_put_node_apart by (by apply apart_sym, apart_app_l).
        rewrite lookup_node_app, Hs. simpl. rewrite Hx. by destruct x. }
      assert (map_fold INS esd (<[n:=x]> m) = <[n := merged x (esd !! n)]> E) as HE'
        by (by apply (map_fold_insert_each (λ j y, merged y (esd !! j)))).
      rewrite HE'. destruct (Hfit n x Hx) as [Hfx Hnew]. cbn [takes_entries is_readonly] in Hnew.
      destruct x as [data mt ro|roc esc].
      + assert (shutil_copy2_at (sp ++ [n]) (dp ++ [n]) n (State t1 c k1)
                = (inr tt, State (put_node t1 (dp ++ [n]) (Some (File data mt ro))) c (k1 + 1),
                   [])) as Hcp.
        { apply shutil_copy2_at_spec; [done|by destruct dp|by rewrite removelast_snoc| |].
          - rewrite Hdn, removelast_snoc, Hwr1. simpl in Hfx.
            destruct (esd !! n) as [[d' m' []|]|]; eauto; done.
          - intros Heq. apply app_inj_tail in Heq as [-> _]. by destruct Hap as [[] _]. }
        rewrite (io_bind_prefixed _ _ _ _ _ _ (collect_returned _ _ _ _ _ Hcp)), prefixed_nil.
        exists (k1 + 1). unfold io_ret, t1. cbn [app].
        by rewrite (put_node_entry _ _ _ _ _ _ _ Hd).
      + assert (∃ t2 d2 rod2,
                  os_makedirs_at (dp ++ [n]) (State t1 c k1) = (inr tt, State t2 c k1, [])
                  ∧ lookup_node t2 (dp ++ [n]) = Some d2
                  ∧ d2 = Dir rod2 (entries_of (esd !! n))
                  ∧ put_node t2 (dp ++ [n]) (Some (merged (Dir roc esc) (Some d2)))
                    = put_node t1 (dp ++ [n]) (Some (merged (Dir roc esc) (esd !! n)))
                  ∧ lookup_node t2 (sp ++ [n]) = Some (Dir roc esc)
                  ∧ fits (Dir roc esc) (Some d2) = true) as Hmk.
        { destruct (os_makedirs_at_entry t1 c k1 dp n Hdir1) as [Hnew0 Hold].
          destruct (esd !! n) as [[|rod2 esd2]|] eqn:Hen; [done| |].
          - exists t1, (Dir rod2 esd2), rod2. split_and!; [|done..].
            apply Hold. unfold is_dir. by rewrite Hdn.
          - exists (put_node t1 (dp ++ [n]) (Some (Dir false ∅))), (Dir false ∅), false.
            split_and!; [apply Hnew0; [done|by rewrite Hwr1; apply Hnew]| |done| | |exact Hfx].
            + rewrite (put_node_child _ _ _ _ _ _ Hd1), lookup_node_app.
              rewrite (lookup_put_node_some _ _ _ _ Hd1). simpl.
              by rewrite lookup_partial_alter_eq.
            + by rewrite put_node_put_node by (right; eauto).
            + rewrite lookup_put_node_apart; [done|].
              by apply apart_sym, apart_app. }
        destruct Hmk as (t2 & d2 & rod2 & Hmk & Hd2 & Hd2' & Hput & Hs2 & Hfit2).
        destruct (IH n _ Hx t2 c k1 (sp ++ [n]) (dp ++ [n]) d2) as [k2 Hrec];
          [done|done|by eauto|by subst; eauto|done|by apply apart_app|].
        assert ((os_makedirs_at (dp ++ [n]);;
                 copytree_loop (Dir roc esc) (sp ++ [n]) (dp ++ [n])) (State t1 c k1)
                = (inr tt,
                   State (put_node t1 (dp ++ [n])
                            (Some (merged (Dir roc esc) (esd !! n)))) c k2, [])) as Hboth.
        { rewrite (io_bind_prefixed _ _ _ _ _ _ Hmk), prefixed_nil. by rewrite Hrec, Hput. }
        rewrite (io_bind_prefixed _ _ _ _ _ _ (collect_returned _ _ _ _ _ Hboth)), prefixed_nil.
        exists k2. unfold io_ret, t1. cbn [app].
        by rewrite (put_node_entry _ _ _ _ _ _ _ Hd). }
  destruct (Hfold ess (λ _ _ H, H) k) as [k1 Hr].
  rewrite (io_bind_prefixed _ _ _ _ _ _ Hr), prefixed_nil.
  set (E := map_fold INS esd ess) in *.
  set (t1 := put_node t dp (Some (Dir rod E))) in *.
  assert (lookup_node t1 dp = Some (Dir rod E)) as Hd1 by (by eapply lookup_put_node_some).
  assert (lookup_node t1 sp = Some (Dir ros ess)) as Hs1
    by (unfold t1; by rewrite lookup_put_node_apart by (by apply apart_sym)).
  assert (shutil_copystat_at sp dp (State t1 c k1)
          = (inr tt, State (put_node t dp (Some (Dir ros E))) c k1, [])) as Hst.
  { unfold shutil_copystat_at. rewrite get_state_bind. cbn [root]. rewrite Hs1, Hd1.
    cbn [copy_stat is_readonly]. unfold set_root, t1. cbn [cwd clock].
    by rewrite put_node_put_node by (right; eauto). }
  rewrite (io_bind_prefixed _ _ _ _ _ _ (collect_returned _ _ _ _ _ Hst)), prefixed_nil.
  by exists k1.
Qed.

(** *** What the merge holds *)

Lemma lookup_merged_entry ros ess d n :
  lookup_node (merged (Dir ros ess) d) [n]
  = match ess !! n with
    | Some c => Some (merged c (entries_of d !! n))
    | None => entries_of d !! n
    end.
Proof.
  simpl.
  rewrite (lookup_map_fold_insert_each (λ j y, merged y (entries_of d !! j))).
  destruct (ess !! n); [done|]. by destruct (entries_of d !! n).
Qed.

Lemma lookup_merged_cons ros ess d n r :
  lookup_node (merged (Dir ros ess) d) (n :: r)
  = match ess !! n with
    | Some c => lookup_node (merged c (entries_of d !! n)) r
    | None => entries_of d !! n ≫= λ x, lookup_node x r
    end.
Proof.
  simpl.
  rewrite (lookup_map_fold_insert_each (λ j y, merged y (entries_of d !! j))).
  by destruct (ess !! n).
Qed.

(** A file of the source is in the merge as it is in the source. *)
Lemma lookup_merged_file r : ∀ s d data m ro,
  lookup_node s r = Some (File data m ro) →
  lookup_node (merged s d) r = Some (File data m ro).
Proof.
  induction r as [|n r IH]; intros s d data m ro Hl.
  { simpl in Hl. by injection Hl as ->. }
  destruct s as [|ros ess]; [done|]. rewrite lookup_merged_cons.
  simpl in Hl. destruct (ess !! n) as [c|]; [|done]. by apply IH.
Qed.

(** Where the source has nothing, the merge has what the destination had. *)
Lemma lookup_merged_other r : ∀ s d,
  r ≠ [] → (∃ ros ess, s = Dir ros ess) → fits s d = true →
  lookup_node s r = None →
  lookup_node (merged s d) r = d ≫= λ x, lookup_node x r.
Proof.
  induction r as [|n r IH]; intros s d Hr (ros & ess & ->) Hfit Hl; [done|].
  apply fits_dir in Hfit as [Hd Hfit].
  rewrite lookup_merged_cons. simpl in Hl.
  assert ((d ≫= λ x, lookup_node x (n :: r))
          = entries_of d !! n ≫= λ x, lookup_node x r) as ->.
  { destruct Hd as [->|(rod & esd & ->)]; [|done].
    cbn [entries_of mbind option_bind]. by rewrite (lookup_empty (M:=gmap string)). }
  destruct (ess !! n) as [c|] eqn:Hc; [|done]. simpl in Hl.
  destruct (Hfit n c Hc) as [Hfc _].
  destruct r as [|n' r']; [done|].
  destruct c as [data m ro|roc esc].
  - simpl. simpl in Hfc. by destruct (entries_of d !! n) as [[|]|].
  - apply IH; [done|by eauto|done|done].
Qed.

(** ** Copy *)

Section copy.

Variable zip_extractall : string → string → state → option exception * node.
Variable tar_extractall : string → string → state → option exception * node.

Local Arguments String.append : simpl never.
Local Abbreviation _copy := (TaskExecutor._copy).

(** A directory copied by [_copy], onto a destination it fits and is
    apart from. *)
Lemma _copy_directory (self : TaskExecutor.t) source destination st sp ros ess st1 evs1 dp d :
  truthy destination = true →
  locate st source = Some sp →
  lookup_node (root st) sp = Some (Dir ros ess) →
  os_makedirs destination st = (inr tt, st1, evs1) →
  locate st1 destination = Some dp →
  lookup_node (root st1) dp = Some d →
  lookup_node (root st1) sp = Some (Dir ros ess) →
  apart sp dp →
  fits (Dir ros ess) (Some d) = true →
  ∃ st',
    _copy self source (Some destination) st
    = (inr tt, st', [Log INFO ("Copying " +:+ source +:+ " to " +:+ destination +:+ "...")])
    ∧ root st' = put_node (root st1) dp (Some (merged (Dir ros ess) (Some d)))
    ∧ (∀ r data m ro,
         lookup_node (Dir ros ess) r = Some (File data m ro) →
         lookup_node (root st') (dp ++ r) = Some (File data m ro))
    ∧ (∀ r, r ≠ [] → lookup_node (Dir ros ess) r = None →
         lookup_node (root st') (dp ++ r) = lookup_node (root st1) (dp ++ r))
    ∧ (∀ q, apart dp q → lookup_node (root st') q = lookup_node (root st1) q).
Proof.
  intros Htd Hsp Hs Hmk Hdp Hd Hs1 Hap Hfit.
  apply os_makedirs_spec in Hmk as Hmk'. destruct Hmk' as (Hdir & Hext & Hcwd & ->).
  assert (isdir_path st source = true) as Hisdir
    by (unfold isdir_path, is_dir; by rewrite Hsp, Hs).
  assert (∃ rod esd, d = Dir rod esd) as (rod & esd & ->).
  { unfold isdir_path, is_dir in Hdir. rewrite Hdp, Hd in Hdir. destruct d; [done|eauto]. }
  destruct st1 as [t1 c1 k1]. cbn [root cwd clock] in *.
  destruct (copytree_loop_spec (Dir ros ess) t1 c1 k1 sp dp (Dir rod esd)
              Hs1 Hd ltac:(eauto) ltac:(eauto) Hfit Hap) as [k2 Hloop].
  exists (State (put_node t1 dp (Some (merged (Dir ros ess) (Some (Dir rod esd))))) c1 k2).
  split_and!.
  - unfold TaskExecutor._copy. cbn [truthy_opt negb default from_option]. unfold id.
    rewrite Htd. cbn [negb].
    unfold logging_info, os_path_isdir. io_steps. rewrite Hisdir.
    unfold shutil_copytree. rewrite get_state_bind, Hsp, Hs.
    rewrite (io_bind_prefixed _ _ _ _ _ _ Hmk), prefixed_nil.
    rewrite get_state_bind, Hdp. by rewrite Hloop.
  - done.
  - intros r data m ro Hr. cbn [root].
    rewrite (lookup_put_node_below _ _ _ _ _ Hd) by (right; eauto).
    cbn [mbind option_bind]. by apply lookup_merged_file.
  - intros r Hne Hr. cbn [root].
    rewrite (lookup_put_node_below _ _ _ _ _ Hd) by (right; eauto).
    cbn [mbind option_bind]. rewrite lookup_merged_other by eauto.
    cbn [mbind option_bind]. by rewrite lookup_node_app, Hd.
  - intros q Hq. cbn [root]. by apply lookup_put_node_apart.
Qed.

(** C8. The copy operation.  With an empty destination ([None] or the
    empty string) it logs an error and changes nothing.  With a directory
    source and a destination directory that is apart from the source and
    that the source fits, it merges: the files of the source are at the
    destination with the source's content, time and flag, what the
    destination had where the source has nothing is as it was, and so is
    all that is apart from the destination.  With a file source it makes
    the directory of the destination and the destination, a free name in a
    directory that is not write-protected or a file that is not
    write-protected, becomes the source: content, modification time and
    flag. *)
Theorem copy_operation (self : TaskExecutor.t) (source : string) st :
  (∀ destination,
     truthy_opt destination = false →
     _copy self source destination st
     = (inr tt, st,
        [Log ERROR ("Destination not specified for copy action in "
                    +:+ get_default (scalars (TaskExecutor.repo self)) "name" "unknown")]))
  ∧ (∀ destination sp ros ess st1 evs1 dp d,
       truthy destination = true →
       locate st source = Some sp →
       lookup_node (root st) sp = Some (Dir ros ess) →
       os_makedirs destination st = (inr tt, st1, evs1) →
       locate st1 destination = Some dp →
       lookup_node (root st1) dp = Some d →
       lookup_node (root st1) sp = Some (Dir ros ess) →
       apart sp dp →
       fits (Dir ros ess) (Some d) = true →
       ∃ st',
         _copy self source (Some destination) st
         = (inr tt, st',
            [Log INFO ("Copying " +:+ source +:+ " to " +:+ destination +:+ "...")])
         ∧ root st' = put_node (root st1) dp (Some (merged (Dir ros ess) (Some d)))
         ∧ (∀ r data m ro,
              lookup_node (Dir ros ess) r = Some (File data m ro) →
              lookup_node (root st') (dp ++ r) = Some (File data m ro))
         ∧ (∀ r, r ≠ [] → lookup_node (Dir ros ess) r = None →
              lookup_node (root st') (dp ++ r) = lookup_node (root st1) (dp ++ r))
         ∧ (∀ q, apart dp q → lookup_node (root st') q = lookup_node (root st1) q))
  ∧ (∀ destination sp data mt ro st1 evs1 dp,
       truthy destination = true →
       locate st source = Some sp →
       lookup_node (root st) sp = Some (File data mt ro) →
       os_makedirs (os_path_dirname destination) st = (inr tt, st1, evs1) →
       locate st1 destination = Some dp →
       (lookup_node (root st1) dp = None ∧ writable_dir (root st1) (removelast dp) = true
        ∨ ∃ d' m', lookup_node (root st1) dp = Some (File d' m' false)) →
       sp ≠ dp →
       ∃ st',
         _copy self source (Some destination) st
         = (inr tt, st',
            [Log INFO ("Copying " +:+ source +:+ " to " +:+ destination +:+ "...")])
         ∧ isdir_path st' (os_path_dirname destination) = true
         ∧ locate st' destination = Some dp
         ∧ lookup_node (root st') dp = Some (File data mt ro)
         ∧ (∀ q, apart dp q → lookup_node (root st') q = lookup_node (root st1) q)).
Proof.
  split_and!.
  - intros destination H. by apply _copy_no_destination.
  - intros. by eapply _copy_directory.
  - intros. by eapply _copy_file.
Qed.

End copy.

(** * The theorems on the sample workspace *)

Lemma execute_tasks_never_raises_witness :
  let run tasks :=
    TaskExecutor.execute_tasks Sample.no_archive Sample.no_archive
      (Sample.executor tasks) Sample.st in
  (∃ st' evs, run [Sample.unknown_op; Sample.copy_A_B] = (inr tt, st', evs))
  ∧ (∃ st3 evs3,
       run [Sample.copy_ghost; Sample.delete_notes]
       = (inr tt, st3,
          [] ++ [Log INFO "Copying ws/ghost.txt to ws/B/ghost.txt..."]
          ++ task_error (Sample.executor [Sample.copy_ghost; Sample.delete_notes])
               Sample.copy_ghost (OSError ENOENT "ws/ghost.txt") :: evs3))
  ∧ (∃ st',
       run [Sample.bad_copy; Sample.delete_locked]
       = (inr tt, st',
          [Log ERROR "Destination not specified for copy action in edk2";
           Log INFO "Deleting ws/locked.txt..."])
       ∧ exists_path st' "ws/locked.txt" = false).
Proof.
  intros run. split_and!.
  - apply (proj1 (execute_tasks_never_raises Sample.no_archive Sample.no_archive
                    (Sample.executor [Sample.unknown_op; Sample.copy_A_B]))).
    repeat constructor.
  - destruct (proj1 (proj2 (execute_tasks_never_raises Sample.no_archive Sample.no_archive
                      (Sample.executor [Sample.copy_ghost; Sample.delete_notes])))
                [] Sample.copy_ghost [Sample.delete_notes] "copy"
                (TaskExecutor._copy
                   (Sample.executor [Sample.copy_ghost; Sample.delete_notes]))
                Sample.st Sample.st [] (OSError ENOENT "ws/ghost.txt") Sample.st
                [Log INFO "Copying ws/ghost.txt to ws/B/ghost.txt..."])
      as (st3 & evs3 & _ & H);
      [reflexivity|reflexivity|reflexivity|reflexivity|repeat constructor|reflexivity
      |vm_compute; reflexivity|].
    exists st3, evs3. exact H.
  - apply (proj2 (proj2 (execute_tasks_never_raises Sample.no_archive Sample.no_archive
                    (Sample.executor [Sample.bad_copy; Sample.delete_locked])))
             Sample.bad_copy Sample.delete_locked Sample.st ["ws"; "locked.txt"] "keep" 4 true);
      reflexivity.
Defined.

(** C1, where it fails.  A task whose source is null: the join raises
    before the [try], and [execute_tasks] raises to its caller.  So does a number for a
    destination and a list for an action; the tasks after it are not
    run.  And a file in a write-protected directory is not removed by the
    second task of [bad copy; delete (existing file)]. *)
Lemma execute_tasks_raises_on_a_null_source :
  let run tasks :=
    TaskExecutor.execute_tasks Sample.no_archive Sample.no_archive
      (Sample.executor tasks) in
  run [Sample.null_source; Sample.delete_notes] Sample.st
  = (inl (TypeError "join() argument must be str, bytes, or os.PathLike object, not 'NoneType'"),
     Sample.st, [])
  ∧ (¬ ∃ st' evs, run [Sample.null_source; Sample.delete_notes] Sample.st = (inr tt, st', evs))
  ∧ run [Sample.numbered] Sample.st
    = (inl (TypeError "join() argument must be str, bytes, or os.PathLike object, not 'int'"),
       Sample.st, [])
  ∧ run [Sample.listed] Sample.st
    = (inl (TypeError "unhashable type: 'list'"), Sample.st, [])
  ∧ run [Cases.copy_nowhere; Cases.delete_vault_file] Cases.st
    = (inr tt, Cases.st,
       [Log ERROR "Destination not specified for copy action in edk2";
        Log INFO "Deleting ws/vault/a.txt...";
        Log ERROR "Error during delete task for ws/vault/a.txt: [Errno 13] Permission denied: '/ws/vault/a.txt'"])
  ∧ exists_path Cases.st "ws/vault/a.txt" = true.
Proof.
  intros run. split_and!; [reflexivity| |reflexivity..].
  intros (st' & evs & H). discriminate H.
Defined.

Lemma unknown_action_is_logged_as_error_witness :
  TaskExecutor.execute_task Sample.no_archive Sample.no_archive
    (Sample.executor [Sample.unknown_op]) Sample.unknown_op Sample.st
  = (inr tt, Sample.st,
     [Log ERROR "Error during unknown-op task for ws/: 'str' object is not callable"]).
Proof.
  destruct (unknown_action_is_logged_as_error Sample.no_archive Sample.no_archive
              (Sample.executor [Sample.unknown_op]) Sample.unknown_op Sample.st)
    as (msg & Hrun & Hmsg).
  - intros a Ha. vm_compute in Ha. injection Ha as <-. split_and!; discriminate.
  - reflexivity.
  - rewrite Hrun, Hmsg. reflexivity.
Defined.

Lemma task_paths_are_relative_to_the_project_root_witness :
  let main :=
    BootstrapManager.main Sample.git_succeeds Sample.offline Sample.no_archive
      Sample.no_archive Sample.parse in
  let clone_repository :=
    RepoManager.clone_repository Sample.git_succeeds Sample.no_archive Sample.no_archive in
  let download :=
    ArtifactManager.download Cases.online Sample.no_archive Sample.no_archive in
  let execute_task := TaskExecutor.execute_task Sample.no_archive Sample.no_archive in
  let self := TaskExecutor.__init__ Sample.platforms "ws" in
  let provisioned := clone_repository (RepoManager.__init__ Sample.platforms "ws") Sample.st in
  let downloaded := download (ArtifactManager.__init__ Cases.gcc "ws") Cases.st in
  main "manifest.yaml" Sample.st
  = proc_bind (lift (os_makedirs "ws"))
      (λ _, proc_bind
         (proc_for_each [Sample.platforms; Sample.edk2] (λ repo,
            clone_repository (RepoManager.__init__ repo "ws")))
         (λ _, proc_for_each [Sample.toolchain] (λ artifact,
            lift (ArtifactManager.download Sample.offline Sample.no_archive Sample.no_archive
                    (ArtifactManager.__init__ artifact "ws"))))) Sample.st
  ∧ (∃ st0 before evs,
       provisioned.2 = before ++ (Did <$> evs)
       ∧ TaskExecutor.for_each [Sample.delete_notes] (execute_task self) st0
         = (inr tt, provisioned.1.2, evs))
  ∧ exists_path Sample.st "ws/notes.txt" = true
  ∧ exists_path provisioned.1.2 "ws/notes.txt" = false
  ∧ (∃ st0 before evs,
       downloaded.2 = before ++ evs
       ∧ TaskExecutor.for_each []
           (execute_task (TaskExecutor.__init__ Cases.gcc "ws")) st0
         = (inr tt, downloaded.1.2, evs))
  ∧ execute_task self Sample.delete_notes Sample.st
    = try_except Exception (TaskExecutor._delete self "ws/notes.txt" None)
        (λ e, emit (task_error self Sample.delete_notes e)) Sample.st.
Proof.
  intros main clone_repository download execute_task self provisioned downloaded.
  split_and!.
  - exact (proj1 (task_paths_are_relative_to_the_project_root
                    Sample.git_succeeds Sample.offline Sample.no_archive Sample.no_archive
                    Sample.parse "ws")
             "manifest.yaml" Sample.st ["manifest.yaml"] "project: ws" 5 false Sample.manifest
             eq_refl eq_refl eq_refl eq_refl eq_refl).
  - destruct (proj1 (proj2 (task_paths_are_relative_to_the_project_root
                      Sample.git_succeeds Sample.offline Sample.no_archive Sample.no_archive
                      Sample.parse "ws"))
                Sample.platforms Sample.st provisioned.1.2 provisioned.2)
      as (st0 & before & evs & Hsteps & Hrun);
      [vm_compute; reflexivity|reflexivity|reflexivity|].
    exists st0, before, evs. split; [exact Hsteps|].
    apply (Hrun self); reflexivity.
  - reflexivity.
  - vm_compute. reflexivity.
  - destruct (proj1 (proj2 (proj2 (task_paths_are_relative_to_the_project_root
                      Sample.git_succeeds Cases.online Sample.no_archive Sample.no_archive
                      Sample.parse "ws")))
                Cases.gcc Cases.st downloaded.1.2 downloaded.2)
      as (st0 & before & evs & Hevs & Hrun);
      [vm_compute; reflexivity|reflexivity|reflexivity|].
    exists st0, before, evs. split; [exact Hevs|].
    apply (Hrun (TaskExecutor.__init__ Cases.gcc "ws")); reflexivity.
  - exact (proj2 (proj2 (proj2 (task_paths_are_relative_to_the_project_root
                    Sample.git_succeeds Sample.offline Sample.no_archive Sample.no_archive
                    Sample.parse "ws")))
             self Sample.delete_notes "delete" (TaskExecutor._delete self) Sample.st
             eq_refl eq_refl eq_refl eq_refl).
Defined.

Lemma failed_command_ends_the_run_witness :
  let pull := ["git"; "-C"; "ws/edk2"; "pull"] in
  RepoManager.run_command Sample.git_fails pull Sample.st
  = (Exited 1, Sample.st,
     [Spawn pull (Completed 128 "" "fatal: repository not found");
      Did (Log ERROR "Error running command: git -C ws/edk2 pull")])
  ∧ (BootstrapManager.main Sample.git_fails Sample.offline Sample.no_archive
       Sample.no_archive Sample.parse "manifest.yaml" Sample.st).1.1 = Exited 1.
Proof.
  intros pull.
  pose proof (failed_command_ends_the_run Sample.git_fails Sample.offline
                Sample.no_archive Sample.no_archive Sample.parse) as [Hcmd Hrun].
  split.
  - apply (Hcmd pull Sample.st 128 "" "fatal: repository not found" Sample.tree);
      [reflexivity|discriminate].
  - set (r := BootstrapManager.main _ _ _ _ _ _ _).
    destruct (Hrun "manifest.yaml" Sample.st r.1.1 r.1.2 r.2
             [Did (Log INFO "Cloning platforms sources...");
              Did (Log INFO "Cloning https://example.org/platforms.git into ws/platforms...")]
             (clone_command "main" "https://example.org/platforms.git" "ws/platforms")
             128 "" "fatal: repository not found"
             [Did (Log ERROR "Error running command: git clone --branch main --single-branch https://example.org/platforms.git ws/platforms")])
      as [Hout _];
      [change (r = (r.1.1, r.1.2, r.2)); clearbody r; destruct r as [[? ?] ?]; reflexivity
      |vm_compute; reflexivity|discriminate|exact Hout].
Defined.

Lemma missing_destination_is_not_skipped_witness :
  RepoManager.clone_repository Sample.git_succeeds Sample.no_archive Sample.no_archive
    (RepoManager.__init__ Sample.no_destination "ws") Sample.st
  = (Raised (KeyError "destination"), Sample.st, [])
  ∧ proc_for_each [Sample.no_destination; Sample.edk2]
      (λ repo, RepoManager.clone_repository Sample.git_succeeds Sample.no_archive
                 Sample.no_archive (RepoManager.__init__ repo "ws")) Sample.st
    = (Raised (KeyError "destination"), Sample.st, [])
  ∧ ∃ r st' evs,
      ArtifactManager.download Sample.offline Sample.no_archive Sample.no_archive
        (ArtifactManager.__init__ Sample.toolchain "ws") Sample.st
      = (r, st',
         Log INFO "Downloading https://example.org/gcc.zip to ws/..."
         :: HttpGet "https://example.org/gcc.zip"
              (Failed (RequestException "connection refused")) :: evs).
Proof.
  pose proof (missing_destination_is_not_skipped Sample.git_succeeds Sample.offline
                Sample.no_archive Sample.no_archive) as (Hrepo & Hloop & Hart).
  split_and!.
  - apply Hrepo. reflexivity.
  - apply (Hloop Sample.no_destination [Sample.edk2] "ws" Sample.st). reflexivity.
  - apply (Hart (ArtifactManager.__init__ Sample.toolchain "ws") Sample.st
             "https://example.org/gcc.zip" Sample.st); reflexivity.
Defined.

Lemma clone_or_update_witness :
  (∃ out st' rest,
     RepoManager.clone_repository Sample.git_succeeds Sample.no_archive Sample.no_archive
       (RepoManager.__init__ Sample.edk2 "ws") Sample.st
     = (out, st',
        Did (Log INFO "Cloning edk2 sources...")
        :: [Did (Log INFO "Repository already exists at ws/edk2. Pulling latest changes...");
            Spawn (pull_command "ws/edk2") (Completed 0 "" "")]
        ++ rest)
     ∧ Forall (λ s, is_clone s = false) rest)
  ∧ (∃ out st' rest,
       RepoManager.clone_repository Sample.git_succeeds Sample.no_archive Sample.no_archive
         (RepoManager.__init__ Sample.platforms "ws") Sample.st
       = (out, st',
          Did (Log INFO "Cloning platforms sources...")
          :: [Did (Log INFO "Cloning https://example.org/platforms.git into ws/platforms...");
              Spawn (clone_command "main" "https://example.org/platforms.git" "ws/platforms")
                (Completed 0 "" "")]
          ++ rest)).
Proof.
  split.
  - destruct (clone_or_update Sample.git_succeeds Sample.no_archive Sample.no_archive
                (RepoManager.__init__ Sample.edk2 "ws") Sample.st
                "edk2" "https://example.org/edk2.git" Sample.st [])
      as (_ & out & st' & rest & Hrun & Hrest); [reflexivity..|].
    exists out, st', rest. split; [exact Hrun|]. apply Hrest. reflexivity.
  - destruct (clone_or_update Sample.git_succeeds Sample.no_archive Sample.no_archive
                (RepoManager.__init__ Sample.platforms "ws") Sample.st
                "platforms" "https://example.org/platforms.git"
                (os_makedirs "ws/platforms" Sample.st).1.2 [])
      as (_ & out & st' & rest & Hrun & _);
      [reflexivity|reflexivity|reflexivity|reflexivity|vm_compute; reflexivity|].
    exists out, st', rest. exact Hrun.
Defined.

Lemma submodule_step_witness :
  (∃ stdout stderr pre post,
     (RepoManager.clone_repository Sample.git_succeeds Sample.no_archive Sample.no_archive
        (RepoManager.__init__ Sample.edk2 "ws") Sample.st).2
     = pre ++ Spawn ["git"; "-C"; "ws/edk2"; "submodule"; "update"; "--init"; "--recursive"]
                (Completed 0 stdout stderr) :: post
     ∧ Forall (λ s, is_submodule_update s = false) pre
     ∧ Forall (λ s, is_submodule_update s = false) post)
  ∧ Forall (λ s, is_submodule_update s = false)
      (RepoManager.clone_repository Sample.git_succeeds Sample.no_archive Sample.no_archive
         (RepoManager.__init__ Sample.platforms "ws") Sample.st).2.
Proof.
  split.
  - apply (proj2 (proj2 (submodule_step Sample.git_succeeds Sample.no_archive
                          Sample.no_archive (RepoManager.__init__ Sample.edk2 "ws")
                          Sample.st)));
      [reflexivity|vm_compute; reflexivity|reflexivity|reflexivity].
  - apply (proj1 (submodule_step Sample.git_succeeds Sample.no_archive
                    Sample.no_archive (RepoManager.__init__ Sample.platforms "ws")
                    Sample.st)).
    reflexivity.
Defined.

Lemma delete_stops_at_a_write_protected_directory_witness :
  ∃ q st' es',
    TaskExecutor._delete Cases.executor "ws/vault" None Cases.st
    = (inl (OSError EACCES (show_loc q)), st', [Log INFO "Deleting ws/vault..."])
    ∧ lookup_node (root st') ["ws"; "vault"] = Some (Dir true es')
    ∧ es' ≠ ∅.
Proof.
  apply (delete_stops_at_a_write_protected_directory Cases.executor
           "ws/vault" None Cases.st ["ws"; "vault"] true
           {[ "a.txt" := File "a" 1 true;
              "sub" := Dir true {[ "b.txt" := File "b" 2 true ]} ]});
    [reflexivity|vm_compute; reflexivity|vm_compute; reflexivity].
Defined.

Lemma delete_without_source_deletes_the_base_directory_witness :
  let self := Sample.executor [Sample.delete_all] in
  task_source self Sample.delete_all = "ws/"
  ∧ locate Sample.st "ws/" = Some ["ws"]
  ∧ ∃ st',
      TaskExecutor.execute_task Sample.no_archive Sample.no_archive self
        Sample.delete_all Sample.st
      = (inr tt, st', [Log INFO "Deleting ws/..."])
      ∧ root st' = Dir false {[ "manifest.yaml" := File "project: ws" 5 false ]}
      ∧ exists_path st' "ws" = false.
Proof.
  intros self.
  destruct (delete_without_source_deletes_the_base_directory
              Sample.no_archive Sample.no_archive self Sample.delete_all Sample.st ["ws"])
    as (Hsrc & Hloc & st' & evs & Hrun & _ & Hgone); [reflexivity..|].
  destruct Hgone as (-> & Hroot & Hex).
  - vm_compute. reflexivity.
  - reflexivity.
  - discriminate.
  - change (components (TaskExecutor.base_dir self)) with [Name "ws"].
    apply not_elem_of_cons. split; [discriminate|apply not_elem_of_nil].
  - discriminate.
  - split_and!; [exact Hsrc|exact Hloc|].
    exists st'. split_and!; [exact Hrun| |exact Hex].
    rewrite Hroot. vm_compute. reflexivity.
Defined.

Lemma copy_operation_witness :
  let self := Sample.executor [Sample.copy_A_B] in
  TaskExecutor._copy self "ws/A" None Sample.st
  = (inr tt, Sample.st, [Log ERROR "Destination not specified for copy action in edk2"])
  ∧ (∃ st',
       TaskExecutor._copy self "ws/A" (Some "ws/B") Sample.st
       = (inr tt, st', [Log INFO "Copying ws/A to ws/B..."])
       ∧ lookup_node (root st') ["ws"; "B"; "x.txt"] = Some (File "x" 1 false)
       ∧ lookup_node (root st') ["ws"; "B"; "y.txt"] = Some (File "new" 2 false)
       ∧ lookup_node (root st') ["ws"; "B"; "z.txt"] = Some (File "z" 0 false)
       ∧ lookup_node (root st') ["ws"; "A"] = lookup_node Sample.tree ["ws"; "A"])
  ∧ (∃ st',
       TaskExecutor._copy self "ws/notes.txt" (Some "ws/C/D/n.txt") Sample.st
       = (inr tt, st', [Log INFO "Copying ws/notes.txt to ws/C/D/n.txt..."])
       ∧ isdir_path st' "ws/C/D" = true
       ∧ lookup_node (root st') ["ws"; "C"; "D"; "n.txt"] = Some (File "hello" 3 false)).
Proof.
  intros self. split_and!.
  - apply (proj1 (copy_operation self "ws/A" Sample.st)). reflexivity.
  - destruct (proj1 (proj2 (copy_operation self "ws/A" Sample.st))
                "ws/B" ["ws"; "A"] false
                {[ "x.txt" := File "x" 1 false; "y.txt" := File "new" 2 false ]}
                Sample.st [] ["ws"; "B"]
                (Dir false {[ "y.txt" := File "old" 0 false; "z.txt" := File "z" 0 false ]}))
      as (st' & Hrun & _ & Hfiles & Hrest & Hapart).
    + reflexivity.
    + reflexivity.
    + vm_compute. reflexivity.
    + vm_compute. reflexivity.
    + reflexivity.
    + vm_compute. reflexivity.
    + vm_compute. reflexivity.
    + split; intros [k Hk]; simpl in Hk; discriminate Hk.
    + vm_compute. reflexivity.
    + exists st'. split_and!.
      * exact Hrun.
      * apply (Hfiles ["x.txt"]). vm_compute. reflexivity.
      * apply (Hfiles ["y.txt"]). vm_compute. reflexivity.
      * change ["ws"; "B"; "z.txt"] with (["ws"; "B"] ++ ["z.txt"]).
        rewrite (Hrest ["z.txt"]); [vm_compute; reflexivity|discriminate|vm_compute; reflexivity].
      * apply Hapart. split; intros [k Hk]; simpl in Hk; discriminate Hk.
  - destruct (proj2 (proj2 (copy_operation self "ws/notes.txt" Sample.st))
                "ws/C/D/n.txt" ["ws"; "notes.txt"] "hello" 3 false
                (os_makedirs "ws/C/D" Sample.st).1.2 [] ["ws"; "C"; "D"; "n.txt"])
      as (st' & Hrun & Hdir & _ & Hfile & _).
    + reflexivity.
    + reflexivity.
    + reflexivity.
    + vm_compute. reflexivity.
    + vm_compute. reflexivity.
    + left. split; vm_compute; reflexivity.
    + discriminate.
    + exists st'. split_and!; [exact Hrun|exact Hdir|exact Hfile].
Defined.

(** * More of the task runner *)

Section task_runner_edges.

Variable zip_extractall : string → string → state → option exception * node.
Variable tar_extractall : string → string → state → option exception * node.

Local Arguments String.append : simpl never.
Local Abbreviation _copy := (TaskExecutor._copy).
Local Abbreviation _delete := (TaskExecutor._delete).
Local Abbreviation _expand := (TaskExecutor._expand zip_extractall tar_extractall).
Local Abbreviation execute_task := (TaskExecutor.execute_task zip_extractall tar_extractall).
Local Abbreviation execute_tasks := (TaskExecutor.execute_tasks zip_extractall tar_extractall).

(** X1. [_delete] on a directory that can be removed entry by entry (no
    write-protected directory in it holds an entry) removes it with all it
    holds, write-protected files and empty write-protected directories
    included: one information line is logged, nothing is raised, the path
    names nothing afterwards and what is apart from the directory is as it
    was.  The directory is not the root, the directory that holds it is not
    write-protected, and its path has no [..] and does not end in [.]. *)
Theorem delete_removes_a_directory_with_all_it_holds
    (self : TaskExecutor.t) source destination st p ro es :
  locate st source = Some p →
  lookup_node (root st) p = Some (Dir ro es) →
  removable (Dir ro es) = true →
  writable_dir (root st) (removelast p) = true →
  p ≠ [] → Up ∉ components source → last_word source ≠ Some "." →
  ∃ st',
    _delete self source destination st
    = (inr tt, st', [Log INFO ("Deleting " +:+ source +:+ "...")])
    ∧ (∀ q, lookup_node (root st') (p ++ q) = None)
    ∧ (∀ q, apart p q → lookup_node (root st') q = lookup_node (root st) q)
    ∧ exists_path st' source = false.
Proof.
  intros Hp Hl Hrem Hw Hne Hup Hdot.
  exists (State (put_node (root st) p None) (cwd st) (clock st)). split_and!.
  - rewrite _delete_dir by (unfold isdir_path, is_dir; by rewrite Hp, Hl).
    by rewrite (shutil_rmtree_removes _ _ _ _ _ Hp Hl Hrem Hw Hne Hup Hdot).
  - intros q. cbn [root]. rewrite (lookup_put_node_below _ _ _ _ _ Hl); [done|by left].
  - intros q Hq. cbn [root]. by apply lookup_put_node_apart.
  - by eapply exists_path_removed.
Qed.

(** X2. Deleting twice: when the first [_delete] finds a file, or a
    directory that can be removed entry by entry, in a directory that is
    not write-protected, or finds nothing, it returns, and a second
    [_delete] of the same path from the state it left logs the warning and
    changes nothing. *)
Theorem delete_twice (self : TaskExecutor.t) source destination st :
  (∃ p d m ro, locate st source = Some p ∧ lookup_node (root st) p = Some (File d m ro)
               ∧ writable_dir (root st) (removelast p) = true)
  ∨ (∃ p ro es, locate st source = Some p ∧ lookup_node (root st) p = Some (Dir ro es)
                ∧ removable (Dir ro es) = true
                ∧ writable_dir (root st) (removelast p) = true
                ∧ p ≠ [] ∧ (Up ∉ components source) ∧ last_word source ≠ Some ".")
  ∨ exists_path st source = false →
  ∃ st' evs,
    _delete self source destination st = (inr tt, st', evs)
    ∧ _delete self source destination st'
      = (inr tt, st',
         [Log INFO ("Deleting " +:+ source +:+ "...");
          Log WARNING ("Path " +:+ source +:+ " does not exist.")]).
Proof.
  destruct (delete_path_states self source destination st) as (_ & Hfile & Hnone).
  assert (∀ st', exists_path st' source = false →
            _delete self source destination st'
            = (inr tt, st',
               [Log INFO ("Deleting " +:+ source +:+ "...");
                Log WARNING ("Path " +:+ source +:+ " does not exist.")])) as Hagain.
  { intros st' H. by apply (delete_path_states self source destination st'). }
  intros [(p & d & m & ro & Hp & Hl & Hw)
         |[(p & ro & es & Hp & Hl & Hrem & Hw & Hne & Hup & Hdot)|Hno]].
  - destruct (Hfile p d m ro Hp Hl Hw) as (st' & Hrun & Hgone). eauto.
  - exists (State (put_node (root st) p None) (cwd st) (clock st)). eexists. split.
    + rewrite _delete_dir by (unfold isdir_path, is_dir; by rewrite Hp, Hl).
      by rewrite (shutil_rmtree_removes _ _ _ _ _ Hp Hl Hrem Hw Hne Hup Hdot).
    + apply Hagain. by eapply exists_path_removed.
  - rewrite (Hnone Hno). eauto.
Qed.



(** X4. A copy of a file onto itself (the destination resolves to the
    place of the source) raises [SameFileError] and leaves the file as it
    was. *)
Theorem copy_of_a_file_onto_itself
    (self : TaskExecutor.t) source destination st sp data mt ro st1 evs1 :
  truthy destination = true →
  locate st source = Some sp →
  lookup_node (root st) sp = Some (File data mt ro) →
  os_makedirs (os_path_dirname destination) st = (inr tt, st1, evs1) →
  locate st1 destination = Some sp →
  _copy self source (Some destination) st
  = (inl (SameFileError (show_loc sp) (show_loc sp)), st1,
     [Log INFO ("Copying " +:+ source +:+ " to " +:+ destination +:+ "...")])
  ∧ lookup_node (root st1) sp = Some (File data mt ro).
Proof.
  intros Htd Hsp Hs Hmk Hdp.
  apply os_makedirs_spec in Hmk as Hmk'. destruct Hmk' as (Hdir & Hext & Hcwd & ->).
  assert (isdir_path st source = false) as Hnd
    by (unfold isdir_path, is_dir; by rewrite Hsp, Hs).
  assert (locate st1 source = Some sp) as Hsp1
    by (eapply locate_mono; [apply Hext|done..]).
  assert (lookup_node (root st1) sp = Some (File data mt ro)) as Hs1 by (by apply Hext).
  split; [|done].
  unfold TaskExecutor._copy. cbn [truthy_opt negb default from_option]. unfold id.
  rewrite Htd. cbn [negb].
  unfold logging_info, os_path_isdir. io_steps. rewrite Hnd.
  rewrite (io_bind_prefixed _ _ _ _ _ _ Hmk), prefixed_nil.
  unfold shutil_copy2. rewrite get_state_bind. cbv zeta.
  unfold isdir_path, is_dir. rewrite Hdp, Hs1, Hsp1, Hs1, Hdp.
  unfold shutil_copyfile_at. rewrite io_bind_assoc, get_state_bind, Hs1.
  rewrite bool_decide_true by done. by rewrite raise_bind.
Qed.

(** X5. [_expand] on a source whose name ends in none of [.zip],
    [.tar.gz], [.tgz] and [.tar]: the destination directory is made all the
    same, then a warning is logged and no archive reader is called. *)
Theorem expand_of_an_unsupported_format
    (self : TaskExecutor.t) source destination st st1 evs1 :
  endswith source ".zip" = false →
  endswith source ".tar.gz" = false →
  endswith source ".tgz" = false →
  endswith source ".tar" = false →
  os_makedirs destination st = (inr tt, st1, evs1) →
  _expand self source (Some destination) st
  = (inr tt, st1,
     [Log INFO ("Extracting " +:+ source +:+ " to " +:+ destination +:+ "...");
      Log WARNING ("Unsupported file format for extraction: " +:+ source)])
  ∧ isdir_path st1 destination = true.
Proof.
  intros Hzip Htgz Htg Htar Hmk.
  apply os_makedirs_spec in Hmk as Hmk'. destruct Hmk' as (Hdir & _ & _ & ->).
  split; [|done].
  unfold TaskExecutor._expand.
  rewrite (io_bind_prefixed _ _ _ _ _ _ Hmk), prefixed_nil.
  unfold logging_info. rewrite emit_bind.
  by rewrite Hzip, Htgz, Htg, Htar.
Qed.

(** X6. [_expand] on an archive: [.zip] goes to the zip reader, [.tar.gz],
    [.tgz] and [.tar] to the tar reader.  [_expand] returns whatever the
    reader does: an exception of the reader is logged as an error, not
    raised, and the file system is as the reader left it. *)
Theorem expand_runs_the_reader_and_logs_its_failure
    (self : TaskExecutor.t) source destination st st1 evs1 :
  let reader := if endswith source ".zip" then zip_extractall else tar_extractall in
  endswith source ".zip" || endswith source ".tar.gz" || endswith source ".tgz"
    || endswith source ".tar" = true →
  os_makedirs destination st = (inr tt, st1, evs1) →
  _expand self source (Some destination) st
  = (inr tt, State (reader source destination st1).2 (cwd st1) (clock st1),
     Log INFO ("Extracting " +:+ source +:+ " to " +:+ destination +:+ "...")
     :: match (reader source destination st1).1 with
        | Some e => [Log ERROR ("Error extracting " +:+ source +:+ ": " +:+ str_exception e)]
        | None => []
        end).
Proof.
  intros reader Hext Hmk.
  apply os_makedirs_spec in Hmk as Hmk'. destruct Hmk' as (_ & _ & _ & ->).
  unfold TaskExecutor._expand.
  rewrite (io_bind_prefixed _ _ _ _ _ _ Hmk), prefixed_nil.
  unfold logging_info. rewrite emit_bind.
  assert ((if endswith source ".zip" then
             TaskExecutor.extract zip_extractall source destination
           else if endswith source ".tar.gz" || endswith source ".tgz"
                   || endswith source ".tar" then
             TaskExecutor.extract tar_extractall source destination
           else logging_warning ("Unsupported file format for extraction: " +:+ source))
          = TaskExecutor.extract reader source destination) as ->.
  { unfold reader. destruct (endswith source ".zip"); [done|].
    simpl in Hext. by rewrite Hext. }
  unfold try_except, TaskExecutor.extract, prefixed.
  destruct (reader source destination st1) as [[e|] t]; done.
Qed.

(** X7. An expand task with no destination: [os.makedirs(None)] raises
    [TypeError], which the runner logs as an error; nothing is created and
    no reader is called. *)
Theorem expand_task_without_destination (self : TaskExecutor.t) (task : task_dict) st :
  task !! "action" = Some (Text "expand") →
  task !! "destination" = None →
  text_or_absent (task !! "source") = true →
  execute_task self task st
  = (inr tt, st,
     [Log ERROR ("Error during expand task for " +:+ task_source self task
                 +:+ ": expected str, bytes or os.PathLike object, not NoneType")]).
Proof.
  intros Ha Hd Hs.
  rewrite (execute_task_raised zip_extractall tar_extractall self task "expand"
             (TaskExecutor._expand zip_extractall tar_extractall self) st
             (TypeError "expected str, bytes or os.PathLike object, not NoneType") st []);
    [by unfold task_error; rewrite Ha|done|done| |].
  - unfold paths_are_text. by rewrite Hs, Hd.
  - unfold task_destination. by rewrite Hd.
Qed.

(** X8. The base directory confines nothing that is written as an
    absolute path: a task whose source is absolute, and whose destination is
    absolute or absent, does the same under every base directory. *)
Theorem absolute_task_paths_ignore_the_base_directory
    (owner : entry) (base base' : string) (task : task_dict) s st :
  task !! "source" = Some (Text s) →
  startswith s "/" = true →
  (∀ d, task !! "destination" = Some (Text d) → startswith d "/" = true) →
  task_source (TaskExecutor.__init__ owner base) task = s
  ∧ execute_task (TaskExecutor.__init__ owner base) task st
    = execute_task (TaskExecutor.__init__ owner base') task st.
Proof.
  intros Hs Habs Hd.
  assert (∀ b, os_path_join b s = s) as Hsrc
    by (intros b; unfold os_path_join; by rewrite Habs).
  split; [unfold task_source, text_field; rewrite Hs; apply Hsrc|].
  unfold TaskExecutor.execute_task. cbn [TaskExecutor.base_dir TaskExecutor.__init__].
  rewrite Hs. cbn [default from_option]. unfold id. cbn [os_path_join_value].
  rewrite !Hsrc.
  destruct (task !! "destination") as [[d|c shown h]|] eqn:E; [|reflexivity..].
  cbn [os_path_join_value].
  assert (∀ b, os_path_join b d = d) as Hdst
    by (intros b; unfold os_path_join; by rewrite (Hd d eq_refl)).
  rewrite !Hdst. reflexivity.
Qed.

(** X9. A copy of a file to a destination that is a directory puts the
    file inside it, under the name of the source: the place written is the
    one [destination/basename(source)] names, and it receives the content,
    the modification time and the flag of the source. *)
Theorem copy_of_a_file_into_a_directory
    (self : TaskExecutor.t) source destination st sp data mt ro st1 evs1 dp :
  truthy destination = true →
  locate st source = Some sp →
  lookup_node (root st) sp = Some (File data mt ro) →
  os_makedirs (os_path_dirname destination) st = (inr tt, st1, evs1) →
  isdir_path st1 destination = true →
  locate st1 (os_path_join destination (os_path_basename source)) = Some dp →
  (lookup_node (root st1) dp = None ∧ writable_dir (root st1) (removelast dp) = true
   ∨ ∃ d' m', lookup_node (root st1) dp = Some (File d' m' false)) →
  sp ≠ dp →
  ∃ st',
    _copy self source (Some destination) st
    = (inr tt, st', [Log INFO ("Copying " +:+ source +:+ " to " +:+ destination +:+ "...")])
    ∧ isdir_path st' destination = true
    ∧ lookup_node (root st') dp = Some (File data mt ro)
    ∧ (∀ q, apart dp q → lookup_node (root st') q = lookup_node (root st1) q).
Proof.
  intros Htd Hsp Hs Hmk Hdd Hdp Hd Hsd.
  apply os_makedirs_spec in Hmk as Hmk'. destruct Hmk' as (_ & Hext & Hcwd & ->).
  assert (isdir_path st source = false) as Hnd
    by (unfold isdir_path, is_dir; by rewrite Hsp, Hs).
  assert (locate st1 source = Some sp) as Hsp1
    by (eapply locate_mono; [apply Hext|done..]).
  assert (lookup_node (root st1) sp = Some (File data mt ro)) as Hs1 by (by apply Hext).
  assert (is_dir (root st1) dp = false) as Hnd1
    by (unfold is_dir; destruct Hd as [[-> _]|(? & ? & ->)]; done).
  destruct (locate_last _ _ _ Hdp Hnd1) as [Hne Hpar].
  destruct st1 as [t1 c1 k1]. cbn [root cwd clock] in *.
  eexists. split; [|split_and!].
  - unfold TaskExecutor._copy. cbn [truthy_opt negb]. change (default "" (Some destination)) with destination.
    rewrite Htd. cbn [negb].
    unfold logging_info, os_path_isdir. io_steps. rewrite Hnd.
    rewrite (io_bind_prefixed _ _ _ _ _ _ Hmk), prefixed_nil.
    unfold shutil_copy2. rewrite get_state_bind. cbv zeta.
    rewrite Hdd, Hsp1. cbn [root]. rewrite Hs1, Hdp.
    pose proof (shutil_copy2_at_spec t1 c1 k1 sp dp "" data mt ro Hs1 Hne Hpar Hd Hsd) as Hc.
    unfold shutil_copy2_at in Hc. rewrite get_state_bind in Hc. cbn [root] in Hc.
    rewrite Hnd1 in Hc. rewrite Hc. unfold prefixed. cbn [fst snd app]. reflexivity.
  - eapply (isdir_path_mono (State t1 c1 k1)); [|done|exact Hdd].
    intros q. by apply is_dir_put_file.
  - cbn [root]. destruct (snoc_removelast dp Hne) as [i Hi].
    unfold is_dir in Hpar.
    destruct (lookup_node t1 (removelast dp)) as [[|rop esp]|] eqn:Hp; [done| |done].
    rewrite Hi. rewrite (put_node_child _ _ _ _ _ _ Hp), lookup_node_app.
    rewrite (lookup_put_node_some _ _ _ _ Hp). simpl.
    by rewrite lookup_partial_alter_eq.
  - intros q Hq. cbn [root]. by apply lookup_put_node_apart.
Qed.

End task_runner_edges.

(** * More of the provisioners and of the orchestrator *)

Section provisioning_edges.

Variable subprocess_run : list string → state → completed * node.
Variable requests_get : string → state → response.
Variable zip_extractall : string → string → state → option exception * node.
Variable tar_extractall : string → string → state → option exception * node.
Variable yaml_safe_load : string → string + document.

Local Arguments String.append : simpl never.

Local Abbreviation run_command := (RepoManager.run_command subprocess_run).
Local Abbreviation clone_repository :=
  (RepoManager.clone_repository subprocess_run zip_extractall tar_extractall).
Local Abbreviation download :=
  (ArtifactManager.download requests_get zip_extractall tar_extractall).
Local Abbreviation run :=
  (BootstrapManager.run subprocess_run requests_get zip_extractall tar_extractall
     yaml_safe_load).
Local Abbreviation main :=
  (BootstrapManager.main subprocess_run requests_get zip_extractall tar_extractall
     yaml_safe_load).
Local Abbreviation execute_tasks := (TaskExecutor.execute_tasks zip_extractall tar_extractall).

(** X10. A repository entry with a destination and no url (the key absent,
    or empty) is reported and skipped: an error is logged, no directory is
    made, no command is started, and the loop goes on with the entries
    after it. *)
Theorem repository_without_url_is_skipped (repo : entry) rest project_dir st d :
  scalars repo !! "destination" = Some d →
  truthy_opt (scalars repo !! "url") = false →
  proc_for_each (repo :: rest)
    (λ repo, clone_repository (RepoManager.__init__ repo project_dir)) st
  = proc_prefixed
      [Did (Log INFO ("Cloning " +:+ fmt (scalars repo !! "repo") +:+ " sources..."));
       Did (Log ERROR "Missing 'url' or 'destination' for a repository.")]
      (proc_for_each rest
         (λ repo, clone_repository (RepoManager.__init__ repo project_dir)) st).
Proof.
  intros Hd Hu. cbn [proc_for_each].
  erewrite proc_bind_returned; [reflexivity|].
  by apply (clone_repository_without_url subprocess_run zip_extractall tar_extractall
              (RepoManager.__init__ repo project_dir) st d).
Qed.

(** X11. An artifact entry with no url (the key absent, or empty) is
    reported and skipped: an error is logged, nothing is requested or
    written, its tasks are not run, and the loop goes on with the entries
    after it. *)
Theorem artifact_without_url_is_skipped (artifact : entry) rest project_dir st :
  truthy_opt (scalars artifact !! "url") = false →
  proc_for_each (artifact :: rest)
    (λ artifact, lift (download (ArtifactManager.__init__ artifact project_dir))) st
  = proc_prefixed [Did (Log ERROR "Missing 'url' or 'destination' for download.")]
      (proc_for_each rest
         (λ artifact, lift (download (ArtifactManager.__init__ artifact project_dir))) st).
Proof.
  intros Hu. cbn [proc_for_each].
  erewrite proc_bind_returned; [reflexivity|]. apply (lift_returned _ _ _ _ [_]).
  by apply (download_without_url requests_get zip_extractall tar_extractall
              (ArtifactManager.__init__ artifact project_dir) st).
Qed.

(** *** The command lines of a provisioning *)

Lemma commands_app s1 s2 : commands (s1 ++ s2) = commands s1 ++ commands s2.
Proof. unfold commands. by rewrite omap_app. Qed.

Lemma commands_did evs : commands (Did <$> evs) = [].
Proof. induction evs as [|ev evs IH]; [done|]. by cbn. Qed.

Lemma commands_lift {A} (m : IO A) st : commands (lift m st).2 = [].
Proof. unfold lift. destruct (m st) as [[[e|a] st'] evs]; apply commands_did. Qed.

Lemma commands_run_command argv st : commands (run_command argv st).2 = [argv].
Proof.
  destruct (run_command_steps subprocess_run argv st) as (out & st' & evs & ->).
  cbn. by rewrite commands_did.
Qed.

Lemma follows_bind {A B} (m : Proc A) (k : A → Proc B) st c expected :
  commands (m st).2 = c →
  (∀ a st', follows expected (k a st')) →
  follows (c ++ expected) (proc_bind m k st).
Proof.
  intros Hm Hk. unfold follows, proc_bind in *.
  destruct (m st) as [[[a|e|x] st'] evs]; simpl in Hm; subst c.
  - specialize (Hk a st'). destruct (k a st') as [[r st''] evs']. simpl in *.
    rewrite commands_app. destruct Hk as [Hpre Hret]. split.
    + by apply prefix_app.
    + intros b Hb. by rewrite (Hret b Hb).
  - simpl. split; [by apply prefix_app_r|done].
  - simpl. split; [by apply prefix_app_r|done].
Qed.

Lemma follows_lift {A} (m : IO A) st : follows [] (lift m st).
Proof. unfold follows. by rewrite commands_lift. Qed.

Lemma follows_prefixed {A} pre (r : outcome A * state * list act) expected :
  commands pre = [] → follows expected r → follows expected (proc_prefixed pre r).
Proof.
  intros Hpre H. unfold follows, proc_prefixed in *. cbn [fst snd].
  by rewrite commands_app, Hpre.
Qed.

Lemma commands_optional_step (b : bool) msg argv st :
  commands ((if b then proc_bind (lift (logging_info msg)) (λ _, run_command argv)
             else proc_ret tt) st).2
  = if b then [argv] else [].
Proof.
  destruct b; [|done]. unfold logging_info. rewrite lift_emit_bind.
  unfold proc_prefixed. cbn [snd]. rewrite (commands_app [_]).
  by rewrite commands_run_command.
Qed.

(** X12. The command lines of a repository entry, in order: the clone or
    the update, then the checkout of the pinned commit when the entry has
    one, then the submodule update when the entry has a submodule mode.  A
    provisioning that returns has started exactly these; one that does not
    has started the first of them, up to the one that stopped it. *)
Theorem commands_of_a_provisioning (self : RepoManager.t) st d u st1 evs1 :
  let fields := scalars (RepoManager.repo self) in
  let destination := os_path_join (RepoManager.base_dir self) d in
  let branch := default "main" (fields !! "branch") in
  let expected :=
    [if exists_path st1 (os_path_join destination ".git")
     then pull_command destination else clone_command branch u destination]
    ++ (if truthy_opt (fields !! "commit")
        then [["git"; "-C"; destination; "checkout"; default "" (fields !! "commit")]]
        else [])
    ++ (if truthy_opt (fields !! "submodules")
        then [submodule_command destination
                (bool_decide (fields !! "submodules" = Some "recursive"))]
        else []) in
  fields !! "destination" = Some d →
  fields !! "url" = Some u →
  truthy u = true →
  truthy destination = true →
  os_makedirs destination st = (inr tt, st1, evs1) →
  commands (clone_repository self st).2 `prefix_of` expected
  ∧ ((clone_repository self st).1.1 = Returned tt →
     commands (clone_repository self st).2 = expected).
Proof.
  intros fields destination branch expected Hd Hu Htu Htd Hmk.
  assert (follows expected (clone_repository self st)) as [H1 H2];
    [|by split; [|apply H2]].
  apply os_makedirs_spec in Hmk as Hmk'. destruct Hmk' as (_ & _ & _ & ->).
  unfold RepoManager.clone_repository, get, get_default. fold fields.
  rewrite Hd, Hu. change (default "" (Some u)) with u. fold destination. fold branch.
  change (truthy_opt (Some u)) with (truthy u). rewrite Htu, Htd. cbn [negb orb].
  unfold logging_info at 1. rewrite lift_emit_bind.
  apply follows_prefixed; [done|].
  rewrite (lift_bind_returned _ _ _ _ _ _ Hmk).
  apply follows_prefixed; [done|].
  rewrite (lift_bind_returned _ _ _ _ _ _ (os_path_exists_run _ st1)).
  apply follows_prefixed; [done|].
  rewrite submodule_command_eq.
  set (has_git := exists_path st1 (os_path_join destination ".git")).
  subst expected. fold has_git.
  apply follows_bind.
  { destruct has_git; cbn [negb]; unfold logging_info; rewrite lift_emit_bind;
      unfold proc_prefixed; cbn [snd]; rewrite (commands_app [_]);
      by rewrite commands_run_command. }
  intros _ st2. apply follows_bind; [apply commands_optional_step|].
  intros _ st3.
  rewrite <-(app_nil_r (if truthy_opt (fields !! "submodules") then _ else _)).
  apply follows_bind; [apply commands_optional_step|].
  intros _ st4. apply follows_lift.
Qed.

(** *** Downloads *)

(** X13. A download that is answered with a status outside 400..599
    writes the body to the destination, a free name in a directory that is
    not write-protected or a file that is not write-protected, whether or
    not a file was there: nothing is checked before the request.  The
    tasks of the entry run next, from that state. *)
Theorem download_writes_the_body (self : ArtifactManager.t) st u st1 evs1 code content dp :
  let fields := scalars (ArtifactManager.artifact self) in
  let destination :=
    os_path_join (ArtifactManager.base_dir self) (get_default fields "destination" "") in
  fields !! "url" = Some u →
  truthy u = true →
  truthy destination = true →
  os_makedirs (os_path_dirname destination) st = (inr tt, st1, evs1) →
  requests_get u st1 = Response code content →
  ¬ (400 ≤ code < 600) →
  locate st1 destination = Some dp →
  (lookup_node (root st1) dp = None ∧ writable_dir (root st1) (removelast dp) = true
   ∨ ∃ d' m', lookup_node (root st1) dp = Some (File d' m' false)) →
  ∃ st2,
    download self st
    = prefixed [Log INFO ("Downloading " +:+ u +:+ " to " +:+ destination +:+ "...");
                HttpGet u (Response code content)]
        (execute_tasks
           (TaskExecutor.__init__ (ArtifactManager.artifact self)
              (ArtifactManager.base_dir self)) st2)
    ∧ lookup_node (root st2) dp = Some (File content (clock st1) false)
    ∧ (∀ q, apart dp q → lookup_node (root st2) q = lookup_node (root st1) q).
Proof.
  intros fields destination Hu Htu Htd Hmk Hget Hcode Hdp Hfree.
  apply os_makedirs_spec in Hmk as Hmk'. destruct Hmk' as (_ & _ & _ & ->).
  assert (is_dir (root st1) dp = false) as Hnd
    by (unfold is_dir; destruct Hfree as [[-> _]|(? & ? & ->)]; done).
  destruct (locate_last _ _ _ Hdp Hnd) as [Hne Hpar].
  destruct st1 as [t1 c1 k1]. cbn [root cwd clock] in *.
  exists (State (put_node t1 dp (Some (File content k1 false))) c1 (k1 + 1)).
  split_and!.
  - unfold ArtifactManager.download, get. fold fields. fold destination.
    rewrite Hu. change (truthy_opt (Some u)) with (truthy u).
    rewrite Htu, Htd. cbn [negb orb]. change (default "" (Some u)) with u.
    rewrite (io_bind_prefixed _ _ _ _ _ _ Hmk), prefixed_nil.
    unfold logging_info. rewrite emit_bind.
    unfold ArtifactManager.http_get at 1.
    unfold io_bind at 1. rewrite Hget.
    unfold ArtifactManager.body_of. rewrite bool_decide_false by done.
    rewrite io_ret_bind.
    assert (open_write destination content (State t1 c1 k1)
            = (inr tt, State (put_node t1 dp (Some (File content k1 false))) c1 (k1 + 1), []))
      as Hw.
    { unfold open_write. rewrite get_state_bind, Hdp.
      by apply write_file_at_spec. }
    rewrite (io_bind_prefixed _ _ _ _ _ _ Hw), prefixed_nil.
    unfold prefixed. cbn [fst snd app].
    by destruct (execute_tasks _ _) as [[? ?] ?].
  - cbn [root]. destruct (snoc_removelast dp Hne) as [i Hi].
    unfold is_dir in Hpar.
    destruct (lookup_node t1 (removelast dp)) as [[|rop esp]|] eqn:Hp; [done| |done].
    rewrite Hi. rewrite (put_node_child _ _ _ _ _ _ Hp), lookup_node_app.
    rewrite (lookup_put_node_some _ _ _ _ Hp). simpl.
    by rewrite lookup_partial_alter_eq.
  - intros q Hq. cbn [root]. by apply lookup_put_node_apart.
Qed.

(** X14. A download that fails (no answer, or a status in 400..599)
    raises: the destination is not opened, the tasks of the entry are not
    run, and the exception ends the loop over the artifacts. *)
Theorem failed_download_ends_the_run (artifact : entry) rest project_dir st u st1 evs1 e :
  let destination := os_path_join project_dir (get_default (scalars artifact) "destination" "") in
  scalars artifact !! "url" = Some u →
  truthy u = true →
  truthy destination = true →
  os_makedirs (os_path_dirname destination) st = (inr tt, st1, evs1) →
  (requests_get u st1 = Failed e
   ∨ ∃ code content, requests_get u st1 = Response code content
                     ∧ 400 ≤ code < 600 ∧ e = HTTPError code) →
  download (ArtifactManager.__init__ artifact project_dir) st
  = (inl e, st1,
     [Log INFO ("Downloading " +:+ u +:+ " to " +:+ destination +:+ "...");
      HttpGet u (requests_get u st1)])
  ∧ proc_for_each (artifact :: rest)
      (λ artifact, lift (download (ArtifactManager.__init__ artifact project_dir))) st
    = (Raised e, st1,
       [Did (Log INFO ("Downloading " +:+ u +:+ " to " +:+ destination +:+ "..."));
        Did (HttpGet u (requests_get u st1))]).
Proof.
  intros destination Hu Htu Htd Hmk Hget.
  apply os_makedirs_spec in Hmk as Hmk'. destruct Hmk' as (_ & _ & _ & ->).
  assert (download (ArtifactManager.__init__ artifact project_dir) st
          = (inl e, st1,
             [Log INFO ("Downloading " +:+ u +:+ " to " +:+ destination +:+ "...");
              HttpGet u (requests_get u st1)])) as Hrun.
  { unfold ArtifactManager.download, get.
    cbn [ArtifactManager.artifact ArtifactManager.base_dir ArtifactManager.__init__].
    fold destination.
    rewrite Hu. change (truthy_opt (Some u)) with (truthy u).
    rewrite Htu, Htd. cbn [negb orb]. change (default "" (Some u)) with u.
    rewrite (io_bind_prefixed _ _ _ _ _ _ Hmk), prefixed_nil.
    unfold logging_info. rewrite emit_bind.
    unfold ArtifactManager.http_get at 1.
    unfold io_bind at 1.
    destruct Hget as [->|(code & content & -> & Hcode & ->)].
    - unfold ArtifactManager.body_of. by rewrite raise_bind.
    - unfold ArtifactManager.body_of. rewrite bool_decide_true by done.
      by rewrite raise_bind. }
  split; [done|].
  cbn [proc_for_each]. erewrite proc_bind_raised; [reflexivity|].
  by rewrite (lift_raised _ _ _ _ _ Hrun).
Qed.

(** *** The manifest *)

(** X15. The errors of the manifest.  Three are fatal: the file does
    not exist; its text does not parse; the manifest is a mapping without
    a project (or with an empty one).  Each ends the run with exit code 1
    after one error line.  A text that parses to anything but a mapping (an
    empty file gives [None]) ends the run otherwise: [config.get] raises
    [AttributeError], with no error line and no exit code.  In all four
    the file system is as it was: no directory is made and no entry is
    looked at. *)
Theorem manifest_errors_are_fatal file st :
  (exists_path st file = false →
   main file st
   = (Exited 1, st,
      [Did (Log ERROR ("The specified YAML file '" +:+ file +:+ "' does not exist."))]))
  ∧ (∀ p text m ro msg,
       locate st file = Some p →
       lookup_node (root st) p = Some (File text m ro) →
       yaml_safe_load text = inl msg →
       main file st
       = (Exited 1, st, [Did (Log ERROR ("Error parsing YAML file: " +:+ msg))]))
  ∧ (∀ p text m ro c,
       locate st file = Some p →
       lookup_node (root st) p = Some (File text m ro) →
       yaml_safe_load text = inr (Mapping c) →
       truthy_opt (project c) = false →
       main file st
       = (Exited 1, st, [Did (Log ERROR "'project' key not found in the YAML manifest.")]))
  ∧ (∀ p text m ro c,
       locate st file = Some p →
       lookup_node (root st) p = Some (File text m ro) →
       yaml_safe_load text = inr (NotMapping c) →
       main file st
       = (Raised (AttributeError ("'" +:+ c +:+ "' object has no attribute 'get'")), st, [])).
Proof.
  pose proof (main_of_a_manifest subprocess_run requests_get zip_extractall tar_extractall
                yaml_safe_load file st) as Hopen.
  split_and!.
  - intros Hno. unfold BootstrapManager.main, BootstrapManager.__init__.
    rewrite proc_bind_assoc.
    rewrite (lift_bind_returned _ _ _ _ _ _ (os_path_exists_run _ st)).
    rewrite Hno. cbn [negb]. rewrite proc_prefixed_nil.
    rewrite !proc_bind_assoc. unfold logging_error. by rewrite lift_emit_bind.
  - intros p text m ro msg Hp Hl Hy. rewrite (Hopen p text m ro Hp Hl), Hy.
    rewrite !proc_bind_assoc. unfold logging_error. by rewrite lift_emit_bind.
  - intros p text m ro c Hp Hl Hy Hproj. rewrite (Hopen p text m ro Hp Hl), Hy.
    rewrite proc_ret_bind, Hproj. cbn [negb].
    unfold logging_error. by rewrite lift_emit_bind.
  - intros p text m ro c Hp Hl Hy. rewrite (Hopen p text m ro Hp Hl), Hy.
    by rewrite proc_ret_bind.
Qed.

(** X16. A manifest path that names a directory passes the existence
    check, and [open] raises [IsADirectoryError]: only [yaml.YAMLError] is
    caught, so the run ends with that exception, without a log line and
    without an exit code. *)
Theorem manifest_that_is_a_directory_raises file st p ro es :
  locate st file = Some p →
  lookup_node (root st) p = Some (Dir ro es) →
  main file st = (Raised (OSError EISDIR file), st, []).
Proof.
  intros Hp Hl. unfold BootstrapManager.main, BootstrapManager.__init__.
  rewrite proc_bind_assoc.
  rewrite (lift_bind_returned _ _ _ _ _ _ (os_path_exists_run _ st)).
  unfold exists_path. rewrite Hp, Hl. rewrite bool_decide_true by eauto. cbn [negb].
  rewrite proc_prefixed_nil, proc_ret_bind.
  unfold BootstrapManager.run, BootstrapManager.load_manifest.
  cbn [BootstrapManager.yaml_file].
  rewrite !proc_bind_assoc.
  assert (BootstrapManager.read_text file st = (inl (OSError EISDIR file), st, [])) as Hread.
  { unfold BootstrapManager.read_text. rewrite get_state_bind, Hp. cbn. by rewrite Hl. }
  by rewrite (lift_bind_raised _ _ _ _ _ _ Hread).
Qed.

(** X17. A manifest with a project and neither repositories nor
    artifacts: the run makes the project directory and returns, without a
    log line. *)
Theorem run_of_an_empty_manifest file st p text m ro c st1 evs1 :
  locate st file = Some p →
  lookup_node (root st) p = Some (File text m ro) →
  yaml_safe_load text = inr (Mapping c) →
  truthy_opt (project c) = true →
  repositories c = [] →
  artifacts c = [] →
  os_makedirs (default "" (project c)) st = (inr tt, st1, evs1) →
  main file st = (Returned tt, st1, [])
  ∧ isdir_path st1 (default "" (project c)) = true.
Proof.
  intros Hp Hl Hy Hproj Hrepos Harts Hmk.
  apply os_makedirs_spec in Hmk as Hmk'. destruct Hmk' as (Hdir & _ & _ & ->).
  split; [|done].
  unfold BootstrapManager.main, BootstrapManager.__init__.
  rewrite proc_bind_assoc.
  rewrite (lift_bind_returned _ _ _ _ _ _ (os_path_exists_run _ st)).
  unfold exists_path. rewrite Hp, Hl. rewrite bool_decide_true by eauto. cbn [negb].
  rewrite proc_prefixed_nil, proc_ret_bind.
  unfold BootstrapManager.run, BootstrapManager.load_manifest.
  cbn [BootstrapManager.yaml_file].
  rewrite !proc_bind_assoc.
  assert (BootstrapManager.read_text file st = (inr text, st, [])) as Hread.
  { unfold BootstrapManager.read_text. rewrite get_state_bind, Hp. cbn. by rewrite Hl. }
  rewrite (lift_bind_returned _ _ _ _ _ _ Hread), proc_prefixed_nil.
  rewrite Hy, proc_ret_bind, Hproj. cbn [negb].
  rewrite (lift_bind_returned _ _ _ _ _ _ Hmk), proc_prefixed_nil.
  by rewrite Hrepos, Harts.
Qed.

End provisioning_edges.

(** * What a run never does *)

(** ** The file operations log nothing *)

Lemma silent_map_fold {A} (f : string → node → IO A → IO A) (b : IO A)
    (es : gmap string node) :
  silent b →
  (∀ i c r, es !! i = Some c → silent r → silent (f i c r)) →
  silent (map_fold f b es).
Proof.
  intros Hb. set (P := λ (r : IO A) (m : gmap string node),
    (∀ i c r, m !! i = Some c → silent r → silent (f i c r)) → silent r).
  apply (map_fold_weak_ind P f b); unfold P.
  - done.
  - intros i c m r Hi IH Hf. apply Hf; [by rewrite lookup_insert_eq|].
    apply IH. intros j c' r' Hj. apply Hf. rewrite lookup_insert_ne; [done|].
    intros ->. congruence.
Qed.

Lemma silent_os_unlink_at p : silent (os_unlink_at p).
Proof. unfold os_unlink_at. silent_tac. Qed.

Lemma silent_os_rmdir_at p : silent (os_rmdir_at p).
Proof. unfold os_rmdir_at. silent_tac. Qed.

Lemma silent_os_chmod_at p mode : silent (os_chmod_at p mode).
Proof. unfold os_chmod_at. silent_tac. Qed.

Lemma silent_write_file_at p data : silent (write_file_at p data).
Proof. unfold write_file_at. silent_tac. Qed.

Lemma silent_shutil_copystat_at sp dp : silent (shutil_copystat_at sp dp).
Proof. unfold shutil_copystat_at. silent_tac. Qed.

Lemma silent_shutil_copyfile_at sp dp : silent (shutil_copyfile_at sp dp).
Proof. unfold shutil_copyfile_at. silent_tac; apply silent_write_file_at. Qed.

Lemma silent_shutil_copy2_at sp dp name : silent (shutil_copy2_at sp dp name).
Proof.
  unfold shutil_copy2_at.
  apply silent_bind; [apply silent_get_state|]. intros st.
  apply silent_bind; [apply silent_shutil_copyfile_at|]. intros _.
  apply silent_shutil_copystat_at.
Qed.

Lemma silent_os_makedirs_at p : silent (os_makedirs_at p).
Proof.
  unfold os_makedirs_at, makedirs_from.
  apply silent_bind; [|intros; apply silent_ret].
  apply silent_bind; [apply silent_mkwalk|]. intros q. silent_tac.
Qed.

Lemma silent_collect src dst m : silent m → silent (collect src dst m).
Proof. intros Hm. unfold collect. silent_tac. Qed.

Lemma silent_copytree_loop snap : ∀ sp dp, silent (copytree_loop snap sp dp).
Proof.
  induction snap as [d m ro|ro es IH] using node_ind'; intros sp dp.
  { apply silent_ret. }
  cbn [copytree_loop].
  apply silent_bind.
  - apply silent_map_fold; [apply silent_ret|].
    intros i c r Hc Hr.
    apply silent_bind; [done|]. intros errs.
    apply silent_bind; [|intros; apply silent_ret].
    apply silent_collect. destruct c as [d m roc|roc esc] eqn:E.
    + apply silent_shutil_copy2_at.
    + apply silent_bind; [apply silent_os_makedirs_at|]. intros _.
      apply (IH i _ Hc).
  - intros errors. apply silent_bind.
    + apply silent_collect, silent_shutil_copystat_at.
    + intros more. destruct (errors ++ more); [apply silent_ret|apply silent_raise].
Qed.

Lemma silent_remove_readonly func path e :
  (∀ p, silent (func p)) → silent (TaskExecutor.remove_readonly func path e).
Proof.
  intros Hf. unfold TaskExecutor.remove_readonly.
  apply silent_bind; [apply silent_os_chmod_at|]. intros _. apply Hf.
Qed.

Lemma silent_rmtree_loop snap :
  ∀ p, silent (rmtree_loop TaskExecutor.remove_readonly snap p).
Proof.
  induction snap as [d m ro|ro es IH] using node_ind'; intros p.
  { apply silent_ret. }
  cbn [rmtree_loop].
  apply silent_map_fold; [apply silent_ret|].
  intros i c r Hc Hr. apply silent_bind; [done|]. intros _.
  destruct c as [d m roc|roc esc] eqn:E.
  - apply silent_try_except; [apply silent_os_unlink_at|]. intros e.
    apply silent_remove_readonly, silent_os_unlink_at.
  - apply silent_bind; [apply (IH i _ Hc)|]. intros _.
    apply silent_try_except; [apply silent_os_rmdir_at|]. intros e.
    apply silent_remove_readonly, silent_os_rmdir_at.
Qed.

Lemma silent_os_rmdir s : silent (os_rmdir s).
Proof. unfold os_rmdir. silent_tac; apply silent_os_rmdir_at. Qed.

Lemma silent_shutil_rmtree s : silent (shutil_rmtree s TaskExecutor.remove_readonly).
Proof.
  unfold shutil_rmtree.
  apply silent_bind; [apply silent_get_state|]. intros st.
  destruct (locate st s) as [p|]; [|apply silent_raise].
  destruct (lookup_node (root st) p) as [[d m ro|ro es]|].
  - apply silent_remove_readonly. intros. apply silent_raise.
  - apply silent_bind; [apply silent_rmtree_loop|]. intros _.
    apply silent_try_except; [apply silent_os_rmdir|]. intros e.
    apply silent_remove_readonly. intros. apply silent_os_rmdir.
  - apply silent_remove_readonly. intros. apply silent_raise.
Qed.

Lemma silent_shutil_copytree src dst : silent (shutil_copytree src dst).
Proof.
  unfold shutil_copytree.
  apply silent_bind; [apply silent_get_state|]. intros st.
  destruct (locate st src) as [sp|]; [|apply silent_raise].
  destruct (lookup_node (root st) sp) as [[d m ro|ro es]|]; try apply silent_raise.
  apply silent_bind; [apply silent_os_makedirs|]. intros _.
  apply silent_bind; [apply silent_get_state|]. intros st'.
  destruct (locate st' dst); [apply silent_copytree_loop|apply silent_raise].
Qed.

Lemma silent_shutil_copy2 src dst : silent (shutil_copy2 src dst).
Proof.
  unfold shutil_copy2.
  apply silent_bind; [apply silent_get_state|]. intros st. cbv zeta.
  destruct (locate st src) as [sp|]; [|apply silent_raise].
  destruct (lookup_node (root st) sp); [|apply silent_raise].
  destruct (locate st _); [|apply silent_raise].
  apply silent_bind; [apply silent_shutil_copyfile_at|]. intros _.
  apply silent_shutil_copystat_at.
Qed.

Lemma silent_os_remove s : silent (os_remove s).
Proof. unfold os_remove. silent_tac; apply silent_os_unlink_at. Qed.

Lemma silent_extract f source destination : silent (TaskExecutor.extract f source destination).
Proof.
  intros st. unfold TaskExecutor.extract. by destruct (f source destination st) as [[e|] t].
Qed.

Lemma silent_open_write s data : silent (open_write s data).
Proof. unfold open_write. silent_tac; apply silent_write_file_at. Qed.

(** ** Events of one kind *)

Lemma all_events_silent {A} (P : event → Prop) (m : IO A) : silent m → all_events P m.
Proof. intros H st. rewrite (H st). constructor. Qed.

Lemma all_events_bind {A B} (P : event → Prop) (m : IO A) (k : A → IO B) :
  all_events P m → (∀ a, all_events P (k a)) → all_events P (io_bind m k).
Proof.
  intros Hm Hk st. specialize (Hm st). unfold io_bind.
  destruct (m st) as [[[e|a] st'] evs]; [done|].
  specialize (Hk a st'). destruct (k a st') as [[r st''] evs']. by apply Forall_app.
Qed.

Lemma all_events_try_except {A} (P : event → Prop) c (m : IO A) h :
  all_events P m → (∀ e, all_events P (h e)) → all_events P (try_except c m h).
Proof.
  intros Hm Hh st. specialize (Hm st). unfold try_except.
  destruct (m st) as [[[e|a] st'] evs]; [|done].
  destruct (c e); [|done]. specialize (Hh e st').
  destruct (h e st') as [[r st''] evs']. by apply Forall_app.
Qed.

Lemma all_events_emit (P : event → Prop) ev : P ev → all_events P (emit ev).
Proof. intros H st. by repeat constructor. Qed.

Section never.

Variable subprocess_run : list string → state → completed * node.
Variable requests_get : string → state → response.
Variable zip_extractall : string → string → state → option exception * node.
Variable tar_extractall : string → string → state → option exception * node.
Variable yaml_safe_load : string → string + document.

Local Arguments String.append : simpl never.

Local Abbreviation run_command := (RepoManager.run_command subprocess_run).
Local Abbreviation clone_repository :=
  (RepoManager.clone_repository subprocess_run zip_extractall tar_extractall).
Local Abbreviation download :=
  (ArtifactManager.download requests_get zip_extractall tar_extractall).
Local Abbreviation run :=
  (BootstrapManager.run subprocess_run requests_get zip_extractall tar_extractall
     yaml_safe_load).
Local Abbreviation main :=
  (BootstrapManager.main subprocess_run requests_get zip_extractall tar_extractall
     yaml_safe_load).
Local Abbreviation execute_task := (TaskExecutor.execute_task zip_extractall tar_extractall).
Local Abbreviation execute_tasks := (TaskExecutor.execute_tasks zip_extractall tar_extractall).
Local Abbreviation logs := (λ ev : event, is_log ev = true).

Lemma logs_copy self source destination : all_events logs (TaskExecutor._copy self source destination).
Proof.
  unfold TaskExecutor._copy. destruct (negb _); [by apply all_events_emit|].
  apply all_events_bind; [by apply all_events_emit|]. intros _.
  apply all_events_silent.
  apply silent_bind; [unfold os_path_isdir; silent_tac|]. intros [].
  - apply silent_shutil_copytree.
  - apply silent_bind; [apply silent_os_makedirs|]. intros _. apply silent_shutil_copy2.
Qed.

Lemma logs_delete self source destination :
  all_events logs (TaskExecutor._delete self source destination).
Proof.
  unfold TaskExecutor._delete.
  apply all_events_bind; [by apply all_events_emit|]. intros _.
  apply all_events_bind; [apply all_events_silent; unfold os_path_isdir; silent_tac|].
  intros []; [apply all_events_silent, silent_shutil_rmtree|].
  apply all_events_bind; [apply all_events_silent; unfold os_path_isfile; silent_tac|].
  intros []; [apply all_events_silent, silent_os_remove|by apply all_events_emit].
Qed.

Lemma logs_expand self source destination :
  all_events logs (TaskExecutor._expand zip_extractall tar_extractall self source destination).
Proof.
  unfold TaskExecutor._expand.
  destruct destination as [d|]; [|apply all_events_silent, silent_raise].
  apply all_events_bind; [apply all_events_silent, silent_os_makedirs|]. intros _.
  apply all_events_bind; [by apply all_events_emit|]. intros _.
  apply all_events_try_except; [|intros e; by apply all_events_emit].
  repeat case_match; try apply all_events_silent, silent_extract.
  by apply all_events_emit.
Qed.

Lemma logs_call self action source destination st func st' evs :
  TaskExecutor.lookup_action zip_extractall tar_extractall self action st
  = (inr func, st', evs) →
  all_events logs (TaskExecutor.call func source destination).
Proof.
  unfold TaskExecutor.lookup_action.
  destruct action as [[a|c shown []]|];
    try (intros [= <- _ _]; apply all_events_silent, silent_raise).
  destruct (TaskExecutor.action_map _ _ self !! a) as [f|] eqn:Hf;
    intros [= <- _ _]; [|apply all_events_silent, silent_raise].
  cbn [TaskExecutor.call]. unfold TaskExecutor.action_map in Hf.
  repeat (rewrite lookup_insert in Hf; case_decide; simplify_eq;
          [first [apply logs_copy|apply logs_delete|apply logs_expand]|]).
  rewrite lookup_singleton in Hf. case_decide; simplify_eq. apply logs_expand.
Qed.

Lemma silent_os_path_join_value a b : silent (os_path_join_value a b).
Proof. destruct b; [apply silent_ret|apply silent_raise]. Qed.

Lemma logs_execute_task self task : all_events logs (execute_task self task).
Proof.
  intros st. unfold TaskExecutor.execute_task. unfold io_bind at 1.
  destruct (TaskExecutor.lookup_action _ _ self (task !! "action") st)
    as [[[e|func] st'] evs] eqn:Hf.
  { assert (evs = []) as ->; [|constructor].
    revert Hf. unfold TaskExecutor.lookup_action.
    by destruct (task !! "action") as [[a|c shown []]|]; intros [= _ _ <-]. }
  assert (evs = []) as ->.
  { revert Hf. unfold TaskExecutor.lookup_action.
    by destruct (task !! "action") as [[a|c shown []]|]; intros [= _ _ <-]. }
  assert (all_events logs
            (if TaskExecutor.truthy_handler func
             then source <- os_path_join_value (TaskExecutor.base_dir self)
                              (default (Text "") (task !! "source")) ;;
                  destination <-
                    match task !! "destination" with
                    | Some d =>
                        d <- os_path_join_value (TaskExecutor.base_dir self) d ;;
                        io_ret (Some d)
                    | None => io_ret None
                    end ;;
                  try_except Exception
                    (TaskExecutor.call func source destination)
                    (λ e, logging_error
                            ("Error during " +:+ fmt_value (task !! "action")
                             +:+ " task for " +:+ source +:+ ": " +:+ str_exception e))
             else logging_warning
                    ("Unknown action '" +:+ fmt_value (task !! "action") +:+ "' in "
                     +:+ get_default (scalars (TaskExecutor.repo self)) "name" "unknown")))
    as Hbody.
  { destruct (TaskExecutor.truthy_handler func); [|by apply all_events_emit].
    apply all_events_bind; [apply all_events_silent, silent_os_path_join_value|].
    intros source. apply all_events_bind.
    - apply all_events_silent. destruct (task !! "destination"); [|apply silent_ret].
      apply silent_bind; [apply silent_os_path_join_value|]. intros d. apply silent_ret.
    - intros destination.
      apply all_events_try_except; [|intros e; by apply all_events_emit].
      by eapply logs_call. }
  specialize (Hbody st'). revert Hbody.
  match goal with |- Forall _ (?x.2) → _ => destruct x as [[r st''] evs'] end.
  done.
Qed.

Lemma logs_execute_tasks self : all_events logs (execute_tasks self).
Proof.
  unfold TaskExecutor.execute_tasks.
  induction (TaskExecutor.tasks self) as [|task l IH]; cbn [TaskExecutor.for_each].
  - apply all_events_silent, silent_ret.
  - apply all_events_bind; [apply logs_execute_task|]. intros _. apply IH.
Qed.

(** X18. All the task runner does, the file system apart, is to log:
    whatever the tasks, it requests nothing from the network (and, being
    code that cannot end the process, it starts no command and never
    exits). *)
Theorem task_runner_only_logs (self : TaskExecutor.t) st :
  Forall (λ ev, is_log ev = true) (execute_tasks self st).2.
Proof. apply logs_execute_tasks. Qed.

(** ** Commands come before downloads *)

Local Abbreviation no_download := (λ s : act, is_download s = false).
Local Abbreviation no_command := (λ s : act, is_command s = false).

Lemma all_steps_lift_events {A} (P : act → Prop) (Q : event → Prop) (m : IO A) :
  all_events Q m → (∀ ev, Q ev → P (Did ev)) → all_steps P (lift m).
Proof.
  intros Hm HP st. specialize (Hm st). unfold lift.
  destruct (m st) as [[[e|a] st'] evs]; apply Forall_fmap;
    (eapply Forall_impl; [exact Hm|]); intros ev; apply HP.
Qed.

Lemma all_steps_for_each {A} (P : act → Prop) (l : list A) body :
  (∀ x, all_steps P (body x)) → all_steps P (proc_for_each l body).
Proof.
  intros Hb. induction l as [|x l IH]; [apply all_steps_ret|].
  cbn [proc_for_each]. apply all_steps_bind; [apply Hb|]. intros _. apply IH.
Qed.

Lemma no_download_lift_logs {A} (m : IO A) : all_events logs m → all_steps no_download (lift m).
Proof. intros H. apply (all_steps_lift_events _ _ _ H). by intros []. Qed.

Lemma no_download_lift_silent {A} (m : IO A) : silent m → all_steps no_download (lift m).
Proof. intros H. by apply no_download_lift_logs, all_events_silent. Qed.

Lemma no_download_run_command argv : all_steps no_download (run_command argv).
Proof.
  unfold RepoManager.run_command.
  apply all_steps_bind.
  { intros st. unfold RepoManager.spawn. destruct (subprocess_run argv st). by repeat constructor. }
  intros [rc out err|e]; [|apply no_download_lift_silent, silent_raise].
  repeat first
    [ apply no_download_lift_logs; by apply all_events_emit
    | apply all_steps_ret | apply all_steps_exit
    | apply all_steps_bind; [|intros ?]
    | case_match ].
Qed.

Lemma no_download_clone_repository self : all_steps no_download (clone_repository self).
Proof.
  unfold RepoManager.clone_repository.
  repeat first
    [ apply no_download_lift_logs, logs_execute_tasks
    | apply no_download_lift_logs; by apply all_events_emit
    | apply no_download_lift_silent, silent_os_makedirs
    | apply no_download_lift_silent, silent_raise
    | apply no_download_lift_silent; unfold os_path_exists; silent_tac
    | apply all_steps_ret
    | apply no_download_run_command
    | apply all_steps_bind; [|intros ?]
    | case_match ].
Qed.

Lemma commands_before_downloads_bind {A B} (m : Proc A) (k : A → Proc B) st :
  all_steps no_download m →
  (∀ a st', commands_before_downloads (k a st').2) →
  commands_before_downloads (proc_bind m k st).2.
Proof.
  intros Hm Hk. specialize (Hm st). unfold proc_bind.
  destruct (m st) as [[[a|e|c] st'] evs]; cbn [snd] in *.
  - specialize (Hk a st'). destruct (k a st') as [[r st''] evs']. cbn [snd] in *.
    destruct Hk as (s1 & s2 & -> & H1 & H2).
    exists (evs ++ s1), s2. rewrite app_assoc. split_and!; [done| |done].
    by apply Forall_app.
  - exists evs, []. rewrite app_nil_r. by split_and!.
  - exists evs, []. rewrite app_nil_r. by split_and!.
Qed.

Lemma commands_before_downloads_early {A} (m : Proc A) st :
  all_steps no_download m → commands_before_downloads (m st).2.
Proof. intros Hm. exists (m st).2, []. rewrite app_nil_r. split_and!; [done|apply Hm|done]. Qed.

(** X19. In every run every command comes before every download: the
    steps of the run are in two parts, with no request to the network in
    the first and no command in the second. *)
Theorem commands_come_before_downloads file st :
  ∃ a b,
    (main file st).2 = a ++ b
    ∧ Forall (λ s, is_download s = false) a
    ∧ Forall (λ s, is_command s = false) b.
Proof.
  change (commands_before_downloads (main file st).2).
  assert (∀ {A} msg, all_steps no_download
            (proc_bind (lift (logging_error msg)) (λ _, exit (A:=A) 1))) as Hfatal.
  { intros A msg. apply all_steps_bind; [|intros; apply all_steps_exit].
    apply no_download_lift_logs. by apply all_events_emit. }
  unfold BootstrapManager.main.
  apply commands_before_downloads_bind.
  { unfold BootstrapManager.__init__.
    apply all_steps_bind; [apply no_download_lift_silent; unfold os_path_exists; silent_tac|].
    intros found. destruct (negb found); [apply Hfatal|apply all_steps_ret]. }
  intros self st1. unfold BootstrapManager.run.
  apply commands_before_downloads_bind.
  { unfold BootstrapManager.load_manifest.
    apply all_steps_bind.
    - apply no_download_lift_silent. unfold BootstrapManager.read_text. silent_tac.
    - intros text. destruct (yaml_safe_load text); [apply Hfatal|apply all_steps_ret]. }
  intros [c|c] st2.
  2:{ apply commands_before_downloads_early, no_download_lift_silent, silent_raise. }
  destruct (negb _).
  { apply commands_before_downloads_early, Hfatal. }
  apply commands_before_downloads_bind; [apply no_download_lift_silent, silent_os_makedirs|].
  intros _ st3.
  apply commands_before_downloads_bind.
  { apply all_steps_for_each. intros repo. apply no_download_clone_repository. }
  intros _ st4.
  eexists [], _. split_and!; [reflexivity|done|].
  apply (all_steps_for_each no_command). intros artifact. by apply all_steps_lift.
Qed.

(** ** Exits *)

Lemma exits_after_an_error_bind {A B} (m : Proc A) (k : A → Proc B) st :
  exits_after_an_error (m st) → (∀ a st', exits_after_an_error (k a st')) →
  exits_after_an_error (proc_bind m k st).
Proof.
  intros Hm Hk. unfold exits_after_an_error, proc_bind in *.
  destruct (m st) as [[[a|e|c] st'] evs]; cbn [fst snd] in *;
    [|done|intros c' [= <-]; by apply Hm].
  specialize (Hk a st'). destruct (k a st') as [[r st''] evs']. cbn [fst snd] in *.
  intros c Hc. destruct (Hk c Hc) as (-> & pre & msg & ->).
  split; [done|]. exists (evs ++ pre), msg. by rewrite app_assoc.
Qed.

Lemma exits_after_an_error_lift {A} (m : IO A) st : exits_after_an_error (lift m st).
Proof. intros c. unfold lift. by destruct (m st) as [[[e|a] st'] evs]. Qed.

Lemma exits_after_an_error_ret {A} (a : A) st : exits_after_an_error (proc_ret a st).
Proof. by intros c. Qed.

Lemma exits_after_an_error_fatal {A} msg st :
  exits_after_an_error (proc_bind (lift (logging_error msg)) (λ _, exit (A:=A) 1) st).
Proof.
  unfold logging_error. rewrite lift_emit_bind. intros c [= <-].
  split; [done|]. by exists [], msg.
Qed.

Lemma exits_after_an_error_for_each {A} (l : list A) body st :
  (∀ x st', exits_after_an_error (body x st')) →
  exits_after_an_error (proc_for_each l body st).
Proof.
  intros Hb. revert st. induction l as [|x l IH]; intros st; cbn [proc_for_each].
  - apply exits_after_an_error_ret.
  - apply exits_after_an_error_bind; [apply Hb|]. intros _ st'. apply IH.
Qed.

Lemma exits_after_an_error_run_command argv st : exits_after_an_error (run_command argv st).
Proof.
  destruct (subprocess_run argv st) as [[rc o e|e] t] eqn:H.
  - destruct (decide (rc = 0)) as [->|Hrc].
    + by rewrite (run_command_succeeded _ _ _ _ _ _ H).
    + rewrite (run_command_failed _ _ _ _ _ _ _ H Hrc). intros c [= <-].
      split; [done|]. by eexists [_], _.
  - by rewrite (run_command_not_started _ _ _ _ _ H).
Qed.

Lemma exits_after_an_error_clone_repository self st :
  exits_after_an_error (clone_repository self st).
Proof.
  unfold RepoManager.clone_repository.
  destruct (_ !! "destination"); [|apply exits_after_an_error_lift].
  apply exits_after_an_error_bind; [apply exits_after_an_error_lift|]. intros _ st1.
  destruct (_ || _); [apply exits_after_an_error_lift|].
  repeat first
    [ apply exits_after_an_error_run_command | apply exits_after_an_error_lift
    | apply exits_after_an_error_ret
    | apply exits_after_an_error_bind; [|intros ? ?] | case_match ].
Qed.

(** X20. The only exit code of a run is 1, and a run that exits has
    logged an error as its last step: the process never ends by [exit]
    without saying why. *)
Theorem a_run_exits_with_one_after_an_error_line file st c :
  (main file st).1.1 = Exited c →
  c = 1 ∧ ∃ pre msg, (main file st).2 = pre ++ [Did (Log ERROR msg)].
Proof.
  revert c. change (exits_after_an_error (main file st)).
  unfold BootstrapManager.main. apply exits_after_an_error_bind.
  { unfold BootstrapManager.__init__.
    apply exits_after_an_error_bind; [apply exits_after_an_error_lift|].
    intros found st1.
    destruct (negb found); [apply exits_after_an_error_fatal|apply exits_after_an_error_ret]. }
  intros self st1. unfold BootstrapManager.run.
  apply exits_after_an_error_bind.
  { unfold BootstrapManager.load_manifest.
    apply exits_after_an_error_bind; [apply exits_after_an_error_lift|].
    intros text st2.
    destruct (yaml_safe_load text);
      [apply exits_after_an_error_fatal|apply exits_after_an_error_ret]. }
  intros [cfg|cls] st2; [|apply exits_after_an_error_lift].
  destruct (negb _); [apply exits_after_an_error_fatal|].
  apply exits_after_an_error_bind; [apply exits_after_an_error_lift|]. intros _ st3.
  apply exits_after_an_error_bind.
  - apply exits_after_an_error_for_each. intros. apply exits_after_an_error_clone_repository.
  - intros _ st4. apply exits_after_an_error_for_each. intros.
    apply exits_after_an_error_lift.
Qed.

(** ** A command that cannot be started *)

Lemma no_start_failure_in_events evs pre argv e post :
  Did <$> evs ≠ pre ++ Spawn argv (NotStarted e) :: post.
Proof.
  intros H.
  assert (Spawn argv (NotStarted e) ∈ Did <$> evs) as Hin
    by (rewrite H; set_solver).
  apply list_elem_of_fmap in Hin as (ev & Hev & _). discriminate Hev.
Qed.

Lemma start_failure_is_raised_bind {A B} (m : Proc A) (k : A → Proc B) st :
  start_failure_is_raised (m st) → (∀ a st', start_failure_is_raised (k a st')) →
  start_failure_is_raised (proc_bind m k st).
Proof.
  intros Hm Hk. unfold start_failure_is_raised, proc_bind in *.
  destruct (m st) as [[[a|e|c] st'] evs]; cbn [fst snd] in *.
  2:{ intros pre argv e' post H. destruct (Hm pre argv e' post H) as [-> [= ->]]. done. }
  2:{ intros pre argv e' post H. by destruct (Hm pre argv e' post H) as [_ ?]. }
  specialize (Hk a st'). destruct (k a st') as [[r st''] evs']. cbn [fst snd] in *.
  intros pre argv e post Heq.
  apply app_eq_app in Heq as [l [[H1 H2]|[H1 H2]]].
  - destruct l as [|x l].
    + rewrite app_nil_r in H1. subst evs. simpl in H2.
      by apply (Hk [] argv e post).
    + simpl in H2. injection H2 as <- ->.
      by destruct (Hm pre argv e l H1) as [_ ?].
  - by apply (Hk l argv e post).
Qed.

Lemma start_failure_is_raised_lift {A} (m : IO A) st : start_failure_is_raised (lift m st).
Proof.
  intros pre argv e post H. unfold lift in H.
  destruct (m st) as [[[e'|a] st'] evs]; by apply no_start_failure_in_events in H.
Qed.

Lemma start_failure_is_raised_ret {A} (a : A) st : start_failure_is_raised (proc_ret a st).
Proof. intros pre argv e post H. by destruct pre. Qed.

Lemma start_failure_is_raised_exit {A} c st : start_failure_is_raised (exit (A:=A) c st).
Proof. intros pre argv e post H. by destruct pre. Qed.

Lemma start_failure_is_raised_for_each {A} (l : list A) body st :
  (∀ x st', start_failure_is_raised (body x st')) →
  start_failure_is_raised (proc_for_each l body st).
Proof.
  intros Hb. revert st. induction l as [|x l IH]; intros st; cbn [proc_for_each].
  - apply start_failure_is_raised_ret.
  - apply start_failure_is_raised_bind; [apply Hb|]. intros _ st'. apply IH.
Qed.

Lemma start_failure_is_raised_run_command argv st :
  start_failure_is_raised (run_command argv st).
Proof.
  intros pre argv' e post H.
  destruct (run_command_steps subprocess_run argv st) as (out & st' & evs & Hrun).
  rewrite Hrun in H. cbn [snd] in H.
  destruct pre as [|x pre].
  - simpl in H. injection H as <- Hc Hpost.
    destruct (subprocess_run argv st) as [c t] eqn:Hs. simpl in Hc. subst c.
    rewrite (run_command_not_started _ _ _ _ _ Hs) in Hrun |- *.
    injection Hrun as _ _ Hevs. by rewrite <-Hpost, <-Hevs.
  - simpl in H. injection H as _ H. by apply no_start_failure_in_events in H.
Qed.

Lemma start_failure_is_raised_clone_repository self st :
  start_failure_is_raised (clone_repository self st).
Proof.
  unfold RepoManager.clone_repository.
  destruct (_ !! "destination"); [|apply start_failure_is_raised_lift].
  apply start_failure_is_raised_bind; [apply start_failure_is_raised_lift|]. intros _ st1.
  destruct (_ || _); [apply start_failure_is_raised_lift|].
  repeat first
    [ apply start_failure_is_raised_run_command | apply start_failure_is_raised_lift
    | apply start_failure_is_raised_ret
    | apply start_failure_is_raised_bind; [|intros ? ?] | case_match ].
Qed.

(** X21. A command that cannot be started (no [git] to run) is not a
    failed command: [run_command] catches [CalledProcessError] only, so the
    exception of [subprocess.run] ends the run as it is, with the command as
    the last step: no error line and no exit code. *)
Theorem a_command_that_cannot_start_ends_the_run file st pre argv e post :
  (main file st).2 = pre ++ Spawn argv (NotStarted e) :: post →
  post = [] ∧ (main file st).1.1 = Raised e.
Proof.
  revert pre argv e post. change (start_failure_is_raised (main file st)).
  assert (∀ {A} msg st', start_failure_is_raised
            (proc_bind (lift (logging_error msg)) (λ _, exit (A:=A) 1) st')) as Hfatal.
  { intros A msg st'.
    apply start_failure_is_raised_bind; [apply start_failure_is_raised_lift|].
    intros. apply start_failure_is_raised_exit. }
  unfold BootstrapManager.main. apply start_failure_is_raised_bind.
  { unfold BootstrapManager.__init__.
    apply start_failure_is_raised_bind; [apply start_failure_is_raised_lift|].
    intros found st1.
    destruct (negb found); [apply Hfatal|apply start_failure_is_raised_ret]. }
  intros self st1. unfold BootstrapManager.run.
  apply start_failure_is_raised_bind.
  { unfold BootstrapManager.load_manifest.
    apply start_failure_is_raised_bind; [apply start_failure_is_raised_lift|].
    intros text st2.
    destruct (yaml_safe_load text); [apply Hfatal|apply start_failure_is_raised_ret]. }
  intros [cfg|cls] st2; [|apply start_failure_is_raised_lift].
  destruct (negb _); [apply Hfatal|].
  apply start_failure_is_raised_bind; [apply start_failure_is_raised_lift|]. intros _ st3.
  apply start_failure_is_raised_bind.
  - apply start_failure_is_raised_for_each. intros.
    apply start_failure_is_raised_clone_repository.
  - intros _ st4. apply start_failure_is_raised_for_each. intros.
    apply start_failure_is_raised_lift.
Qed.

End never.

(** * The further theorems on the sample inputs *)

Lemma delete_removes_a_directory_with_all_it_holds_witness :
  ∃ st',
    TaskExecutor._delete Cases.executor "ws/cache" None Cases.st
    = (inr tt, st', [Log INFO "Deleting ws/cache..."])
    ∧ lookup_node Cases.tree ["ws"; "cache"; "objects"; "idx"] = Some (File "i" 2 true)
    ∧ lookup_node (root st') ["ws"; "cache"] = None
    ∧ lookup_node (root st') ["ws"; "cache"; "objects"; "idx"] = None
    ∧ lookup_node (root st') ["ws"; "readme.md"] = Some (File "read me" 7 false)
    ∧ exists_path st' "ws/cache" = false.
Proof.
  destruct (delete_removes_a_directory_with_all_it_holds Cases.executor "ws/cache" None
              Cases.st ["ws"; "cache"] false
              {[ "pack" := File "p" 1 true;
                 "objects" := Dir false {[ "idx" := File "i" 2 true ]};
                 "hooks" := Dir true ∅ ]})
    as (st' & Hrun & Hgone & Hrest & Hno).
  - reflexivity.
  - vm_compute. reflexivity.
  - vm_compute. reflexivity.
  - vm_compute. reflexivity.
  - discriminate.
  - change (components "ws/cache") with [Name "ws"; Name "cache"].
    intros H. apply elem_of_cons in H as [H|H]; [discriminate H|].
    apply elem_of_cons in H as [H|H]; [discriminate H|]. by apply elem_of_nil in H.
  - vm_compute. discriminate.
  - exists st'. split_and!.
    + exact Hrun.
    + vm_compute. reflexivity.
    + apply (Hgone []).
    + apply (Hgone ["objects"; "idx"]).
    + rewrite Hrest; [vm_compute; reflexivity|].
      split; intros [k Hk]; simpl in Hk; discriminate Hk.
    + exact Hno.
Defined.

Lemma delete_twice_witness :
  ∃ st' evs,
    TaskExecutor._delete Cases.executor "ws/cache" None Cases.st = (inr tt, st', evs)
    ∧ TaskExecutor._delete Cases.executor "ws/cache" None st'
      = (inr tt, st',
         [Log INFO "Deleting ws/cache..."; Log WARNING "Path ws/cache does not exist."]).
Proof.
  apply (delete_twice Cases.executor "ws/cache" None Cases.st).
  right. left.
  exists ["ws"; "cache"], false,
    {[ "pack" := File "p" 1 true;
       "objects" := Dir false {[ "idx" := File "i" 2 true ]};
       "hooks" := Dir true ∅ ]}.
  split_and!.
  - reflexivity.
  - vm_compute. reflexivity.
  - vm_compute. reflexivity.
  - vm_compute. reflexivity.
  - discriminate.
  - change (components "ws/cache") with [Name "ws"; Name "cache"].
    intros H. apply elem_of_cons in H as [H|H]; [discriminate H|].
    apply elem_of_cons in H as [H|H]; [discriminate H|]. by apply elem_of_nil in H.
  - vm_compute. discriminate.
Defined.


Lemma copy_of_a_file_onto_itself_witness :
  TaskExecutor._copy Cases.executor "ws/readme.md" (Some "ws/docs/../readme.md") Cases.st
  = (inl (SameFileError "/ws/readme.md" "/ws/readme.md"), Cases.st,
     [Log INFO "Copying ws/readme.md to ws/docs/../readme.md..."])
  ∧ lookup_node Cases.tree ["ws"; "readme.md"] = Some (File "read me" 7 false).
Proof.
  apply (copy_of_a_file_onto_itself Cases.executor "ws/readme.md" "ws/docs/../readme.md"
           Cases.st ["ws"; "readme.md"] "read me" 7 false Cases.st []).
  - reflexivity.
  - reflexivity.
  - vm_compute. reflexivity.
  - vm_compute. reflexivity.
  - vm_compute. reflexivity.
Defined.

Lemma copy_of_a_file_into_a_directory_witness :
  ∃ st',
    TaskExecutor._copy Cases.executor "ws/readme.md" (Some "ws/docs") Cases.st
    = (inr tt, st', [Log INFO "Copying ws/readme.md to ws/docs..."])
    ∧ isdir_path st' "ws/docs" = true
    ∧ lookup_node (root st') ["ws"; "docs"; "readme.md"] = Some (File "read me" 7 false).
Proof.
  destruct (copy_of_a_file_into_a_directory Cases.executor "ws/readme.md" "ws/docs"
              Cases.st ["ws"; "readme.md"] "read me" 7 false Cases.st []
              ["ws"; "docs"; "readme.md"]) as (st' & Hrun & Hdir & Hfile & _).
  - reflexivity.
  - reflexivity.
  - vm_compute. reflexivity.
  - vm_compute. reflexivity.
  - vm_compute. reflexivity.
  - vm_compute. reflexivity.
  - left. split; vm_compute; reflexivity.
  - discriminate.
  - exists st'. split_and!; [exact Hrun|exact Hdir|exact Hfile].
Defined.

Lemma expand_of_an_unsupported_format_witness :
  ∃ st1,
    TaskExecutor._expand Cases.broken_zip Cases.empty_tar Cases.executor
      "ws/readme.md" (Some "ws/out") Cases.st
    = (inr tt, st1,
       [Log INFO "Extracting ws/readme.md to ws/out...";
        Log WARNING "Unsupported file format for extraction: ws/readme.md"])
    ∧ isdir_path st1 "ws/out" = true.
Proof.
  exists (os_makedirs "ws/out" Cases.st).1.2.
  apply (expand_of_an_unsupported_format Cases.broken_zip Cases.empty_tar Cases.executor
           "ws/readme.md" "ws/out" Cases.st (os_makedirs "ws/out" Cases.st).1.2 []);
    vm_compute; reflexivity.
Defined.

Lemma expand_runs_the_reader_and_logs_its_failure_witness :
  TaskExecutor._expand Cases.broken_zip Cases.empty_tar Cases.executor
    "ws/pkg.zip" (Some "ws/docs") Cases.st
  = (inr tt, Cases.st,
     [Log INFO "Extracting ws/pkg.zip to ws/docs...";
      Log ERROR "Error extracting ws/pkg.zip: File is not a zip file"])
  ∧ TaskExecutor._expand Cases.broken_zip Cases.empty_tar Cases.executor
      "ws/pkg.tar.gz" (Some "ws/docs") Cases.st
    = (inr tt, Cases.st, [Log INFO "Extracting ws/pkg.tar.gz to ws/docs..."]).
Proof.
  split.
  - apply (expand_runs_the_reader_and_logs_its_failure Cases.broken_zip Cases.empty_tar
             Cases.executor "ws/pkg.zip" "ws/docs" Cases.st Cases.st []);
      vm_compute; reflexivity.
  - apply (expand_runs_the_reader_and_logs_its_failure Cases.broken_zip Cases.empty_tar
             Cases.executor "ws/pkg.tar.gz" "ws/docs" Cases.st Cases.st []);
      vm_compute; reflexivity.
Defined.

Lemma expand_task_without_destination_witness :
  TaskExecutor.execute_task Cases.broken_zip Cases.empty_tar Cases.executor
    Cases.expand_pkg Cases.st
  = (inr tt, Cases.st,
     [Log ERROR "Error during expand task for ws/pkg.zip: expected str, bytes or os.PathLike object, not NoneType"]).
Proof.
  apply (expand_task_without_destination Cases.broken_zip Cases.empty_tar Cases.executor
           Cases.expand_pkg Cases.st); reflexivity.
Defined.

Lemma absolute_task_paths_ignore_the_base_directory_witness :
  task_source (TaskExecutor.__init__ Cases.no_url "ws") Cases.delete_hosts = "/etc/hosts"
  ∧ TaskExecutor.execute_task Cases.broken_zip Cases.empty_tar
      (TaskExecutor.__init__ Cases.no_url "ws") Cases.delete_hosts Cases.st
    = TaskExecutor.execute_task Cases.broken_zip Cases.empty_tar
        (TaskExecutor.__init__ Cases.no_url "elsewhere") Cases.delete_hosts Cases.st.
Proof.
  apply (absolute_task_paths_ignore_the_base_directory Cases.broken_zip Cases.empty_tar
           Cases.no_url "ws" "elsewhere" Cases.delete_hosts "/etc/hosts" Cases.st).
  - reflexivity.
  - reflexivity.
  - intros d Hd. vm_compute in Hd. discriminate Hd.
Defined.

Lemma repository_without_url_is_skipped_witness :
  proc_for_each [Cases.no_url; Cases.pinned]
    (λ repo, RepoManager.clone_repository Sample.git_succeeds Sample.no_archive
               Sample.no_archive (RepoManager.__init__ repo "ws")) Cases.st
  = proc_prefixed
      [Did (Log INFO "Cloning nameless sources...");
       Did (Log ERROR "Missing 'url' or 'destination' for a repository.")]
      (proc_for_each [Cases.pinned]
         (λ repo, RepoManager.clone_repository Sample.git_succeeds Sample.no_archive
                    Sample.no_archive (RepoManager.__init__ repo "ws")) Cases.st).
Proof.
  apply (repository_without_url_is_skipped Sample.git_succeeds Sample.no_archive
           Sample.no_archive Cases.no_url [Cases.pinned] "ws" Cases.st "nameless");
    reflexivity.
Defined.

Lemma artifact_without_url_is_skipped_witness :
  proc_for_each [Cases.no_url_artifact; Cases.gcc]
    (λ artifact, lift (ArtifactManager.download Cases.online Sample.no_archive
                         Sample.no_archive (ArtifactManager.__init__ artifact "ws")))
    Cases.st
  = proc_prefixed [Did (Log ERROR "Missing 'url' or 'destination' for download.")]
      (proc_for_each [Cases.gcc]
         (λ artifact, lift (ArtifactManager.download Cases.online Sample.no_archive
                              Sample.no_archive (ArtifactManager.__init__ artifact "ws")))
         Cases.st).
Proof.
  apply (artifact_without_url_is_skipped Cases.online Sample.no_archive Sample.no_archive
           Cases.no_url_artifact [Cases.gcc] "ws" Cases.st).
  reflexivity.
Defined.

Lemma commands_of_a_provisioning_witness :
  commands (RepoManager.clone_repository Sample.git_succeeds Sample.no_archive
              Sample.no_archive (RepoManager.__init__ Cases.pinned "ws") Cases.st).2
  = [["git"; "-C"; "ws/edk2"; "pull"];
     ["git"; "-C"; "ws/edk2"; "checkout"; "abc123"];
     ["git"; "-C"; "ws/edk2"; "submodule"; "update"; "--init"; "--recursive"]]
  ∧ commands (RepoManager.clone_repository Sample.git_fails Sample.no_archive
                Sample.no_archive (RepoManager.__init__ Cases.pinned "ws") Cases.st).2
    `prefix_of`
      [["git"; "-C"; "ws/edk2"; "pull"];
       ["git"; "-C"; "ws/edk2"; "checkout"; "abc123"];
       ["git"; "-C"; "ws/edk2"; "submodule"; "update"; "--init"; "--recursive"]].
Proof.
  split.
  - apply (proj2 (commands_of_a_provisioning Sample.git_succeeds Sample.no_archive
                    Sample.no_archive (RepoManager.__init__ Cases.pinned "ws") Cases.st
                    "edk2" "https://example.org/edk2.git" Cases.st []
                    eq_refl eq_refl eq_refl eq_refl eq_refl)).
    vm_compute. reflexivity.
  - apply (proj1 (commands_of_a_provisioning Sample.git_fails Sample.no_archive
                    Sample.no_archive (RepoManager.__init__ Cases.pinned "ws") Cases.st
                    "edk2" "https://example.org/edk2.git" Cases.st []
                    eq_refl eq_refl eq_refl eq_refl eq_refl)).
Defined.

Lemma download_writes_the_body_witness :
  ∃ st2,
    ArtifactManager.download Cases.online Sample.no_archive Sample.no_archive
      (ArtifactManager.__init__ Cases.gcc "ws") Cases.st
    = prefixed [Log INFO "Downloading https://example.org/gcc.zip to ws/tools/gcc.zip...";
                HttpGet "https://example.org/gcc.zip" (Response 200 "PK-data")]
        (TaskExecutor.execute_tasks Sample.no_archive Sample.no_archive
           (TaskExecutor.__init__ Cases.gcc "ws") st2)
    ∧ lookup_node (root st2) ["ws"; "tools"; "gcc.zip"] = Some (File "PK-data" 50 false).
Proof.
  destruct (download_writes_the_body Cases.online Sample.no_archive Sample.no_archive
              (ArtifactManager.__init__ Cases.gcc "ws") Cases.st
              "https://example.org/gcc.zip" (os_makedirs "ws/tools" Cases.st).1.2 []
              200 "PK-data" ["ws"; "tools"; "gcc.zip"])
    as (st2 & Hrun & Hfile & _).
  - reflexivity.
  - reflexivity.
  - reflexivity.
  - vm_compute. reflexivity.
  - reflexivity.
  - lia.
  - vm_compute. reflexivity.
  - left. split; vm_compute; reflexivity.
  - exists st2. split; [exact Hrun|exact Hfile].
Defined.

Lemma failed_download_ends_the_run_witness :
  ArtifactManager.download Cases.not_found Sample.no_archive Sample.no_archive
    (ArtifactManager.__init__ Cases.gcc "ws") Cases.st
  = (inl (HTTPError 404), (os_makedirs "ws/tools" Cases.st).1.2,
     [Log INFO "Downloading https://example.org/gcc.zip to ws/tools/gcc.zip...";
      HttpGet "https://example.org/gcc.zip" (Response 404 "")])
  ∧ proc_for_each [Cases.gcc; Cases.gcc]
      (λ artifact, lift (ArtifactManager.download Cases.not_found Sample.no_archive
                           Sample.no_archive (ArtifactManager.__init__ artifact "ws")))
      Cases.st
    = (Raised (HTTPError 404), (os_makedirs "ws/tools" Cases.st).1.2,
       [Did (Log INFO "Downloading https://example.org/gcc.zip to ws/tools/gcc.zip...");
        Did (HttpGet "https://example.org/gcc.zip" (Response 404 ""))]).
Proof.
  apply (failed_download_ends_the_run Cases.not_found Sample.no_archive Sample.no_archive
           Cases.gcc [Cases.gcc] "ws" Cases.st "https://example.org/gcc.zip"
           (os_makedirs "ws/tools" Cases.st).1.2 [] (HTTPError 404)).
  - reflexivity.
  - reflexivity.
  - reflexivity.
  - vm_compute. reflexivity.
  - right. exists 404, "". split_and!; [reflexivity|lia|lia|reflexivity].
Defined.

Lemma manifest_errors_are_fatal_witness :
  let main := BootstrapManager.main Sample.git_succeeds Cases.online Sample.no_archive
                Sample.no_archive Cases.parse in
  main "missing.yaml" Cases.st
  = (Exited 1, Cases.st,
     [Did (Log ERROR "The specified YAML file 'missing.yaml' does not exist.")])
  ∧ main "bad.yaml" Cases.st
    = (Exited 1, Cases.st,
       [Did (Log ERROR "Error parsing YAML file: mapping values are not allowed here")])
  ∧ main "bare.yaml" Cases.st
    = (Exited 1, Cases.st,
       [Did (Log ERROR "'project' key not found in the YAML manifest.")])
  ∧ main "void.yaml" Cases.st
    = (Raised (AttributeError "'NoneType' object has no attribute 'get'"), Cases.st, []).
Proof.
  intros main. split_and!.
  - apply (proj1 (manifest_errors_are_fatal Sample.git_succeeds Cases.online
                    Sample.no_archive Sample.no_archive Cases.parse
                    "missing.yaml" Cases.st)).
    reflexivity.
  - apply (proj1 (proj2 (manifest_errors_are_fatal Sample.git_succeeds Cases.online
                    Sample.no_archive Sample.no_archive Cases.parse
                    "bad.yaml" Cases.st)) ["bad.yaml"] ":" 1 false);
      reflexivity.
  - apply (proj1 (proj2 (proj2 (manifest_errors_are_fatal Sample.git_succeeds Cases.online
                    Sample.no_archive Sample.no_archive Cases.parse
                    "bare.yaml" Cases.st))) ["bare.yaml"] "repositories: []" 1 false
             (Config None [] []));
      reflexivity.
  - apply (proj2 (proj2 (proj2 (manifest_errors_are_fatal Sample.git_succeeds Cases.online
                    Sample.no_archive Sample.no_archive Cases.parse
                    "void.yaml" Cases.st))) ["void.yaml"] "" 1 false "NoneType");
      reflexivity.
Defined.

Lemma manifest_that_is_a_directory_raises_witness :
  BootstrapManager.main Sample.git_succeeds Cases.online Sample.no_archive
    Sample.no_archive Cases.parse "etc" Cases.st
  = (Raised (OSError EISDIR "etc"), Cases.st, []).
Proof.
  apply (manifest_that_is_a_directory_raises Sample.git_succeeds Cases.online
           Sample.no_archive Sample.no_archive Cases.parse "etc" Cases.st ["etc"] false
           {[ "hosts" := File "localhost" 1 false ]}).
  - reflexivity.
  - vm_compute. reflexivity.
Defined.

Lemma run_of_an_empty_manifest_witness :
  BootstrapManager.main Sample.git_succeeds Cases.online Sample.no_archive
    Sample.no_archive Cases.parse "empty.yaml" Cases.st
  = (Returned tt, (os_makedirs "build" Cases.st).1.2, [])
  ∧ isdir_path (os_makedirs "build" Cases.st).1.2 "build" = true.
Proof.
  apply (run_of_an_empty_manifest Sample.git_succeeds Cases.online Sample.no_archive
           Sample.no_archive Cases.parse "empty.yaml" Cases.st ["empty.yaml"]
           "project: build" 1 false (Config (Some "build") [] [])
           (os_makedirs "build" Cases.st).1.2 []).
  - reflexivity.
  - reflexivity.
  - reflexivity.
  - reflexivity.
  - reflexivity.
  - reflexivity.
  - vm_compute. reflexivity.
Defined.

Lemma a_run_exits_with_one_after_an_error_line_witness :
  ∃ pre msg,
    (BootstrapManager.main Sample.git_fails Cases.online Sample.no_archive
       Sample.no_archive Cases.parse "full.yaml" Cases.st).2
    = pre ++ [Did (Log ERROR msg)].
Proof.
  apply (a_run_exits_with_one_after_an_error_line Sample.git_fails Cases.online
           Sample.no_archive Sample.no_archive Cases.parse "full.yaml" Cases.st 1).
  vm_compute. reflexivity.
Defined.

Lemma a_command_that_cannot_start_ends_the_run_witness :
  (BootstrapManager.main Cases.git_missing Cases.online Sample.no_archive
     Sample.no_archive Cases.parse "full.yaml" Cases.st).1.1
  = Raised (OSError ENOENT "git").
Proof.
  apply (a_command_that_cannot_start_ends_the_run Cases.git_missing Cases.online
           Sample.no_archive Sample.no_archive Cases.parse "full.yaml" Cases.st
           [Did (Log INFO "Cloning edk2 sources...");
            Did (Log INFO "Repository already exists at ws/edk2. Pulling latest changes...")]
           ["git"; "-C"; "ws/edk2"; "pull"] (OSError ENOENT "git") []).
  vm_compute. reflexivity.
Defined.
